(** * ODYSCAPE recommendation engine

    A shallow embedding of [recommendation-engine.ts] (the class
    [RecommendationEngine] and the function [getOnboardingRecommendations])
    together with the few storage accessors it calls, and the properties of
    the merger, the signal generators, the orchestrator and the onboarding
    recommender.

    Conventions of the embedding:
    - a JavaScript [number] holding a score is an IEEE 754 binary64 value
      ([spec_float] with [prec = 53], [emax = 1024]) and the arithmetic is the
      correctly rounded one of the Standard Library's [SpecFloat];
    - movie, user and genre identifiers are integers ([Z]);
    - arrays are lists, a [Map] is an association list in insertion order;
    - an [async] method is a computation over a world made of the database
      and the log of the HTTP requests issued so far; a rejected promise or a
      [throw] is the outcome [Throw];
    - the metadata provider is any function from the requests seen so far
      and the current request to a page of movies or a failure;
    - database calls do not fail, and [console.error] has no effect.

    The model comes first, then the vocabulary of the statements, then the
    properties.  After the engine comes the code around it: the storage
    methods for preferences, recommendations, experience points, likes and
    ratings, the preference and recommendation routes, and the level table
    of the progress bar. *)

From Stdlib Require Import ZArith List Bool String Ascii Lia.
From Stdlib Require Import Permutation Sorted DecimalString.
From Stdlib Require Import SpecFloat.
Import ListNotations.
Local Open Scope string_scope.
Local Open Scope list_scope.
Local Open Scope Z_scope.

Set Implicit Arguments.

(** [l.length] is the length of an array throughout. *)
Abbreviation length := List.length.

(* ================================================================= *)
(** ** JavaScript numbers *)

Module Num.

Definition number : Type := spec_float.

Definition prec : Z := 53.
Definition emax : Z := 1024.
(** Exponent of the smallest subnormal: every finite binary64 value is an
    integer multiple of [2 ^ emin]. *)
Definition emin : Z := -1074.

Definition add : number -> number -> number := SFadd prec emax.
Definition sub : number -> number -> number := SFsub prec emax.
Definition mul : number -> number -> number := SFmul prec emax.
Definition div : number -> number -> number := SFdiv prec emax.

(** An integer as a number (array lengths, integer literals). *)
Definition ofZ (z : Z) : number := binary_normalize prec emax z 0 false.
Definition ofNat (n : nat) : number := ofZ (Z.of_nat n).

(** The decimal literal [digits / 10 ^ scale], rounded to nearest even as
    the parser of the language does: [decimal 12 1] is the literal [1.2]. *)
Definition decimal (digits : Z) (scale : nat) : number :=
  div (ofZ digits) (ofZ (10 ^ Z.of_nat scale)).

Definition zero : number := S754_zero false.

Definition is_nan (x : number) : bool :=
  match x with S754_nan => true | _ => false end.

(** The real value of a number, in units of [2 ^ emin], extended with the
    two infinities; [None] for NaN. *)
Inductive ereal : Type := NegInf | Fin (units : Z) | PosInf.

Definition value (x : number) : option ereal :=
  match x with
  | S754_nan => None
  | S754_infinity s => Some (if s then NegInf else PosInf)
  | S754_zero _ => Some (Fin 0)
  | S754_finite s m e => Some (Fin (cond_Zopp s (Z.shiftl (Zpos m) (e - emin))))
  end.

Definition ereal_compare (a b : ereal) : comparison :=
  match a, b with
  | NegInf, NegInf => Eq
  | NegInf, _ => Lt
  | _, NegInf => Gt
  | PosInf, PosInf => Eq
  | PosInf, _ => Gt
  | _, PosInf => Lt
  | Fin u, Fin v => Z.compare u v
  end.

(** Numeric comparison; [None] when an operand is NaN. *)
Definition compare (x y : number) : option comparison :=
  match value x, value y with
  | Some a, Some b => Some (ereal_compare a b)
  | _, _ => None
  end.

(** [x < y], [x <= y] and [x == y] of the language. *)
Definition ltb (x y : number) : bool :=
  match compare x y with Some Lt => true | _ => false end.
Definition leb (x y : number) : bool :=
  match compare x y with Some (Lt | Eq) => true | _ => false end.
Definition eqb (x y : number) : bool :=
  match compare x y with Some Eq => true | _ => false end.

(** [Math.max(a, b)]: NaN if an argument is NaN, [+0] is larger than [-0],
    otherwise the larger value. *)
Definition max (a b : number) : number :=
  if is_nan a || is_nan b then S754_nan
  else match a, b with
       | S754_zero true, S754_zero false => b
       | _, _ => if ltb a b then b else a
       end.

(** How [Array.prototype.sort] reads the result [v] of a comparator:
    [v < 0], [v > 0], or neither (zero and NaN). *)
Definition sign (v : number) : comparison :=
  match v with
  | S754_zero _ | S754_nan => Eq
  | S754_infinity s | S754_finite s _ _ => if s then Lt else Gt
  end.

(** [Math.max(...l)] of a non-empty array. *)
Definition maximum (l : list number) : option number :=
  match l with
  | [] => None
  | x :: xs => Some (fold_left max xs x)
  end.

(** [m] is a greatest element of [l] for the numeric order. *)
Definition greatest (m : number) (l : list number) : Prop :=
  In m l /\ Forall (fun v => leb v m = true) l.

End Num.

Import Num.

(* ================================================================= *)
(** ** Data *)

(** [interface Movie]: a movie summary of the metadata provider. *)
Record Movie : Type := {
  id : Z;
  title : string;
  vote_average : number;
  vote_count : number;
  popularity : number;
  release_date : string;
  original_language : string;
  genre_ids : list Z
}.

(** [interface RecommendationScore]: a candidate score entry. *)
Record RecommendationScore : Type := {
  movieId : Z;
  score : number;
  genreMatch : number;
  languageMatch : number;
  collaborativeScore : number
}.

(* ================================================================= *)
(** ** The merger: [mergeAndScoreRecommendations] *)

(** [Map<number, RecommendationScore>], entries in insertion order. *)
Definition MovieMap : Type := list (Z * RecommendationScore).

Fixpoint map_has (k : Z) (m : MovieMap) : bool :=
  match m with
  | [] => false
  | (k', _) :: m' => (k' =? k) || map_has k m'
  end.

(** [const existingRec = movieMap.get(k)!] followed by assignments to the
    fields of [existingRec]: the object stored under [k] changes in place. *)
Fixpoint map_modify (k : Z) (f : RecommendationScore -> RecommendationScore)
    (m : MovieMap) : MovieMap :=
  match m with
  | [] => []
  | (k', v) :: m' =>
      if k' =? k then (k', f v) :: m' else (k', v) :: map_modify k f m'
  end.

(** [movieMap.set(k, v)] for a key not yet present. *)
Definition map_set_new (k : Z) (v : RecommendationScore) (m : MovieMap) : MovieMap :=
  m ++ [(k, v)].

Definition map_values (m : MovieMap) : list RecommendationScore := map snd m.

(** The three assignments of the loop body. *)
Definition take_max (rec existingRec : RecommendationScore) : RecommendationScore :=
  {| movieId := movieId existingRec;
     score := score existingRec;
     genreMatch := max (genreMatch existingRec) (genreMatch rec);
     languageMatch := max (languageMatch existingRec) (languageMatch rec);
     collaborativeScore := max (collaborativeScore existingRec) (collaborativeScore rec) |}.

(** One iteration of [for (const rec of recommendations)]. *)
Definition merge_step (movieMap : MovieMap) (rec : RecommendationScore) : MovieMap :=
  if map_has (movieId rec) movieMap
  then map_modify (movieId rec) (take_max rec) movieMap
  else map_set_new (movieId rec) rec movieMap.

(** [rec.score = rec.genreMatch + rec.languageMatch + rec.collaborativeScore]. *)
Definition set_score (rec : RecommendationScore) : RecommendationScore :=
  {| movieId := movieId rec;
     score := add (add (genreMatch rec) (languageMatch rec)) (collaborativeScore rec);
     genreMatch := genreMatch rec;
     languageMatch := languageMatch rec;
     collaborativeScore := collaborativeScore rec |}.

Definition mergeAndScoreRecommendations (recommendations : list RecommendationScore)
  : list RecommendationScore :=
  let movieMap := fold_left merge_step recommendations [] in
  let mergedRecommendations := map_values movieMap in
  map set_score mergedRecommendations.

(* ================================================================= *)
(** ** [Array.prototype.sort]

    The language requires the sort to be stable and leaves the order
    unspecified only for an inconsistent comparator.  It is modelled by the
    stable insertion sort: [x], which precedes the elements of [l] in the
    input, moves behind [y] exactly when [compareFn(x, y) > 0]. *)

Section Sort.
Variable A : Type.
Variable compareFn : A -> A -> number.

Fixpoint sort_insert (x : A) (l : list A) : list A :=
  match l with
  | [] => [x]
  | y :: l' =>
      match sign (compareFn x y) with
      | Gt => y :: sort_insert x l'
      | _ => x :: l
      end
  end.

Fixpoint array_sort (l : list A) : list A :=
  match l with
  | [] => []
  | x :: l' => sort_insert x (array_sort l')
  end.

End Sort.

(* ================================================================= *)
(** ** The database ([shared/schema.ts], [storage.ts]) *)

Module Schema.

(** The [preferences] JSON column; a field may be missing from the stored
    object ([createUser] stores no [country]). *)
Record UserPreferences : Type := {
  genres : option (list Z);
  languages : option (list string);
  favoriteMovies : option (list Z);
  country : option string
}.

(** A row of [users]; the columns the engine never reads are left out. *)
Record User : Type := {
  id : Z;
  preferences : option UserPreferences;
  level : option string
}.

(** A row of [movie_ratings]. *)
Record MovieRating : Type := {
  rating_userId : Z;
  rating_movieId : Z;
  rating : Z
}.

(** A row of [user_movie_recommendations], without its serial [id] and its
    [created_at]: a row deleted and inserted again is a new row of the
    table, with the same columns here. *)
Record UserMovieRecommendation : Type := {
  rec_userId : Z;
  rec_movieId : Z;
  rec_score : number;
  rec_genreMatch : option number;
  rec_languageMatch : option number;
  rec_collaborativeScore : option number;
  recommended : bool
}.

End Schema.

(** The tables; [watchedMovies] and [movieLikes] hold (user id, movie id). *)
Record Store : Type := {
  users : list Schema.User;
  watchedMovies : list (Z * Z);
  movieRatings : list Schema.MovieRating;
  movieLikes : list (Z * Z);
  userMovieRecommendations : list Schema.UserMovieRecommendation
}.

Module Storage.
Import Schema.

Definition getUser (db : Store) (userId : Z) : option User :=
  find (fun u => id u =? userId) (users db).

(** [user.level || 'Beginner'], and ['Beginner'] for a missing user. *)
Definition getUserLevel (db : Store) (userId : Z) : string :=
  match getUser db userId with
  | None => "Beginner"
  | Some user =>
      match level user with
      | None => "Beginner"
      | Some l => if String.eqb l "" then "Beginner" else l
      end
  end.

Definition getWatchedMovies (db : Store) (userId : Z) : list Z :=
  map snd (filter (fun row => fst row =? userId) (watchedMovies db)).

Definition getUserRatings (db : Store) (userId : Z) : list MovieRating :=
  filter (fun row => rating_userId row =? userId) (movieRatings db).

Definition getUserLikes (db : Store) (userId : Z) : list Z :=
  map snd (filter (fun row => fst row =? userId) (movieLikes db)).

Definition set_recommendations (db : Store) (rows : list UserMovieRecommendation) : Store :=
  {| users := users db;
     watchedMovies := watchedMovies db;
     movieRatings := movieRatings db;
     movieLikes := movieLikes db;
     userMovieRecommendations := rows |}.

Definition clearUserRecommendations (db : Store) (userId : Z) : Store :=
  set_recommendations db
    (filter (fun row => negb (rec_userId row =? userId)) (userMovieRecommendations db)).

Definition same_pair (userId movieId : Z) (row : UserMovieRecommendation) : bool :=
  (rec_userId row =? userId) && (rec_movieId row =? movieId).

(** [saveRecommendation] is embedded where the database accepts the write:
    for a user that has a row (foreign key) and a movie id within the
    integer column, with the three signals given (the update leaves an
    omitted one as it was).

    The [update ... where id = existing.id] of [saveRecommendation]. *)
Fixpoint update_first (userId movieId : Z) (new : UserMovieRecommendation)
    (rows : list UserMovieRecommendation) : list UserMovieRecommendation :=
  match rows with
  | [] => []
  | row :: rows' =>
      if same_pair userId movieId row then new :: rows'
      else row :: update_first userId movieId new rows'
  end.

Definition saveRecommendation (db : Store) (userId movieId : Z) (score : number)
    (genreMatch languageMatch collaborativeScore : option number) : Store :=
  let new := {| rec_userId := userId; rec_movieId := movieId; rec_score := score;
                rec_genreMatch := genreMatch; rec_languageMatch := languageMatch;
                rec_collaborativeScore := collaborativeScore; recommended := true |} in
  if existsb (same_pair userId movieId) (userMovieRecommendations db)
  then set_recommendations db (update_first userId movieId new (userMovieRecommendations db))
  else set_recommendations db (userMovieRecommendations db ++ [new]).

End Storage.

(* ================================================================= *)
(** ** The metadata provider and the computations *)

(** A value of the [params] object of an [axios.get] call. *)
Inductive ParamValue : Type :=
| PStr (s : string)
| PNum (n : number)
| PUndefined.

Record Request : Type := {
  url : string;
  params : list (string * ParamValue)
}.

(** The provider answers a request, knowing the requests that came before,
    with [response.data.results]; [None] is a failed call (network error,
    error status, a body without a result array). *)
Definition Provider : Type := list Request -> Request -> option (list Movie).

Inductive Error : Type :=
| UserNotFound     (* [new Error("User not found")] *)
| RequestFailed.   (* what a failed [axios.get] throws *)

Inductive Outcome (A : Type) : Type :=
| Ok (a : A)
| Throw (e : Error).
Arguments Ok {A} a.
Arguments Throw {A} e.

Record World : Type := {
  store : Store;
  requests : list Request
}.

Definition M (A : Type) : Type := World -> Outcome A * World.

Definition ret {A} (a : A) : M A := fun w => (Ok a, w).

Definition bind {A B} (m : M A) (k : A -> M B) : M B :=
  fun w => match m w with
           | (Ok a, w') => k a w'
           | (Throw e, w') => (Throw e, w')
           end.

Definition throw {A} (e : Error) : M A := fun w => (Throw e, w).

(** [try { m } catch (error) { handler }]. *)
Definition try_catch {A} (m : M A) (handler : Error -> M A) : M A :=
  fun w => match m w with
           | (Ok a, w') => (Ok a, w')
           | (Throw e, w') => handler e w'
           end.

Definition read_store {A} (f : Store -> A) : M A := fun w => (Ok (f (store w)), w).

Definition write_store (f : Store -> Store) : M unit :=
  fun w => (Ok tt, {| store := f (store w); requests := requests w |}).

Notation "x <- m ;; k" := (bind m (fun x => k))
  (at level 61, m at next level, right associativity).
Notation "m ;;; k" := (bind m (fun _ => k))
  (at level 61, right associativity).

(** [for (const x of l) body], the accumulator being the array the body
    pushes to. *)
Fixpoint for_of {A B} (l : list A) (body : A -> B -> M B) (acc : B) : M B :=
  match l with
  | [] => ret acc
  | x :: l' => acc' <- body x acc ;; for_of l' body acc'
  end.

(** Small pieces of the language; numbers up to [10 ^ 21] print as their
    digits. *)
Definition string_of_Z (z : Z) : string := NilZero.string_of_int (Z.to_int z).

(** [ids.join(',')]. *)
Definition join (ids : list Z) : string := String.concat "," (map string_of_Z ids).

(** [ids.includes(x)], [set.has(x)]. *)
Definition includes (ids : list Z) (x : Z) : bool := existsb (Z.eqb x) ids.

(** [new Set(l)] as the list of its elements in insertion order. *)
Definition new_Set (l : list Z) : list Z :=
  fold_left (fun s x => if includes s x then s else s ++ [x]) l [].

(** Truthiness of [l?.length] and of an optional string. *)
Definition has_length {A} (l : option (list A)) : bool :=
  match l with Some (_ :: _) => true | _ => false end.
Definition truthy (s : option string) : bool :=
  match s with Some s' => negb (String.eqb s' "") | None => false end.

Definition tmdbBaseUrl : string := "https://api.themoviedb.org/3".

(* ================================================================= *)
(** ** [class RecommendationEngine] *)

Section Engine.

(** [process.env.TMDB_API_KEY || ""] and the provider behind [axios]. *)
Variable apiKey : string.
Variable provider : Provider.

(** [await axios.get(url, { params })], giving [response.data.results]. *)
Definition axios_get (u : string) (ps : list (string * ParamValue)) : M (list Movie) :=
  fun w =>
    let request := {| url := u; params := ps |} in
    let w' := {| store := store w; requests := requests w ++ [request] |} in
    match provider (requests w) request with
    | Some results => (Ok results, w')
    | None => (Throw RequestFailed, w')
    end.

(** An entry with [score: 0] carrying one signal. *)
Definition candidate (movie : Movie) (g l c : number) : RecommendationScore :=
  {| movieId := id movie; score := zero;
     genreMatch := g; languageMatch := l; collaborativeScore := c |}.

(** [user.preferences?.genres || []] and [user.preferences?.languages || []]. *)
Definition genres_of (user : Schema.User) : list Z :=
  match Schema.preferences user with
  | Some p => match Schema.genres p with Some g => g | None => [] end
  | None => []
  end.

Definition languages_of (user : Schema.User) : list string :=
  match Schema.preferences user with
  | Some p => match Schema.languages p with Some l => l | None => [] end
  | None => []
  end.

(** [user.preferences?.country]. *)
Definition country_of (user : Schema.User) : option string :=
  match Schema.preferences user with
  | Some p => Schema.country p
  | None => None
  end.

(** The entry the genre generator builds for one movie. *)
Definition genre_candidate (genres : list Z) (movie : Movie) : RecommendationScore :=
  let matchingGenres := filter (fun id => includes genres id) (genre_ids movie) in
  let genreMatchScore := div (ofNat (length matchingGenres)) (ofNat (length genres)) in
  candidate movie (mul genreMatchScore (decimal 12 1)) zero zero.

Definition getGenreBasedRecommendations (user : Schema.User) : M (list RecommendationScore) :=
  let genres := genres_of user in
  if (length genres =? 0)%nat then ret []
  else
    try_catch
      (let genreParam := join genres in
       results <- axios_get (tmdbBaseUrl ++ "/discover/movie")
                    [("api_key", PStr apiKey);
                     ("language", PStr "en-US");
                     ("with_genres", PStr genreParam);
                     ("sort_by", PStr "popularity.desc");
                     ("page", PNum (ofZ 1))] ;;
       ret (map (genre_candidate genres) results))
      (fun error => ret []).

Definition getLanguageBasedRecommendations (user : Schema.User) : M (list RecommendationScore) :=
  let languages := languages_of user in
  if (length languages =? 0)%nat then ret []
  else
    for_of languages
      (fun language allRecommendations =>
         try_catch
           (results <- axios_get (tmdbBaseUrl ++ "/discover/movie")
                         [("api_key", PStr apiKey);
                          ("with_original_language", PStr language);
                          ("sort_by", PStr "vote_average.desc");
                          ("vote_count.gte", PNum (ofZ 100));
                          ("page", PNum (ofZ 1))] ;;
            let languageRecs :=
              map (fun movie => candidate movie zero (decimal 11 1) zero) results in
            ret (allRecommendations ++ languageRecs))
           (fun error => ret allRecommendations))
      [].

(** [user.preferences?.languages?.[0] || "en"]. *)
Definition first_language_or_en (user : Schema.User) : string :=
  match Schema.preferences user with
  | Some p =>
      match Schema.languages p with
      | Some (l :: _) => if String.eqb l "" then "en" else l
      | _ => "en"
      end
  | None => "en"
  end.

Definition getCountryBasedRecommendations (user : Schema.User) : M (list RecommendationScore) :=
  let country := country_of user in
  if negb (truthy country) then ret []
  else
    try_catch
      (results <- axios_get (tmdbBaseUrl ++ "/discover/movie")
                    [("api_key", PStr apiKey);
                     ("region", match country with Some c => PStr c | None => PUndefined end);
                     ("sort_by", PStr "popularity.desc");
                     ("vote_count.gte", PNum (ofZ 50));
                     ("page", PNum (ofZ 1));
                     ("with_original_language", PStr (first_language_or_en user))] ;;
       ret (map (fun movie => candidate movie zero zero (decimal 13 1)) results))
      (fun error => ret []).

(** The [params] of the [/discover/movie] request in each branch of the
    [switch (level)]. *)
Definition beginnerParams : list (string * ParamValue) :=
  [("api_key", PStr apiKey);
   ("sort_by", PStr "popularity.desc");
   ("vote_average.gte", PNum (decimal 75 1));
   ("vote_count.gte", PNum (ofZ 1000));
   ("page", PNum (ofZ 1))].

Definition explorerParams : list (string * ParamValue) :=
  [("api_key", PStr apiKey);
   ("sort_by", PStr "vote_average.desc");
   ("vote_count.gte", PNum (ofZ 500));
   ("page", PNum (ofZ 1));
   ("with_keywords", PStr "classic,acclaimed")].

Definition cinephileParams : list (string * ParamValue) :=
  [("api_key", PStr apiKey);
   ("sort_by", PStr "vote_average.desc");
   ("vote_count.gte", PNum (ofZ 200));
   ("page", PNum (ofZ 1));
   ("with_keywords", PStr "arthouse,cult,foreign")].

Definition connoisseurParams : list (string * ParamValue) :=
  [("api_key", PStr apiKey);
   ("sort_by", PStr "vote_average.desc");
   ("page", PNum (ofZ 1));
   ("with_keywords", PStr "experimental,masterpiece,auteur,avant-garde")].

Definition defaultParams : list (string * ParamValue) :=
  [("api_key", PStr apiKey);
   ("sort_by", PStr "vote_average.desc");
   ("vote_count.gte", PNum (ofZ 1000));
   ("page", PNum (ofZ 1))].

Definition getLevelBasedRecommendations (level : string) : M (list RecommendationScore) :=
  try_catch
    (recommendations <-
       (if String.eqb level "Beginner" then
          axios_get (tmdbBaseUrl ++ "/discover/movie") beginnerParams
        else if String.eqb level "Explorer" then
          axios_get (tmdbBaseUrl ++ "/discover/movie") explorerParams
        else if String.eqb level "Cinephile" then
          axios_get (tmdbBaseUrl ++ "/discover/movie") cinephileParams
        else if String.eqb level "Connoisseur" then
          axios_get (tmdbBaseUrl ++ "/discover/movie") connoisseurParams
        else
          axios_get (tmdbBaseUrl ++ "/discover/movie") defaultParams) ;;
     ret (map (fun movie => candidate movie zero zero (decimal 10 1)) recommendations))
    (fun error => ret []).

Definition getCollaborativeRecommendations (userId : Z) : M (list RecommendationScore) :=
  try_catch
    (userWatchedMovies <- read_store (fun db => Storage.getWatchedMovies db userId) ;;
     userRatings <- read_store (fun db => Storage.getUserRatings db userId) ;;
     userLikes <- read_store (fun db => Storage.getUserLikes db userId) ;;
     let highlyRatedMovies :=
       map Schema.rating_movieId
           (filter (fun rating => 7 <=? Schema.rating rating) userRatings) in
     let userMovieInteractions :=
       new_Set (userWatchedMovies ++ highlyRatedMovies ++ userLikes) in
     if (length userMovieInteractions =? 0)%nat then ret []
     else
       let sampleMovies := firstn 3 userMovieInteractions in
       for_of sampleMovies
         (fun movieId recommendations =>
            try_catch
              (results <- axios_get (tmdbBaseUrl ++ "/movie/" ++ string_of_Z movieId ++ "/similar")
                            [("api_key", PStr apiKey);
                             ("language", PStr "en-US");
                             ("page", PNum (ofZ 1))] ;;
               let similarMovies :=
                 map (fun movie => candidate movie zero zero (decimal 15 1))
                     (filter (fun movie => negb (includes userMovieInteractions (id movie)))
                             results) in
               ret (recommendations ++ similarMovies))
              (fun error => ret recommendations))
         [])
    (fun error => ret []).

Definition trendingRequest : Request :=
  {| url := tmdbBaseUrl ++ "/trending/movie/week";
     params := [("api_key", PStr apiKey); ("language", PStr "en-US")] |}.

Definition getTrendingRecommendations : M (list RecommendationScore) :=
  try_catch
    (results <- axios_get (url trendingRequest) (params trendingRequest) ;;
     ret (map (fun movie => candidate movie zero zero (decimal 8 1)) results))
    (fun error => ret []).

(** Steps 1 to 5 of [generateRecommendationsForUser]: the concatenated
    output of the five signal generators. *)
Definition collectSignals (userId : Z) (user : Schema.User) : M (list RecommendationScore) :=
  userLevel <- read_store (fun db => Storage.getUserLevel db userId) ;;
  let recommendations := [] in
  countryRecommendations <- getCountryBasedRecommendations user ;;
  let recommendations := recommendations ++ countryRecommendations in
  genreRecommendations <- getGenreBasedRecommendations user ;;
  let recommendations := recommendations ++ genreRecommendations in
  languageRecommendations <- getLanguageBasedRecommendations user ;;
  let recommendations := recommendations ++ languageRecommendations in
  levelRecommendations <- getLevelBasedRecommendations userLevel ;;
  let recommendations := recommendations ++ levelRecommendations in
  collaborativeRecommendations <- getCollaborativeRecommendations userId ;;
  ret (recommendations ++ collaborativeRecommendations).

(** Step 6: the trending fallback. *)
Definition withTrendingFallback (recommendations : list RecommendationScore)
  : M (list RecommendationScore) :=
  if (length recommendations <? 20)%nat then
    trendingRecommendations <- getTrendingRecommendations ;;
    ret (recommendations ++ trendingRecommendations)
  else ret recommendations.

(** [(a, b) => b.score - a.score]. *)
Definition byScoreDescending (a b : RecommendationScore) : number :=
  sub (score b) (score a).

(** [for (const rec of sortedRecommendations) await storage.saveRecommendation(...)]. *)
Definition saveAll (userId : Z) (sortedRecommendations : list RecommendationScore) : M unit :=
  for_of sortedRecommendations
    (fun rec _ =>
       write_store (fun db =>
         Storage.saveRecommendation db userId (movieId rec) (score rec)
           (Some (genreMatch rec)) (Some (languageMatch rec))
           (Some (collaborativeScore rec))))
    tt.

(** The body of [generateRecommendationsForUser] once the user is found, up
    to and including the sort. *)
Definition rankedRecommendations (userId : Z) (user : Schema.User)
  : M (list RecommendationScore) :=
  write_store (fun db => Storage.clearUserRecommendations db userId) ;;;
  signals <- collectSignals userId user ;;
  recommendations <- withTrendingFallback signals ;;
  let mergedRecommendations := mergeAndScoreRecommendations recommendations in
  ret (array_sort byScoreDescending mergedRecommendations).

Definition generateRecommendationsForUser (userId : Z) : M (list Z) :=
  found <- read_store (fun db => Storage.getUser db userId) ;;
  match found with
  | None => throw UserNotFound
  | Some user =>
      sortedRecommendations <- rankedRecommendations userId user ;;
      saveAll userId sortedRecommendations ;;;
      ret (map movieId sortedRecommendations)
  end.

(* ================================================================= *)
(** ** [getOnboardingRecommendations] *)

Definition popularRequest : Request :=
  {| url := tmdbBaseUrl ++ "/movie/popular";
     params := [("api_key", PStr apiKey); ("language", PStr "en-US");
                ("page", PNum (ofZ 1))] |}.

(** [genres?.join(',')] and [languages?.[0]] as parameter values. *)
Definition genreParam_of (genres : option (list Z)) : ParamValue :=
  match genres with Some g => PStr (join g) | None => PUndefined end.

Definition languageParam_of (languages : option (list string)) : ParamValue :=
  match languages with Some (l :: _) => PStr l | _ => PUndefined end.

Definition countryParam_of (country : option string) : ParamValue :=
  match country with Some c => PStr c | None => PUndefined end.

(** [results.filter(movie => !existingIds.has(movie.id))] with
    [existingIds = new Set(allResults.map(movie => movie.id))]. *)
Definition not_yet_present (allResults results : list Movie) : list Movie :=
  let existingIds := new_Set (map id allResults) in
  filter (fun movie => negb (includes existingIds (id movie))) results.

(** Pass 1: all preferences combined. *)
Definition combinedPass (preferences : Schema.UserPreferences) (allResults : list Movie)
  : M (list Movie) :=
  let genres := Schema.genres preferences in
  let languages := Schema.languages preferences in
  let country := Schema.country preferences in
  if has_length genres && has_length languages && truthy country then
    try_catch
      (results <- axios_get (tmdbBaseUrl ++ "/discover/movie")
                    [("api_key", PStr apiKey);
                     ("language", PStr "en-US");
                     ("with_genres", genreParam_of genres);
                     ("with_original_language", languageParam_of languages);
                     ("region", countryParam_of country);
                     ("sort_by", PStr "popularity.desc");
                     ("page", PNum (ofZ 1))] ;;
       ret (allResults ++ results))
      (fun error => ret allResults)
  else ret allResults.

(** Pass 2: the country alone. *)
Definition countryPass (preferences : Schema.UserPreferences) (allResults : list Movie)
  : M (list Movie) :=
  let country := Schema.country preferences in
  if truthy country && (length allResults <? 15)%nat then
    try_catch
      (results <- axios_get (tmdbBaseUrl ++ "/discover/movie")
                    [("api_key", PStr apiKey);
                     ("region", countryParam_of country);
                     ("sort_by", PStr "popularity.desc");
                     ("page", PNum (ofZ 1))] ;;
       let newCountryMovies := not_yet_present allResults results in
       ret (allResults ++ newCountryMovies))
      (fun error => ret allResults)
  else ret allResults.

(** Pass 3: genres and first language. *)
Definition genreLanguagePass (preferences : Schema.UserPreferences) (allResults : list Movie)
  : M (list Movie) :=
  let genres := Schema.genres preferences in
  let languages := Schema.languages preferences in
  if (has_length genres || has_length languages) && (length allResults <? 15)%nat then
    try_catch
      (results <- axios_get (tmdbBaseUrl ++ "/discover/movie")
                    [("api_key", PStr apiKey);
                     ("language", PStr "en-US");
                     ("with_genres", genreParam_of genres);
                     ("with_original_language", languageParam_of languages);
                     ("sort_by", PStr "popularity.desc");
                     ("page", PNum (ofZ 1))] ;;
       let newGenreMovies := not_yet_present allResults results in
       ret (allResults ++ newGenreMovies))
      (fun error => ret allResults)
  else ret allResults.

(** The popular-movies fallback, outside any inner handler. *)
Definition popularFallback (allResults : list Movie) : M (list Movie) :=
  if (length allResults =? 0)%nat then
    results <- axios_get (url popularRequest) (params popularRequest) ;;
    ret (allResults ++ results)
  else ret allResults.

(** The body of the outer [try]. *)
Definition onboardingBody (preferences : Schema.UserPreferences) : M (list Z) :=
  let genres := Schema.genres preferences in
  let languages := Schema.languages preferences in
  let country := Schema.country preferences in
  if negb (has_length genres) && negb (has_length languages) && negb (truthy country) then
    results <- axios_get (url popularRequest) (params popularRequest) ;;
    ret (map id (firstn 20 results))
  else
    allResults <- combinedPass preferences [] ;;
    allResults <- countryPass preferences allResults ;;
    allResults <- genreLanguagePass preferences allResults ;;
    allResults <- popularFallback allResults ;;
    ret (map id (firstn 20 allResults)).

Definition getOnboardingRecommendations (preferences : Schema.UserPreferences) : M (list Z) :=
  try_catch (onboardingBody preferences) (fun error => ret []).

End Engine.

(* ================================================================= *)
(** ** Vocabulary of the statements *)

(** The input entries sharing the movie id [k]. *)
Definition group (k : Z) (recommendations : list RecommendationScore)
  : list RecommendationScore :=
  filter (fun rec => movieId rec =? k) recommendations.

(** The state of [movieMap] after the merging loop. *)
Definition merge_state (recommendations : list RecommendationScore) : MovieMap :=
  fold_left merge_step recommendations [].


(** The world [w] after the requests [new] have been issued. *)
Definition log_extend (w : World) (new : list Request) : World :=
  {| store := store w; requests := requests w ++ new |}.

(** The requests issued between the worlds [w] and [w']. *)
Definition issued (w w' : World) : list Request :=
  skipn (length (requests w)) (requests w').

(** A computation behaves as a signal generator: it returns normally, leaves
    the database alone, issues requests satisfying [Preq] and returns entries
    satisfying [Pent]. *)
Definition generator_spec (m : M (list RecommendationScore))
    (Preq : Request -> Prop) (Pent : RecommendationScore -> Prop) : Prop :=
  forall w, exists out new,
    m w = (Ok out, log_extend w new) /\ Forall Preq new /\ Forall Pent out.

(** The requests of the five personalised signal generators. *)
Definition signal_request (r : Request) : Prop :=
  url r = (tmdbBaseUrl ++ "/discover/movie")%string \/
  exists k, url r = (tmdbBaseUrl ++ "/movie/" ++ string_of_Z k ++ "/similar")%string.

(** An entry carrying the single signal [(g, l, c)] for some movie. *)
Definition signal_entry (g l c : number) (r : RecommendationScore) : Prop :=
  exists movie, r = candidate movie g l c.

(** The entries the five personalised generators can emit for [user]. *)
Definition personal_entry (user : Schema.User) (r : RecommendationScore) : Prop :=
  signal_entry zero zero (decimal 13 1) r \/
  (exists movie, genres_of user <> [] /\ r = genre_candidate (genres_of user) movie) \/
  signal_entry zero (decimal 11 1) zero r \/
  signal_entry zero zero (decimal 10 1) r \/
  signal_entry zero zero (decimal 15 1) r.

(** The world once the stored recommendations of [userId] are cleared. *)
Definition cleared (w : World) (userId : Z) : World :=
  {| store := Storage.clearUserRecommendations (store w) userId;
     requests := requests w |}.

Definition discoverUrl : string := (tmdbBaseUrl ++ "/discover/movie")%string.

(** The query profile of the level generator: the [params] of the branch of
    the [switch] that [level] selects. *)
Definition levelProfile (apiKey level : string) : list (string * ParamValue) :=
  if String.eqb level "Beginner" then beginnerParams apiKey
  else if String.eqb level "Explorer" then explorerParams apiKey
  else if String.eqb level "Cinephile" then cinephileParams apiKey
  else if String.eqb level "Connoisseur" then connoisseurParams apiKey
  else defaultParams apiKey.

(** The formula of the specification for the genre generator, in its
    words: the user's preferred genre ids that are present on the movie,
    and their number over the number of the user's preferred genre ids,
    times 1.2. *)
Definition preferred_present (genres : list Z) (movie : Movie) : list Z :=
  filter (fun g => includes (genre_ids movie) g) genres.

Definition spec_genreMatch (genres : list Z) (movie : Movie) : number :=
  mul (div (ofNat (length (preferred_present genres movie))) (ofNat (length genres)))
      (decimal 12 1).

(** The request of the genre/language pass of the onboarding recommender
    for a user with genres [g], no language and no country. *)
Definition genreOnlyRequest (apiKey : string) (g : option (list Z)) : Request :=
  {| url := discoverUrl;
     params := [("api_key", PStr apiKey);
                ("language", PStr "en-US");
                ("with_genres", genreParam_of g);
                ("with_original_language", PUndefined);
                ("sort_by", PStr "popularity.desc");
                ("page", PNum (ofZ 1))] |}.

(** Every page the provider returns lists each movie once. *)
Definition pages_without_repeats (provider : Provider) : Prop :=
  forall history request page,
    provider history request = Some page -> NoDup (map id page).

(** *** Sample data *)

Definition entry (k : Z) (s g l c : number) : RecommendationScore :=
  {| movieId := k; score := s; genreMatch := g; languageMatch := l;
     collaborativeScore := c |}.

(** Movie 7 proposed by the genre generator with [genreMatch = 0.6] and by
    the language generator with [languageMatch = 1.1]; movie 9 proposed
    twice with [genreMatch = 0.6], once with a stale [score]. *)
Definition sample_entries : list RecommendationScore :=
  [ entry 7 zero (decimal 6 1) zero zero;
    entry 9 zero (decimal 6 1) zero zero;
    entry 7 zero zero (decimal 11 1) zero;
    entry 9 (decimal 5 0) (decimal 6 1) zero zero ].

(** The double just above [1.7], printed [1.7000000000000002]. *)
Definition above_1_7 : number := S754_finite false 7656119366529844 (-52).

Definition movie_of (k : Z) (gs : list Z) : Movie :=
  {| id := k; title := ""; vote_average := zero; vote_count := zero;
     popularity := zero; release_date := ""; original_language := "en";
     genre_ids := gs |}.

Definition no_preferences : Schema.UserPreferences :=
  {| Schema.genres := None; Schema.languages := None;
     Schema.favoriteMovies := None; Schema.country := None |}.

Definition action_fan : Schema.UserPreferences :=
  {| Schema.genres := Some [28; 12]; Schema.languages := None;
     Schema.favoriteMovies := None; Schema.country := None |}.

Definition plain_user : Schema.User :=
  {| Schema.id := 1; Schema.preferences := None; Schema.level := Some "Beginner" |}.

Definition genre_user : Schema.User :=
  {| Schema.id := 2; Schema.preferences := Some action_fan;
     Schema.level := Some "Explorer" |}.

Definition stored_row : Schema.UserMovieRecommendation :=
  {| Schema.rec_userId := 1; Schema.rec_movieId := 603;
     Schema.rec_score := decimal 10 1; Schema.rec_genreMatch := Some zero;
     Schema.rec_languageMatch := Some zero;
     Schema.rec_collaborativeScore := Some (decimal 10 1);
     Schema.recommended := true |}.

Definition sample_store : Store :=
  {| users := [plain_user; genre_user]; watchedMovies := []; movieRatings := [];
     movieLikes := []; userMovieRecommendations := [stored_row] |}.

Definition sample_world : World := {| store := sample_store; requests := [] |}.

(** Providers answering every request with the same page of [n] movies,
    with a page that lists movie 5 twice, and with a failure. *)
Definition page_of (n : nat) : list Movie :=
  map (fun k => movie_of (Z.of_nat k) [28; 16]) (seq 1 n).

Definition constant_provider (n : nat) : Provider := fun _ _ => Some (page_of n).

Definition repeating_provider : Provider :=
  fun _ _ => Some [movie_of 5 [28]; movie_of 5 [28]].

Definition failing_provider : Provider := fun _ _ => None.

(** *** Well-formed scores

    The numbers a generation run computes with are never NaN and never
    negative, and their exponent is a binary64 exponent. *)
Definition nonneg (x : number) : Prop :=
  match x with
  | S754_zero _ => True
  | S754_infinity s => s = false
  | S754_nan => False
  | S754_finite s m e => s = false /\ emin <= e
  end.

(** What rounding a mantissa of sign [s] can give. *)
Definition rounded (s : bool) (x : number) : Prop :=
  match x with
  | S754_zero s' => s' = s
  | S754_infinity s' => s' = s
  | S754_nan => False
  | S754_finite s' m e => s' = s /\ emin <= e
  end.

Definition is_zero (x : number) : bool :=
  match x with S754_zero _ => true | _ => false end.

Definition entry_nonneg (r : RecommendationScore) : Prop :=
  nonneg (genreMatch r) /\ nonneg (languageMatch r) /\ nonneg (collaborativeScore r).

(** The entries with the score [s]. *)
Definition with_score (s : number) (l : list RecommendationScore) : list RecommendationScore :=
  filter (fun e => Num.eqb (score e) s) l.

(** [a] does not rank below [b]: [a.score >= b.score]. *)
Definition ranks_before (a b : RecommendationScore) : Prop :=
  leb (score b) (score a) = true.

(** A provider whose answer depends on the request: the trending page, the
    page of a genre query, and the page of any other query. *)
Definition sample_provider : Provider :=
  fun _ request =>
    if String.eqb (url request) (tmdbBaseUrl ++ "/trending/movie/week") then
      Some [movie_of 4 []; movie_of 2 []]
    else if existsb (fun p => String.eqb (fst p) "with_genres") (params request) then
      Some [movie_of 1 [28]; movie_of 2 [28; 12]]
    else Some [movie_of 3 []; movie_of 1 []].

(** The ranking expected for [genre_user] and [sample_provider]: movie 2
    (genre 1.2, trending 0.8), movie 1 (genre 0.6, level 1.0), movie 3
    (level 1.0), movie 4 (trending 0.8). *)
Definition ranked_sample : list RecommendationScore :=
  [ entry 2 (decimal 20 1) (decimal 12 1) zero (decimal 8 1);
    entry 1 (decimal 16 1) (decimal 6 1) zero (decimal 10 1);
    entry 3 (decimal 10 1) zero zero (decimal 10 1);
    entry 4 (decimal 8 1) zero zero (decimal 8 1) ].

(** An entry whose score is well formed. *)
Definition scored (e : RecommendationScore) : Prop := nonneg (score e).

(* ================================================================= *)
(** ** Further code: preference storage and the routes *)

(** [storage.updateUserPreferences]: the stored object gets the defaults
    [favoriteMovies || []] and [country || ""]; the row of the user is
    updated and returned, [undefined] when there is none. *)
Definition preferencesWithDefaults (preferences : Schema.UserPreferences)
  : Schema.UserPreferences :=
  {| Schema.genres := Schema.genres preferences;
     Schema.languages := Schema.languages preferences;
     Schema.favoriteMovies :=
       Some (match Schema.favoriteMovies preferences with Some f => f | None => [] end);
     Schema.country :=
       Some (match Schema.country preferences with Some c => c | None => "" end) |}.

Definition with_preferences (stored : Schema.UserPreferences) (u : Schema.User)
  : Schema.User :=
  {| Schema.id := Schema.id u; Schema.preferences := Some stored;
     Schema.level := Schema.level u |}.

Definition set_users (db : Store) (rows : list Schema.User) : Store :=
  {| users := rows;
     watchedMovies := watchedMovies db;
     movieRatings := movieRatings db;
     movieLikes := movieLikes db;
     userMovieRecommendations := userMovieRecommendations db |}.

Definition updateUserPreferences (db : Store) (userId : Z)
    (preferences : Schema.UserPreferences) : Store * option Schema.User :=
  let stored := preferencesWithDefaults preferences in
  (set_users db
     (map (fun u => if Schema.id u =? userId then with_preferences stored u else u)
          (users db)),
   option_map (with_preferences stored) (Storage.getUser db userId)).

(** What a route answers: [res.status(s).json(...)]. *)
Inductive Json : Type :=
| JMessage (message : string)
| JMovieIds (movieIds : list Z)
| JUser (user : Schema.User)
| JPreferences (preferences : option Schema.UserPreferences).

Record Response : Type := {
  status : Z;
  json : Json
}.

(** [PUT /api/preferences] and [GET /api/preferences] for the authenticated
    user; [parsed] as for the onboarding route below. *)
Definition putPreferencesRoute (userId : Z) (parsed : option Schema.UserPreferences)
  : M Response :=
  try_catch
    (match parsed with
     | None => ret {| status := 400; json := JMessage "Invalid preferences data" |}
     | Some data =>
         updatedUser <-
           (fun w =>
              let r := updateUserPreferences (store w) userId data in
              (Ok (snd r), {| store := fst r; requests := requests w |})) ;;
         match updatedUser with
         | None => ret {| status := 404; json := JMessage "User not found" |}
         | Some user => ret {| status := 200; json := JUser user |}
         end
     end)
    (fun error =>
       ret {| status := 500; json := JMessage "Failed to update preferences" |}).

Definition getPreferencesRoute (userId : Z) : M Response :=
  try_catch
    (found <- read_store (fun db => Storage.getUser db userId) ;;
     match found with
     | None => ret {| status := 404; json := JMessage "User not found" |}
     | Some user =>
         ret {| status := 200; json := JPreferences (Schema.preferences user) |}
     end)
    (fun error =>
       ret {| status := 500; json := JMessage "Failed to get preferences" |}).

Section Routes.
Variable apiKey : string.
Variable provider : Provider.

(** [POST /api/recommendations/generate] for the authenticated user. *)
Definition generateRoute (userId : Z) : M Response :=
  try_catch
    (generateRecommendationsForUser apiKey provider userId ;;;
     ret {| status := 200; json := JMessage "Recommendations generated successfully" |})
    (fun error =>
       ret {| status := 500; json := JMessage "Failed to generate recommendations" |}).

(** [POST /api/recommendations/onboarding]; [parsed] is the outcome of
    [updateUserPreferencesSchema.safeParse(req.body)], [None] when the body
    is rejected. *)
Definition onboardingRoute (userId : Z) (parsed : option Schema.UserPreferences)
  : M Response :=
  try_catch
    (match parsed with
     | None => ret {| status := 400; json := JMessage "Invalid preferences data" |}
     | Some data =>
         write_store (fun db => fst (updateUserPreferences db userId data)) ;;;
         movieIds <- getOnboardingRecommendations apiKey provider data ;;
         ret {| status := 200; json := JMovieIds movieIds |}
     end)
    (fun error =>
       ret {| status := 500; json := JMessage "Failed to get onboarding recommendations" |}).

End Routes.

(* ================================================================= *)
(** ** Vocabulary of the further statements *)

(** The requests of the generators and of the onboarding passes. *)
Definition languageRequest (apiKey language : string) : Request :=
  {| url := discoverUrl;
     params := [("api_key", PStr apiKey);
                ("with_original_language", PStr language);
                ("sort_by", PStr "vote_average.desc");
                ("vote_count.gte", PNum (ofZ 100));
                ("page", PNum (ofZ 1))] |}.

Definition countryRequest (apiKey country language : string) : Request :=
  {| url := discoverUrl;
     params := [("api_key", PStr apiKey);
                ("region", PStr country);
                ("sort_by", PStr "popularity.desc");
                ("vote_count.gte", PNum (ofZ 50));
                ("page", PNum (ofZ 1));
                ("with_original_language", PStr language)] |}.

Definition similarRequest (apiKey : string) (movieId : Z) : Request :=
  {| url := (tmdbBaseUrl ++ "/movie/" ++ string_of_Z movieId ++ "/similar")%string;
     params := [("api_key", PStr apiKey);
                ("language", PStr "en-US");
                ("page", PNum (ofZ 1))] |}.

Definition levelRequest (apiKey level : string) : Request :=
  {| url := discoverUrl; params := levelProfile apiKey level |}.

Definition combinedRequest (apiKey : string) (preferences : Schema.UserPreferences)
  : Request :=
  {| url := discoverUrl;
     params := [("api_key", PStr apiKey);
                ("language", PStr "en-US");
                ("with_genres", genreParam_of (Schema.genres preferences));
                ("with_original_language", languageParam_of (Schema.languages preferences));
                ("region", countryParam_of (Schema.country preferences));
                ("sort_by", PStr "popularity.desc");
                ("page", PNum (ofZ 1))] |}.

(** The movies the user has interacted with: watched, rated 7 or more, or
    liked, each once, in that order. *)
Definition interactions (db : Store) (userId : Z) : list Z :=
  new_Set (Storage.getWatchedMovies db userId
           ++ map Schema.rating_movieId
                  (filter (fun rating => 7 <=? Schema.rating rating)
                          (Storage.getUserRatings db userId))
           ++ Storage.getUserLikes db userId).

(** What a loop of guarded calls collects: the requests [reqs] are issued
    one after the other, starting from the log [history]; an answered call
    contributes [f page], a failed one nothing. *)
Fixpoint collected (provider : Provider) (A : Type) (f : list Movie -> list A)
    (history : list Request) (reqs : list Request) : list A :=
  match reqs with
  | [] => []
  | r :: rs =>
      (match provider history r with Some page => f page | None => [] end)
      ++ collected provider f (history ++ [r]) rs
  end.

(** The provider answered some request of the run started in [w] (whose
    new requests are [new]) with a page containing [movie]. *)
Definition answered_with (provider : Provider) (w : World) (new : list Request)
    (movie : Movie) : Prop :=
  exists before request after page,
    new = before ++ request :: after /\
    provider (requests w ++ before) request = Some page /\
    In movie page.

(** The row [saveRecommendation] writes for an entry. *)
Definition row_of (userId : Z) (rec : RecommendationScore) : Schema.UserMovieRecommendation :=
  {| Schema.rec_userId := userId; Schema.rec_movieId := movieId rec;
     Schema.rec_score := score rec;
     Schema.rec_genreMatch := Some (genreMatch rec);
     Schema.rec_languageMatch := Some (languageMatch rec);
     Schema.rec_collaborativeScore := Some (collaborativeScore rec);
     Schema.recommended := true |}.

(** The rows of the other users. *)
Definition rows_of_others (userId : Z) (rows : list Schema.UserMovieRecommendation)
  : list Schema.UserMovieRecommendation :=
  filter (fun row => negb (Schema.rec_userId row =? userId)) rows.

(** At most one stored recommendation per (user, movie). *)
Definition one_row_per_pair (rows : list Schema.UserMovieRecommendation) : Prop :=
  NoDup (map (fun row => (Schema.rec_userId row, Schema.rec_movieId row)) rows).

(** The first stored row of a (user, movie) pair. *)
Definition lookup_row (db : Store) (userId movieId : Z)
  : option Schema.UserMovieRecommendation :=
  find (Storage.same_pair userId movieId) (userMovieRecommendations db).

(** The answer of the provider does not depend on the requests made
    before. *)
Definition history_independent (provider : Provider) : Prop :=
  forall h h' request, provider h request = provider h' request.

(** Two worlds hold the same users and interactions. *)
Definition same_inputs (w w' : World) : Prop :=
  users (store w) = users (store w') /\
  watchedMovies (store w) = watchedMovies (store w') /\
  movieRatings (store w) = movieRatings (store w') /\
  movieLikes (store w) = movieLikes (store w').

(** A computation whose result depends on the users and interactions
    only, and which keeps them. *)
Definition input_determined (A : Type) (m : M A) : Prop :=
  forall w w', same_inputs w w' ->
    fst (m w) = fst (m w') /\ same_inputs (snd (m w)) (snd (m w')) /\
    same_inputs w (snd (m w)).

(** Candidates for three movies, none proposed twice. *)
Definition distinct_entries : list RecommendationScore :=
  [ entry 7 (decimal 9 0) (decimal 6 1) zero zero;
    entry 9 zero zero (decimal 11 1) zero;
    entry 3 zero zero zero (decimal 13 1) ].

Definition genreRequest (apiKey : string) (genres : list Z) : Request :=
  {| url := discoverUrl;
     params := [("api_key", PStr apiKey);
                ("language", PStr "en-US");
                ("with_genres", PStr (join genres));
                ("sort_by", PStr "popularity.desc");
                ("page", PNum (ofZ 1))] |}.

(** The requests each of the first three generators issues for [user]. *)
Definition countryRequests (apiKey : string) (user : Schema.User) : list Request :=
  match country_of user with
  | Some c =>
      if String.eqb c "" then []
      else [countryRequest apiKey c (first_language_or_en user)]
  | None => []
  end.

Definition genreRequests (apiKey : string) (user : Schema.User) : list Request :=
  match genres_of user with
  | [] => []
  | genres => [genreRequest apiKey genres]
  end.

Definition languageRequests (apiKey : string) (user : Schema.User) : list Request :=
  map (languageRequest apiKey) (languages_of user).

Definition similarRequests (apiKey : string) (db : Store) (userId : Z) : list Request :=
  map (similarRequest apiKey) (firstn 3 (interactions db userId)).

(** The requests of the five personalised generators, in the order of the
    run. *)
Definition signalRequests (apiKey : string) (userId : Z) (user : Schema.User)
    (db : Store) : list Request :=
  countryRequests apiKey user
  ++ genreRequests apiKey user
  ++ languageRequests apiKey user
  ++ [levelRequest apiKey (Storage.getUserLevel db userId)]
  ++ similarRequests apiKey db userId.

(** A generator that leaves the database alone, issues exactly the requests
    [reqs], never throws, and returns entries satisfying [Pent], each for a
    movie of a page the provider answered one of these requests with. *)
Definition traced (provider : Provider) (m : M (list RecommendationScore))
    (reqs : Store -> list Request) (Pent : RecommendationScore -> Prop) : Prop :=
  forall w, exists out,
    m w = (Ok out, log_extend w (reqs (store w))) /\
    Forall (fun e =>
              Pent e /\
              exists movie,
                movieId e = id movie /\
                answered_with provider w (reqs (store w)) movie) out.

(** The candidates the five personalised generators return in a run
    started in [w], in the order of the run; each generator sees the
    requests of the ones before it in the log. *)
Definition signals_of (apiKey : string) (provider : Provider) (userId : Z)
    (user : Schema.User) (w : World) : list RecommendationScore :=
  let db := store w in
  let h0 := requests w in
  let h1 := h0 ++ countryRequests apiKey user in
  let h2 := h1 ++ genreRequests apiKey user in
  let h3 := h2 ++ languageRequests apiKey user in
  let h4 := h3 ++ [levelRequest apiKey (Storage.getUserLevel db userId)] in
  collected provider (map (fun movie => candidate movie zero zero (decimal 13 1)))
            h0 (countryRequests apiKey user)
  ++ collected provider (map (genre_candidate (genres_of user)))
               h1 (genreRequests apiKey user)
  ++ collected provider (map (fun movie => candidate movie zero (decimal 11 1) zero))
               h2 (languageRequests apiKey user)
  ++ collected provider (map (fun movie => candidate movie zero zero (decimal 10 1)))
               h3 [levelRequest apiKey (Storage.getUserLevel db userId)]
  ++ collected provider
       (fun results =>
          map (fun movie => candidate movie zero zero (decimal 15 1))
              (filter (fun movie => negb (includes (interactions db userId) (id movie)))
                      results))
       h4 (similarRequests apiKey db userId).

(** The requests of a whole run, and its candidates once the trending
    fallback has run or not. *)
Definition runRequests (apiKey : string) (provider : Provider) (userId : Z)
    (user : Schema.User) (w : World) : list Request :=
  signalRequests apiKey userId user (store w)
  ++ (if (length (signals_of apiKey provider userId user w) <? 20)%nat
      then [trendingRequest apiKey] else []).

Definition candidates_of (apiKey : string) (provider : Provider) (userId : Z)
    (user : Schema.User) (w : World) : list RecommendationScore :=
  let signals := signals_of apiKey provider userId user w in
  if (length signals <? 20)%nat then
    signals
    ++ collected provider (map (fun movie => candidate movie zero zero (decimal 8 1)))
         (requests w ++ signalRequests apiKey userId user (store w))
         [trendingRequest apiKey]
  else signals.

Definition ranked_of (apiKey : string) (provider : Provider) (userId : Z)
    (user : Schema.User) (w : World) : list RecommendationScore :=
  array_sort byScoreDescending
    (mergeAndScoreRecommendations (candidates_of apiKey provider userId user w)).

(** The database after the rows of [sorted] have been saved for [userId],
    one [saveRecommendation] after the other. *)
Definition saved (userId : Z) (sorted : list RecommendationScore) (db : Store) : Store :=
  fold_left
    (fun db rec =>
       Storage.saveRecommendation db userId (movieId rec) (score rec)
         (Some (genreMatch rec)) (Some (languageMatch rec))
         (Some (collaborativeScore rec)))
    sorted db.

(** The stored rows of one user, in table order. *)
Definition rows_of_user (userId : Z) (rows : list Schema.UserMovieRecommendation)
  : list Schema.UserMovieRecommendation :=
  filter (fun row => Schema.rec_userId row =? userId) rows.

(** The provider is down: every call fails. *)
Definition provider_down (provider : Provider) : Prop :=
  forall history request, provider history request = None.

(** A user with two languages and a country, and a database in which the
    user has watched movie 10, rated movie 11 with 8 and movie 12 with 5, and
    liked movies 10 and 13. *)
Definition polyglot : Schema.User :=
  {| Schema.id := 3;
     Schema.preferences :=
       Some {| Schema.genres := Some [];
               Schema.languages := Some ["fr"; "ja"];
               Schema.favoriteMovies := Some [];
               Schema.country := Some "FR" |};
     Schema.level := None |}.

Definition fan_store : Store :=
  {| users := [plain_user; genre_user; polyglot];
     watchedMovies := [(3, 10); (1, 12)];
     movieRatings :=
       [ {| Schema.rating_userId := 3; Schema.rating_movieId := 11; Schema.rating := 8 |};
         {| Schema.rating_userId := 3; Schema.rating_movieId := 12; Schema.rating := 5 |} ];
     movieLikes := [(3, 10); (3, 13)];
     userMovieRecommendations := [stored_row] |}.

Definition fan_world : World := {| store := fan_store; requests := [] |}.

(** A provider that fails on the first request it ever sees and answers the
    later ones, and one that answers with the movies 10 to 13. *)
Definition flaky_provider : Provider :=
  fun history _ => match history with [] => None | _ => Some (page_of 2) end.

Definition similar_provider : Provider :=
  fun _ _ => Some [movie_of 10 []; movie_of 11 []; movie_of 12 []; movie_of 13 []].

(** What a pass of the onboarding recommender does to the list collected
    so far: it appends movies of a page answered to the one request it may
    issue, and keeps the list free of repeated ids when the pages are. *)
Definition pass_outcome (provider : Provider) (allResults : list Movie) (w : World)
    (r : Outcome (list Movie) * World) : Prop :=
  exists extra new,
    r = (Ok (allResults ++ extra), log_extend w new) /\
    (length new <= 1)%nat /\
    (new = [] -> extra = []) /\
    Forall (fun movie => answered_with provider w new movie) extra /\
    (pages_without_repeats provider ->
     NoDup (map id allResults) -> NoDup (map id (allResults ++ extra))).

(** Preferences with a genre, a language and a country. *)
Definition full_preferences : Schema.UserPreferences :=
  {| Schema.genres := Some [28]; Schema.languages := Some ["fr"];
     Schema.favoriteMovies := None; Schema.country := Some "FR" |}.

(** The row a call of [saveRecommendation] with all three signals writes. *)
Definition saved_row (userId movieId : Z) (s g l c : number)
  : Schema.UserMovieRecommendation :=
  {| Schema.rec_userId := userId; Schema.rec_movieId := movieId;
     Schema.rec_score := s;
     Schema.rec_genreMatch := Some g;
     Schema.rec_languageMatch := Some l;
     Schema.rec_collaborativeScore := Some c;
     Schema.recommended := true |}.

(** A table with rows of two users. *)
Definition two_user_rows : list Schema.UserMovieRecommendation :=
  [ stored_row;
    saved_row 2 603 (decimal 8 1) zero zero (decimal 8 1);
    saved_row 1 11 (decimal 13 1) zero zero (decimal 13 1) ].

Definition two_user_store : Store := Storage.set_recommendations sample_store two_user_rows.

(** The stored row [a] does not rank below [b]. *)
Definition row_ranks_before (a b : Schema.UserMovieRecommendation) : Prop :=
  leb (Schema.rec_score b) (Schema.rec_score a) = true.

(** A stored row whose score is a number and the sum of its three stored
    signals, taken in the order the merger adds them. *)
Definition consistent_row (row : Schema.UserMovieRecommendation) : Prop :=
  Schema.recommended row = true /\
  is_nan (Schema.rec_score row) = false /\
  exists g l c,
    Schema.rec_genreMatch row = Some g /\
    Schema.rec_languageMatch row = Some l /\
    Schema.rec_collaborativeScore row = Some c /\
    Schema.rec_score row = add (add g l) c.

(* ================================================================= *)
(** ** Experience points, likes and ratings ([storage.ts]) *)

(** The database with the [experience_points] column of [users], kept
    beside the rows: [experience db u] is the column of the row with id [u],
    [None] when it is null.  The methods below insert rows that refer to the
    user; they are modelled for users that have a row (the foreign key
    rejects the others). *)
Record Db : Type := {
  tables : Store;
  experience : Z -> option Z
}.

Definition with_level (level : string) (u : Schema.User) : Schema.User :=
  {| Schema.id := Schema.id u; Schema.preferences := Schema.preferences u;
     Schema.level := Some level |}.

(** [updateUserExperience]: the updated row and its new experience points,
    [None] for [undefined].  The update is embedded where the database
    accepts it: for a new total within the integer column. *)
Definition updateUserExperience (db : Db) (userId xpPoints : Z)
  : Db * option (Schema.User * Z) :=
  match Storage.getUser (tables db) userId with
  | None => (db, None)
  | Some user =>
      let newXp :=
        (match experience db userId with Some x => x | None => 0 end) + xpPoints in
      let level :=
        match Schema.level user with
        | Some l => if String.eqb l "" then "Beginner" else l
        | None => "Beginner"
        end in
      let level :=
        if 301 <=? newXp then "Connoisseur"
        else if 151 <=? newXp then "Cinephile"
        else if 51 <=? newXp then "Explorer"
        else "Beginner" in
      ({| tables :=
            set_users (tables db)
              (map (fun u => if Schema.id u =? userId then with_level level u else u)
                   (users (tables db)));
          experience := fun u => if u =? userId then Some newXp else experience db u |},
       Some (with_level level user, newXp))
  end.







Definition same_rating (userId movieId : Z) (row : Schema.MovieRating) : bool :=
  (Schema.rating_userId row =? userId) && (Schema.rating_movieId row =? movieId).


(** The [update ... set rating where id = existingRating.id]; where the
    database lists the updated row afterwards is not fixed, and nothing
    below depends on it. *)
Fixpoint update_rating (userId movieId rating : Z) (rows : list Schema.MovieRating)
  : list Schema.MovieRating :=
  match rows with
  | [] => []
  | row :: rows' =>
      if same_rating userId movieId row then
        {| Schema.rating_userId := Schema.rating_userId row;
           Schema.rating_movieId := Schema.rating_movieId row;
           Schema.rating := rating |} :: rows'
      else row :: update_rating userId movieId rating rows'
  end.


(** The experience points of a user, [0] for null, as every reader of the
    column takes them ([user.experiencePoints || 0]). *)
Definition experience_of (db : Db) (userId : Z) : Z :=
  match experience db userId with Some x => x | None => 0 end.



(** The four level names the level generator has a profile for. *)
Definition named_level (level : string) : Prop :=
  level = "Beginner" \/ level = "Explorer" \/ level = "Cinephile" \/ level = "Connoisseur".

(** The sample database with user 3 at 48 experience points. *)
Definition fan_db : Db :=
  {| tables := fan_store;
     experience := fun u => if u =? 3 then Some 48 else None |}.

(* ================================================================= *)
(** ** The progress bar ([UserProgressBar.tsx]) *)

(** [Math.min(a, b)]: NaN if an argument is NaN, [-0] is smaller than
    [+0], otherwise the smaller value. *)
Definition Math_min (a b : number) : number :=
  if is_nan a || is_nan b then S754_nan
  else match a, b with
       | S754_zero false, S754_zero true => b
       | _, _ => if ltb b a then b else a
       end.

(** [type Level], without the fields that only style the component. *)
Record Level : Type := {
  name : string;
  minXP : Z;
  maxXP : option Z
}.

Definition levels : list Level :=
  [ {| name := "Beginner"; minXP := 0; maxXP := Some 50 |};
    {| name := "Explorer"; minXP := 51; maxXP := Some 150 |};
    {| name := "Cinephile"; minXP := 151; maxXP := Some 300 |};
    {| name := "Connoisseur"; minXP := 301; maxXP := None |} ].

(** [levels.find(l => l.name === currentLevelName) || levels[0]]. *)
Definition currentLevel (currentLevelName : string) : Level :=
  match find (fun l => String.eqb (name l) currentLevelName) levels with
  | Some l => l
  | None => {| name := "Beginner"; minXP := 0; maxXP := Some 50 |}
  end.

(** [levels.find(l => l.minXP > currentLevel.minXP) || null]. *)
Definition nextLevel (currentLevel : Level) : option Level :=
  find (fun l => minXP currentLevel <? minXP l) levels.

(** The value given to the bar. *)
Definition progressPercent (experiencePoints : number) (currentLevelName : string)
  : number :=
  let currentLevel := currentLevel currentLevelName in
  let nextLevel := nextLevel currentLevel in
  match nextLevel, maxXP currentLevel with
  | Some _, Some maxXp =>
      if maxXp =? 0 then ofZ 100
      else
        let levelRange := sub (ofZ maxXp) (ofZ (minXP currentLevel)) in
        let userProgress := sub experiencePoints (ofZ (minXP currentLevel)) in
        Math_min (ofZ 100) (max (ofZ 0) (mul (div userProgress levelRange) (ofZ 100)))
  | _, _ => ofZ 100
  end.

(** The experience points [xp] lie in the range the table gives the level. *)
Definition in_range (xp : Z) (l : Level) : Prop :=
  minXP l <= xp /\ match maxXP l with Some m => xp <= m | None => True end.

(** A number that is zero or finite. *)
Definition zero_or_finite (x : number) : Prop :=
  match x with
  | S754_zero _ | S754_finite _ _ _ => True
  | _ => False
  end.

(* ================================================================= *)
(** ** What the integer columns accept *)

(** A value of a PostgreSQL [integer] column. *)
Definition integer_column (z : Z) : Prop := - 2 ^ 31 <= z < 2 ^ 31.

(** Every movie id the provider answers with fits the [movie_id] column. *)
Definition ids_fit_the_column (provider : Provider) : Prop :=
  forall history request page,
    provider history request = Some page ->
    Forall (fun movie => integer_column (id movie)) page.

(** The columns of a stored recommendation that the embedding carries, that
    is, all but the serial [id] and [created_at]. *)
Definition row_columns (row : Schema.UserMovieRecommendation)
  : Z * Z * number * option number * option number * option number * bool :=
  (Schema.rec_userId row, Schema.rec_movieId row, Schema.rec_score row,
   Schema.rec_genreMatch row, Schema.rec_languageMatch row,
   Schema.rec_collaborativeScore row, Schema.recommended row).
(* ================================================================= *)
(** * Properties *)

(** ** Numbers: the order and [Math.max] *)

Module NumFacts.

(** The literals of the engine as binary64 values, and [Math.max] on the
    special values. *)
Example literal_1_2 : decimal 12 1 = S754_finite false 5404319552844595 (-52).
Proof. reflexivity. Qed.

Example literal_0_8 : decimal 8 1 = S754_finite false 7205759403792794 (-53).
Proof. reflexivity. Qed.

Example literal_1_0 : decimal 10 1 = S754_finite false 4503599627370496 (-52).
Proof. reflexivity. Qed.

Example half_of_1_2 : mul (div (ofNat 1) (ofNat 2)) (decimal 12 1) = decimal 6 1.
Proof. reflexivity. Qed.

Example max_of_zeros :
  max (S754_zero true) (S754_zero false) = S754_zero false /\
  max (S754_zero false) (S754_zero true) = S754_zero false.
Proof. split; reflexivity. Qed.

Example max_with_nan : max S754_nan (decimal 10 1) = S754_nan.
Proof. reflexivity. Qed.

Lemma value_not_nan x : is_nan x = false -> exists a, value x = Some a.
Proof. destruct x; simpl; try discriminate; eauto. Qed.

Lemma ereal_compare_refl a : ereal_compare a a = Eq.
Proof. destruct a; simpl; auto using Z.compare_refl. Qed.

Lemma ereal_compare_antisym a b : ereal_compare b a = CompOpp (ereal_compare a b).
Proof. destruct a, b; simpl; auto using Z.compare_antisym. Qed.

Lemma ereal_le_trans a b c :
  ereal_compare a b <> Gt -> ereal_compare b c <> Gt -> ereal_compare a c <> Gt.
Proof.
  destruct a, b, c; simpl; try congruence.
  rewrite !Z.compare_le_iff. lia.
Qed.

Lemma ereal_eq_trans a b c :
  ereal_compare a b = Eq -> ereal_compare b c = Eq -> ereal_compare a c = Eq.
Proof.
  destruct a, b, c; simpl; try congruence.
  rewrite !Z.compare_eq_iff. lia.
Qed.

Lemma leb_value x y a b :
  value x = Some a -> value y = Some b ->
  leb x y = true <-> ereal_compare a b <> Gt.
Proof.
  intros Hx Hy. unfold leb, compare. rewrite Hx, Hy.
  destruct (ereal_compare a b); split; congruence.
Qed.

Lemma leb_refl x : is_nan x = false -> leb x x = true.
Proof.
  intros H. destruct (value_not_nan x H) as [a Ha].
  apply (leb_value x x Ha Ha). rewrite ereal_compare_refl. discriminate.
Qed.

Lemma leb_trans x y z : leb x y = true -> leb y z = true -> leb x z = true.
Proof.
  unfold leb, compare.
  destruct (value x) as [a|], (value y) as [b|], (value z) as [c|]; try discriminate.
  intros H1 H2.
  assert (G : ereal_compare a c <> Gt).
  { apply ereal_le_trans with b.
    - destruct (ereal_compare a b); congruence.
    - destruct (ereal_compare b c); congruence. }
  destruct (ereal_compare a c); congruence.
Qed.

(** [Math.max] of two numbers is one of them and bounds the other. *)
Lemma max_spec a b :
  is_nan a = false -> is_nan b = false ->
  (max a b = b /\ leb a b = true) \/ (max a b = a /\ leb b a = true).
Proof.
  intros Ha Hb. unfold max. rewrite Ha, Hb. simpl.
  destruct (value_not_nan a Ha) as [u Hu], (value_not_nan b Hb) as [v Hv].
  assert (Hcases : (ltb a b = true /\ leb a b = true) \/ (ltb a b = false /\ leb b a = true)).
  { unfold ltb, leb, compare. rewrite Hu, Hv, (ereal_compare_antisym u v).
    destruct (ereal_compare u v); simpl; auto. }
  destruct a as [[|]| | |]; destruct b as [[|]| | |];
    try discriminate;
    try (destruct Hcases as [[-> H]|[-> H]]; [left|right]; split; auto; fail);
    left; split; auto.
Qed.

Lemma max_not_nan a b : is_nan a = false -> is_nan b = false -> is_nan (max a b) = false.
Proof.
  intros Ha Hb. destruct (max_spec a b Ha Hb) as [[-> _]|[-> _]]; auto.
Qed.

Lemma fold_max_greatest l : forall x,
  is_nan x = false -> Forall (fun v => is_nan v = false) l ->
  greatest (fold_left max l x) (x :: l) /\ is_nan (fold_left max l x) = false.
Proof.
  induction l as [|y l IH]; intros x Hx Hl; simpl.
  - split; auto. split; [now left|]. constructor; auto using leb_refl.
  - inversion Hl as [|? ? Hy Hl']; subst.
    destruct (IH (max x y) (max_not_nan x y Hx Hy) Hl') as [[Hin Hall] Hnan].
    split; auto. inversion Hall as [|? ? Hm Hrest]; subst.
    set (m := fold_left max l (max x y)) in *.
    assert (Hxy : leb x m = true /\ leb y m = true).
    { destruct (max_spec x y Hx Hy) as [[E H]|[E H]]; rewrite E in Hm; split; auto;
        eapply leb_trans; eauto. }
    split.
    + destruct Hin as [Hin|Hin]; [|right; right; exact Hin].
      destruct (max_spec x y Hx Hy) as [[E _]|[E _]]; rewrite E in Hin.
      * right; left; exact Hin.
      * left; exact Hin.
    + constructor; [tauto|]. constructor; [tauto|]. exact Hrest.
Qed.

(** Without NaN, [Math.max(...l)] is the greatest element of [l]. *)
Lemma maximum_greatest l m :
  Forall (fun v => is_nan v = false) l -> maximum l = Some m -> greatest m l.
Proof.
  destruct l as [|x l]; simpl; [discriminate|].
  intros H E. injection E as <-. inversion H; subst.
  now apply fold_max_greatest.
Qed.

Lemma maximum_snoc l x :
  maximum (l ++ [x]) = Some (match maximum l with Some m => max m x | None => x end).
Proof.
  destruct l as [|y l]; simpl; auto. now rewrite fold_left_app.
Qed.

End NumFacts.

(* ================================================================= *)
(** ** The merger *)

Lemma map_has_In k m : map_has k m = true <-> In k (map fst m).
Proof.
  induction m as [|[k' v] m IH]; simpl.
  - split; [discriminate|tauto].
  - rewrite orb_true_iff, Z.eqb_eq, IH. tauto.
Qed.

Lemma map_modify_keys k f m : map fst (map_modify k f m) = map fst m.
Proof.
  induction m as [|[k' v] m IH]; simpl; auto.
  destruct (k' =? k); simpl; congruence.
Qed.

(** With distinct keys, [map_modify] changes the entry under [k] and no
    other. *)
Lemma map_modify_In k f m k0 v :
  NoDup (map fst m) ->
  In (k0, v) (map_modify k f m) ->
  (k0 <> k /\ In (k0, v) m) \/ (k0 = k /\ exists v0, In (k, v0) m /\ v = f v0).
Proof.
  induction m as [|[k' v'] m IH]; simpl; [tauto|].
  intros Hnd Hin. inversion Hnd as [|? ? Hnotin Hnd']; subst.
  destruct (Z.eqb_spec k' k) as [->|Hne].
  - destruct Hin as [E|Hin].
    + injection E as <- <-. right. split; eauto.
    + left. split; auto. intros ->. apply Hnotin.
      change k with (fst (k, v)). now apply in_map.
  - destruct Hin as [E|Hin].
    + injection E as <- <-. left. auto.
    + destruct (IH Hnd' Hin) as [[H1 H2]|[H1 [v0 [H2 H3]]]]; [left|right]; eauto.
Qed.

Lemma merge_state_snoc p rec :
  merge_state (p ++ [rec]) = merge_step (merge_state p) rec.
Proof. unfold merge_state. now rewrite fold_left_app. Qed.

Lemma group_snoc k p rec :
  group k (p ++ [rec]) = group k p ++ (if movieId rec =? k then [rec] else []).
Proof. unfold group. rewrite filter_app. simpl. now destruct (movieId rec =? k). Qed.

(** The keys of the map are the movie ids met so far, each once. *)
Lemma merge_state_keys p :
  NoDup (map fst (merge_state p)) /\
  (forall k, In k (map fst (merge_state p)) <-> In k (map movieId p)).
Proof.
  induction p as [|rec p [IHnd IHin]] using rev_ind.
  - simpl. split; [constructor|tauto].
  - rewrite merge_state_snoc. unfold merge_step.
    destruct (map_has (movieId rec) (merge_state p)) eqn:Hhas.
    + rewrite map_modify_keys. split; auto.
      intros k. rewrite map_app, in_app_iff, IHin. simpl.
      apply map_has_In in Hhas. apply IHin in Hhas.
      intuition (subst; auto).
    + unfold map_set_new. rewrite map_app. simpl. split.
      * apply NoDup_app; auto.
        -- repeat constructor. simpl. tauto.
        -- intros k Hk [<-|[]]. apply map_has_In in Hk. congruence.
      * intros k. rewrite !map_app, !in_app_iff, IHin. simpl. tauto.
Qed.

(** What the map holds under each key. *)
Lemma merge_state_entries p : forall k v,
  In (k, v) (merge_state p) ->
  movieId v = k /\
  maximum (map genreMatch (group k p)) = Some (genreMatch v) /\
  maximum (map languageMatch (group k p)) = Some (languageMatch v) /\
  maximum (map collaborativeScore (group k p)) = Some (collaborativeScore v).
Proof.
  induction p as [|rec p IH] using rev_ind; [simpl; tauto|].
  intros k v. rewrite merge_state_snoc, group_snoc, !map_app.
  destruct (merge_state_keys p) as [Hnd Hkeys].
  unfold merge_step. destruct (map_has (movieId rec) (merge_state p)) eqn:Hhas.
  - intros Hin. apply map_modify_In in Hin; auto.
    destruct Hin as [[Hne Hin]|[-> [v0 [Hin ->]]]].
    + apply Z.eqb_neq in Hne. rewrite Z.eqb_sym, Hne. simpl. rewrite !app_nil_r. auto.
    + rewrite Z.eqb_refl. simpl. rewrite !NumFacts.maximum_snoc.
      destruct (IH _ _ Hin) as (H0 & H1 & H2 & H3). rewrite H1, H2, H3. auto.
  - unfold map_set_new. rewrite in_app_iff. simpl. intros [Hin|[E|[]]].
    + destruct (Z.eqb_spec (movieId rec) k) as [<-|_].
      * exfalso. assert (H : map_has (movieId rec) (merge_state p) = true).
        { apply map_has_In. change (movieId rec) with (fst (movieId rec, v)).
          now apply in_map. }
        congruence.
      * simpl. rewrite !app_nil_r. auto.
    + injection E as <- <-. rewrite Z.eqb_refl.
      assert (Hg : group (movieId rec) p = []).
      { unfold group.
        assert (Hnot : ~ In (movieId rec) (map movieId p)).
        { intros H. apply Hkeys in H. apply map_has_In in H. congruence. }
        clear -Hnot. induction p as [|r p IHp]; simpl; auto.
        destruct (Z.eqb_spec (movieId r) (movieId rec)) as [E|_].
        - exfalso. apply Hnot. simpl. auto.
        - apply IHp. intros H. apply Hnot. simpl. auto. }
      rewrite Hg. simpl. auto.
Qed.

Lemma mergeAndScore_In recs e :
  In e (mergeAndScoreRecommendations recs) ->
  exists v, In (movieId e, v) (merge_state recs) /\ e = set_score v.
Proof.
  unfold mergeAndScoreRecommendations, map_values. fold (merge_state recs).
  rewrite map_map. intros Hin. apply in_map_iff in Hin.
  destruct Hin as [[k v] [<- Hin]]. simpl.
  destruct (merge_state_entries recs _ _ Hin) as [-> _]. eauto.
Qed.

Lemma mergeAndScore_ids recs :
  map movieId (mergeAndScoreRecommendations recs) = map fst (merge_state recs).
Proof.
  unfold mergeAndScoreRecommendations, map_values. fold (merge_state recs).
  rewrite !map_map. apply map_ext_in. intros [k v] Hin. simpl.
  now destruct (merge_state_entries recs _ _ Hin) as [-> _].
Qed.

(** C3. The merger never emits two entries with the same movie id: the ids
    of its output are pairwise distinct, whatever the input list. *)
Theorem merged_ids_unique :
  forall recommendations : list RecommendationScore,
    NoDup (map movieId (mergeAndScoreRecommendations recommendations)).
Proof.
  intros recs. rewrite mergeAndScore_ids. apply merge_state_keys.
Qed.

(** C1. Every entry [e] emitted by the merger has, in each of [genreMatch],
    [languageMatch] and [collaborativeScore], the maximum ([Math.max]) of
    that field over the input entries with the movie id of [e], each field
    on its own; when no value of the field is NaN this is the greatest of
    those values for the numeric order (hence one of them, not their sum). *)
Theorem merged_fields_are_group_maxima :
  forall (recommendations : list RecommendationScore) (e : RecommendationScore),
    In e (mergeAndScoreRecommendations recommendations) ->
    let g := group (movieId e) recommendations in
    (maximum (map genreMatch g) = Some (genreMatch e) /\
     maximum (map languageMatch g) = Some (languageMatch e) /\
     maximum (map collaborativeScore g) = Some (collaborativeScore e)) /\
    (Forall (fun v => is_nan v = false) (map genreMatch g) ->
     greatest (genreMatch e) (map genreMatch g)) /\
    (Forall (fun v => is_nan v = false) (map languageMatch g) ->
     greatest (languageMatch e) (map languageMatch g)) /\
    (Forall (fun v => is_nan v = false) (map collaborativeScore g) ->
     greatest (collaborativeScore e) (map collaborativeScore g)).
Proof.
  intros recs e Hin g.
  destruct (mergeAndScore_In recs e Hin) as [v [Hv ->]].
  destruct (merge_state_entries recs _ _ Hv) as (_ & H1 & H2 & H3).
  simpl in *. fold g in H1, H2, H3.
  split; [auto|].
  split; [|split]; intros Hnan; now apply NumFacts.maximum_greatest.
Qed.

Lemma merged_fields_are_group_maxima_witness :
  let e := entry 7 (above_1_7) (decimal 6 1) (decimal 11 1) zero in
  let e' := entry 9 (decimal 6 1) (decimal 6 1) zero zero in
  In e (mergeAndScoreRecommendations sample_entries) /\
  In e' (mergeAndScoreRecommendations sample_entries) /\
  Forall (fun v => is_nan v = false) (map genreMatch (group 7 sample_entries)) /\
  Forall (fun v => is_nan v = false) (map languageMatch (group 7 sample_entries)) /\
  Forall (fun v => is_nan v = false) (map collaborativeScore (group 7 sample_entries)) /\
  greatest (decimal 6 1) (map genreMatch (group 7 sample_entries)) /\
  greatest (decimal 11 1) (map languageMatch (group 7 sample_entries)) /\
  greatest zero (map collaborativeScore (group 7 sample_entries)) /\
  maximum (map genreMatch (group 9 sample_entries)) = Some (decimal 6 1) /\
  decimal 6 1 <> add (decimal 6 1) (decimal 6 1).
Proof.
  intros e e'.
  assert (Hin : In e (mergeAndScoreRecommendations sample_entries)).
  { vm_compute. left. reflexivity. }
  assert (Hin' : In e' (mergeAndScoreRecommendations sample_entries)).
  { vm_compute. right. left. reflexivity. }
  assert (Hg : Forall (fun v => is_nan v = false) (map genreMatch (group 7 sample_entries))).
  { vm_compute. repeat constructor. }
  assert (Hl : Forall (fun v => is_nan v = false)
                 (map languageMatch (group 7 sample_entries))).
  { vm_compute. repeat constructor. }
  assert (Hc : Forall (fun v => is_nan v = false)
                 (map collaborativeScore (group 7 sample_entries))).
  { vm_compute. repeat constructor. }
  do 5 (split; [assumption|]).
  destruct (merged_fields_are_group_maxima sample_entries e Hin)
    as (_ & Hgreat_g & Hgreat_l & Hgreat_c).
  split; [exact (Hgreat_g Hg)|]. split; [exact (Hgreat_l Hl)|].
  split; [exact (Hgreat_c Hc)|].
  destruct (merged_fields_are_group_maxima sample_entries e' Hin') as ((Hmax & _) & _).
  split; [exact Hmax|]. vm_compute. discriminate.
Defined.

(** C2, as amended. Every entry of the merger's output has a [score] equal
    to [(genreMatch + languageMatch) + collaborativeScore] of that entry in
    binary64 arithmetic, whatever [score] the inputs carried; for merged
    [genreMatch = 0.6], [languageMatch = 1.1] and [collaborativeScore = 0]
    this sum is the double [1.7000000000000002]. *)
Theorem merged_score_is_recomputed_sum :
  (forall (recommendations : list RecommendationScore) (e : RecommendationScore),
     In e (mergeAndScoreRecommendations recommendations) ->
     score e = add (add (genreMatch e) (languageMatch e)) (collaborativeScore e)) /\
  add (add (decimal 6 1) (decimal 11 1)) zero = decimal 17000000000000002 16.
Proof.
  split; [|vm_compute; reflexivity].
  intros recs e Hin.
  destruct (mergeAndScore_In recs e Hin) as [v [_ ->]]. reflexivity.
Qed.

Lemma merged_score_is_recomputed_sum_witness :
  let e := entry 9 (decimal 6 1) (decimal 6 1) zero zero in
  In e (mergeAndScoreRecommendations sample_entries) /\
  score e = add (add (genreMatch e) (languageMatch e)) (collaborativeScore e).
Proof.
  intros e.
  assert (Hin : In e (mergeAndScoreRecommendations sample_entries)).
  { vm_compute. right. left. reflexivity. }
  split; [exact Hin|].
  exact (proj1 merged_score_is_recomputed_sum sample_entries e Hin).
Defined.

(** C2, as stated, fails on its own example: the entry merged from
    [genreMatch = 0.6] and [languageMatch = 1.1] has a [score] strictly
    above the number [1.7]. *)
Lemma merged_score_example_is_not_1_7 :
  exists e,
    mergeAndScoreRecommendations
      [entry 7 zero (decimal 6 1) zero zero; entry 7 zero zero (decimal 11 1) zero] = [e] /\
    genreMatch e = decimal 6 1 /\
    languageMatch e = decimal 11 1 /\
    collaborativeScore e = zero /\
    score e = above_1_7 /\
    Num.compare (score e) (decimal 17 1) = Some Gt /\
    score e <> decimal 17 1.
Proof.
  eexists. split; [vm_compute; reflexivity|].
  vm_compute. repeat split; try reflexivity. discriminate.
Qed.

(* ================================================================= *)
(** ** Computations: the request log and the signal generators *)

Lemma log_extend_nil w : log_extend w [] = w.
Proof. destruct w. unfold log_extend. simpl. now rewrite app_nil_r. Qed.

Lemma log_extend_app w a b : log_extend (log_extend w a) b = log_extend w (a ++ b).
Proof. unfold log_extend. simpl. now rewrite app_assoc. Qed.

Lemma issued_log_extend w new : issued w (log_extend w new) = new.
Proof.
  unfold issued, log_extend. simpl.
  rewrite skipn_app, skipn_all, Nat.sub_diag. reflexivity.
Qed.

(** A single guarded call: [try { results = await axios.get(...); return
    f(results) } catch { return [] }]. *)
Lemma guarded_call provider A (f : list Movie -> list A) u ps w :
  try_catch (results <- axios_get provider u ps ;; ret (f results)) (fun _ => ret []) w
  = (Ok (match provider (requests w) {| url := u; params := ps |} with
         | Some results => f results
         | None => []
         end),
     log_extend w [{| url := u; params := ps |}]).
Proof.
  unfold try_catch, bind, axios_get, ret, log_extend.
  destruct (provider (requests w) _); reflexivity.
Qed.

Lemma generator_spec_weaken m (P P' : Request -> Prop) (Q Q' : RecommendationScore -> Prop) :
  (forall r, P r -> P' r) -> (forall e, Q e -> Q' e) ->
  generator_spec m P Q -> generator_spec m P' Q'.
Proof.
  intros HP HQ H w. destruct (H w) as (out & new & E & H1 & H2).
  exists out, new. repeat split; auto; eapply Forall_impl; eauto.
Qed.

Lemma generator_spec_ret_nil P Q : generator_spec (ret []) P Q.
Proof. intros w. exists [], []. rewrite log_extend_nil. repeat split; constructor. Qed.

(** A loop whose body appends well-formed entries, whatever happens. *)
Lemma for_of_generator A (P : Request -> Prop) (Q : RecommendationScore -> Prop)
    (body : A -> list RecommendationScore -> M (list RecommendationScore)) :
  (forall x acc w, exists out new,
      body x acc w = (Ok (acc ++ out), log_extend w new) /\ Forall P new /\ Forall Q out) ->
  forall l acc w, exists out new,
      for_of l body acc w = (Ok (acc ++ out), log_extend w new) /\ Forall P new /\ Forall Q out.
Proof.
  intros Hbody. induction l as [|x l IH]; intros acc w; simpl.
  - exists [], []. rewrite log_extend_nil, app_nil_r. repeat split; constructor.
  - unfold bind. destruct (Hbody x acc w) as (o1 & n1 & -> & Hp1 & Hq1).
    destruct (IH (acc ++ o1) (log_extend w n1)) as (o2 & n2 & -> & Hp2 & Hq2).
    exists (o1 ++ o2), (n1 ++ n2). rewrite log_extend_app, app_assoc.
    repeat split; auto; apply Forall_app; auto.
Qed.

Lemma Forall_map_intro A B (f : A -> B) (Q : B -> Prop) l :
  (forall x, Q (f x)) -> Forall Q (map f l).
Proof. intros H. induction l; simpl; constructor; auto. Qed.

Section Generators.
Variable apiKey : string.
Variable provider : Provider.

Lemma country_generator user :
  generator_spec (getCountryBasedRecommendations apiKey provider user)
    signal_request (signal_entry zero zero (decimal 13 1)).
Proof.
  unfold getCountryBasedRecommendations.
  destruct (negb (truthy (country_of user))); [apply generator_spec_ret_nil|].
  intros w. rewrite guarded_call. do 2 eexists. split; [reflexivity|]. split.
  - repeat constructor.
  - destruct (provider _ _); [|constructor].
    apply Forall_map_intro. intros movie. now exists movie.
Qed.

Lemma genre_generator user :
  generator_spec (getGenreBasedRecommendations apiKey provider user)
    signal_request
    (fun r => exists movie, genres_of user <> [] /\ r = genre_candidate (genres_of user) movie).
Proof.
  unfold getGenreBasedRecommendations.
  destruct (genres_of user) as [|g gs] eqn:E; [apply generator_spec_ret_nil|].
  cbv zeta. change (length (g :: gs) =? 0)%nat with false. cbv iota.
  intros w. rewrite guarded_call. do 2 eexists. split; [reflexivity|]. split.
  - repeat constructor.
  - destruct (provider _ _); [|constructor].
    apply Forall_map_intro. intros movie. exists movie. split; [discriminate|reflexivity].
Qed.

Lemma language_generator user :
  generator_spec (getLanguageBasedRecommendations apiKey provider user)
    signal_request (signal_entry zero (decimal 11 1) zero).
Proof.
  unfold getLanguageBasedRecommendations.
  destruct (length (languages_of user) =? 0)%nat; [apply generator_spec_ret_nil|].
  intros w.
  match goal with |- context [for_of ?l ?b []] =>
    assert (Hbody : forall x acc w0, exists out new,
      b x acc w0 = (Ok (acc ++ out), log_extend w0 new) /\
      Forall signal_request new /\ Forall (signal_entry zero (decimal 11 1) zero) out);
    [|destruct (@for_of_generator _ _ _ b Hbody l [] w) as (out & new & E & H1 & H2)]
  end.
  - intros language acc w0. unfold try_catch, bind, axios_get, ret.
    destruct (provider _ _) as [results|].
    + exists (map (fun movie => candidate movie zero (decimal 11 1) zero) results).
      eexists. split; [reflexivity|]. split; [repeat constructor|].
      apply Forall_map_intro. intros movie. now exists movie.
    + exists []. eexists. rewrite app_nil_r. split; [reflexivity|].
      split; repeat constructor.
  - exists out, new. auto.
Qed.

Lemma level_generator level :
  generator_spec (getLevelBasedRecommendations apiKey provider level)
    signal_request (signal_entry zero zero (decimal 10 1)).
Proof.
  unfold getLevelBasedRecommendations. intros w.
  repeat match goal with |- context [if ?c then _ else _] => destruct c end;
    rewrite guarded_call; (do 2 eexists; split; [reflexivity|]; split;
      [repeat constructor
      |destruct (provider _ _); [|constructor];
       apply Forall_map_intro; intros movie; now exists movie]).
Qed.

Lemma collaborative_generator userId :
  generator_spec (getCollaborativeRecommendations apiKey provider userId)
    signal_request (signal_entry zero zero (decimal 15 1)).
Proof.
  unfold getCollaborativeRecommendations. intros w.
  unfold try_catch at 1. unfold bind at 1 2 3. unfold read_store. cbv zeta.
  set (inter := new_Set _).
  destruct (length inter =? 0)%nat.
  { exists [], []. rewrite log_extend_nil. repeat split; constructor. }
  match goal with |- context [for_of ?l ?b []] =>
    assert (Hbody : forall x acc w0, exists out new,
      b x acc w0 = (Ok (acc ++ out), log_extend w0 new) /\
      Forall signal_request new /\ Forall (signal_entry zero zero (decimal 15 1)) out);
    [|destruct (@for_of_generator _ _ _ b Hbody l [] w) as (out & new & E & H1 & H2)]
  end.
  - intros k acc w0. unfold try_catch, bind, axios_get, ret.
    destruct (provider _ _) as [results|].
    + eexists. eexists. split; [reflexivity|]. split.
      * constructor; [|constructor]. right. now exists k.
      * apply Forall_map_intro. intros movie. now exists movie.
    + exists []. eexists. rewrite app_nil_r. split; [reflexivity|].
      split; [|constructor]. constructor; [|constructor]. right. now exists k.
  - rewrite E. exists out, new. auto.
Qed.

Lemma trending_generator :
  generator_spec (getTrendingRecommendations apiKey provider)
    (fun r => r = trendingRequest apiKey) (signal_entry zero zero (decimal 8 1)).
Proof.
  unfold getTrendingRecommendations. intros w.
  rewrite guarded_call. do 2 eexists. split; [reflexivity|]. split.
  - repeat constructor.
  - destruct (provider _ _); [|constructor].
    apply Forall_map_intro. intros movie. now exists movie.
Qed.

End Generators.

(* ================================================================= *)
(** ** The orchestrator *)

Lemma signal_request_not_trending apiKey r :
  signal_request r -> r <> trendingRequest apiKey.
Proof.
  intros [H|[k H]] ->; unfold trendingRequest, tmdbBaseUrl in H; simpl in H; discriminate.
Qed.

Section Orchestrator.
Variable apiKey : string.
Variable provider : Provider.

Lemma collectSignals_spec userId user :
  generator_spec (collectSignals apiKey provider userId user)
    signal_request (personal_entry user).
Proof.
  intros w. unfold collectSignals, bind, read_store.
  destruct (country_generator apiKey provider user w) as (o1 & n1 & -> & P1 & Q1).
  destruct (genre_generator apiKey provider user (log_extend w n1)) as (o2 & n2 & -> & P2 & Q2).
  destruct (language_generator apiKey provider user (log_extend (log_extend w n1) n2))
    as (o3 & n3 & -> & P3 & Q3).
  match goal with |- context [getLevelBasedRecommendations _ _ ?lv ?w0] =>
    destruct (level_generator apiKey provider lv w0) as (o4 & n4 & -> & P4 & Q4) end.
  match goal with |- context [getCollaborativeRecommendations _ _ _ ?w0] =>
    destruct (collaborative_generator apiKey provider userId w0) as (o5 & n5 & -> & P5 & Q5) end.
  unfold ret. rewrite !log_extend_app.
  eexists. eexists. split; [reflexivity|]. split.
  - repeat (apply Forall_app; split); auto.
  - repeat (apply Forall_app; split); try constructor;
      (eapply Forall_impl; [|eassumption]); intros e He; unfold personal_entry; tauto.
Qed.

(** The fallback runs exactly below 20 candidates, and then issues the
    trending request and nothing else. *)
Lemma withTrendingFallback_spec recommendations w :
  exists extra new,
    withTrendingFallback apiKey provider recommendations w
      = (Ok (recommendations ++ extra), log_extend w new) /\
    Forall (signal_entry zero zero (decimal 8 1)) extra /\
    (((length recommendations < 20)%nat /\ new = [trendingRequest apiKey]) \/
     ((20 <= length recommendations)%nat /\ new = [] /\ extra = [])).
Proof.
  unfold withTrendingFallback.
  destruct (Nat.ltb_spec (length recommendations) 20) as [Hlt|Hge].
  - unfold bind, getTrendingRecommendations. rewrite guarded_call.
    eexists. eexists. split; [reflexivity|]. split.
    + destruct (provider _ _); [|constructor].
      apply Forall_map_intro. intros movie. now exists movie.
    + left. split; auto.
  - exists [], []. rewrite log_extend_nil, app_nil_r. unfold ret.
    split; [reflexivity|]. split; [constructor|]. right. auto.
Qed.

Lemma saveAll_requests userId l : forall w,
  exists db, saveAll userId l w = (Ok tt, {| store := db; requests := requests w |}).
Proof.
  unfold saveAll. induction l as [|rec l IH]; intros w; simpl.
  - exists (store w). destruct w. reflexivity.
  - unfold bind at 1. unfold write_store at 1.
    match goal with |- context [for_of l ?b tt ?w0] =>
      destruct (IH w0) as [db E] end.
    rewrite E. exists db. reflexivity.
Qed.

(** The shape of a generation run for a stored user. *)
Lemma rankedRecommendations_spec userId user w :
  exists signals n1 extra n2,
    collectSignals apiKey provider userId user (cleared w userId)
      = (Ok signals, log_extend (cleared w userId) n1) /\
    withTrendingFallback apiKey provider signals (log_extend (cleared w userId) n1)
      = (Ok (signals ++ extra), log_extend (cleared w userId) (n1 ++ n2)) /\
    Forall signal_request n1 /\
    Forall (personal_entry user) signals /\
    Forall (signal_entry zero zero (decimal 8 1)) extra /\
    (((length signals < 20)%nat /\ n2 = [trendingRequest apiKey]) \/
     ((20 <= length signals)%nat /\ n2 = [] /\ extra = [])) /\
    rankedRecommendations apiKey provider userId user w
      = (Ok (array_sort byScoreDescending (mergeAndScoreRecommendations (signals ++ extra))),
         log_extend (cleared w userId) (n1 ++ n2)).
Proof.
  unfold rankedRecommendations. unfold bind at 1. unfold write_store.
  fold (cleared w userId). unfold bind.
  destruct (collectSignals_spec userId user (cleared w userId)) as (signals & n1 & E1 & P1 & Q1).
  rewrite E1.
  destruct (withTrendingFallback_spec signals (log_extend (cleared w userId) n1))
    as (extra & n2 & E2 & Q2 & Hcase).
  rewrite E2. unfold ret. rewrite log_extend_app in *.
  exists signals, n1, extra, n2. repeat split; auto.
Qed.

Lemma generate_spec userId user w :
  Storage.getUser (store w) userId = Some user ->
  exists signals n1 extra n2 db,
    collectSignals apiKey provider userId user (cleared w userId)
      = (Ok signals, log_extend (cleared w userId) n1) /\
    Forall signal_request n1 /\
    Forall (personal_entry user) signals /\
    Forall (signal_entry zero zero (decimal 8 1)) extra /\
    (((length signals < 20)%nat /\ n2 = [trendingRequest apiKey]) \/
     ((20 <= length signals)%nat /\ n2 = [] /\ extra = [])) /\
    generateRecommendationsForUser apiKey provider userId w
      = (Ok (map movieId
               (array_sort byScoreDescending
                  (mergeAndScoreRecommendations (signals ++ extra)))),
         {| store := db; requests := requests w ++ n1 ++ n2 |}).
Proof.
  intros Hu. unfold generateRecommendationsForUser.
  unfold bind at 1. unfold read_store. rewrite Hu. unfold bind.
  destruct (rankedRecommendations_spec userId user w)
    as (signals & n1 & extra & n2 & E1 & _ & P1 & Q1 & Q2 & Hcase & E).
  rewrite E.
  match goal with |- context [saveAll userId ?l ?w0] =>
    destruct (saveAll_requests userId l w0) as [db Es] end.
  rewrite Es. unfold ret.
  exists signals, n1, extra, n2, db. repeat split; auto.
Qed.

End Orchestrator.

Lemma issued_append w db new :
  issued w {| store := db; requests := requests w ++ new |} = new.
Proof.
  unfold issued. simpl. rewrite skipn_app, skipn_all, Nat.sub_diag. reflexivity.
Qed.

(** C5. For a user id with no stored user, [generateRecommendationsForUser]
    throws the error "User not found" to its caller and leaves the world as
    it found it: no stored recommendation is cleared or written (and no
    request is issued). *)
Theorem missing_user_is_not_found :
  forall (apiKey : string) (provider : Provider) (userId : Z) (w : World),
    Storage.getUser (store w) userId = None ->
    generateRecommendationsForUser apiKey provider userId w = (Throw UserNotFound, w).
Proof.
  intros apiKey provider userId w H.
  unfold generateRecommendationsForUser, bind, read_store. rewrite H. reflexivity.
Qed.

Lemma missing_user_is_not_found_witness :
  Storage.getUser (store sample_world) 99 = None /\
  generateRecommendationsForUser "key" (constant_provider 3) 99 sample_world
    = (Throw UserNotFound, sample_world) /\
  userMovieRecommendations (store sample_world) = [stored_row].
Proof.
  split; [reflexivity|]. split; [|reflexivity].
  apply missing_user_is_not_found. reflexivity.
Defined.

(** C6. In a generation run for a stored user, the trending request is
    issued if and only if the five personalised generators produced fewer
    than 20 candidates in total; and the trending generator always returns,
    every entry it emits having [collaborativeScore = 0.8] and [genreMatch],
    [languageMatch] (and [score]) zero. *)
Theorem trending_fallback_iff_below_20 :
  (forall (apiKey : string) (provider : Provider) (userId : Z)
          (user : Schema.User) (w : World),
     Storage.getUser (store w) userId = Some user ->
     exists signals w1 ids w2,
       collectSignals apiKey provider userId user (cleared w userId) = (Ok signals, w1) /\
       generateRecommendationsForUser apiKey provider userId w = (Ok ids, w2) /\
       (In (trendingRequest apiKey) (issued w w2) <-> (length signals < 20)%nat)) /\
  (forall (apiKey : string) (provider : Provider) (w : World),
     exists out,
       getTrendingRecommendations apiKey provider w
         = (Ok out, log_extend w [trendingRequest apiKey]) /\
       Forall (fun r => collaborativeScore r = decimal 8 1 /\
                        genreMatch r = zero /\ languageMatch r = zero /\
                        score r = zero) out).
Proof.
  split.
  - intros apiKey provider userId user w Hu.
    destruct (generate_spec apiKey provider userId w Hu)
      as (signals & n1 & extra & n2 & db & E1 & P1 & _ & _ & Hcase & E).
    do 4 eexists. split; [exact E1|]. split; [exact E|].
    rewrite issued_append, in_app_iff. split.
    + intros [Hin|Hin].
      * exfalso. rewrite Forall_forall in P1.
        exact (@signal_request_not_trending apiKey _ (P1 _ Hin) eq_refl).
      * destruct Hcase as [[Hlt _]|[_ [-> _]]]; [exact Hlt|destruct Hin].
    + intros Hlt. destruct Hcase as [[_ ->]|[Hge _]]; [right; now left|lia].
  - intros apiKey provider w.
    destruct (trending_generator apiKey provider w) as (out & new & E & _ & Q).
    unfold getTrendingRecommendations in *. rewrite guarded_call in *.
    eexists. split; [reflexivity|].
    injection E as <- _. eapply Forall_impl; [|exact Q].
    intros r [movie ->]. simpl. auto.
Qed.

Lemma trending_fallback_iff_below_20_witness :
  Storage.getUser (store sample_world) 1 = Some plain_user /\
  (exists signals w1,
     collectSignals "key" (constant_provider 12) 1 plain_user (cleared sample_world 1)
       = (Ok signals, w1) /\
     length signals = 12%nat /\
     In (trendingRequest "key")
        (issued sample_world
           (snd (generateRecommendationsForUser "key" (constant_provider 12) 1
                   sample_world)))) /\
  (exists signals w1,
     collectSignals "key" (constant_provider 25) 1 plain_user (cleared sample_world 1)
       = (Ok signals, w1) /\
     length signals = 25%nat /\
     ~ In (trendingRequest "key")
          (issued sample_world
             (snd (generateRecommendationsForUser "key" (constant_provider 25) 1
                     sample_world)))).
Proof.
  assert (Hu : Storage.getUser (store sample_world) 1 = Some plain_user) by reflexivity.
  split; [exact Hu|]. split.
  - destruct (proj1 trending_fallback_iff_below_20 "key" (constant_provider 12) 1
                plain_user sample_world Hu) as (signals & w1 & ids & w2 & E1 & E2 & Hiff).
    exists signals, w1. split; [exact E1|].
    assert (Hlen : length signals = 12%nat).
    { vm_compute in E1. injection E1 as <- _. reflexivity. }
    split; [exact Hlen|]. rewrite E2. simpl. apply Hiff. rewrite Hlen. lia.
  - destruct (proj1 trending_fallback_iff_below_20 "key" (constant_provider 25) 1
                plain_user sample_world Hu) as (signals & w1 & ids & w2 & E1 & E2 & Hiff).
    exists signals, w1. split; [exact E1|].
    assert (Hlen : length signals = 25%nat).
    { vm_compute in E1. injection E1 as <- _. reflexivity. }
    split; [exact Hlen|]. rewrite E2. simpl. intros Hin. apply Hiff in Hin.
    rewrite Hlen in Hin. lia.
Defined.

(** C7, as amended. The level generator issues one [/discover/movie]
    request whose parameters are one of five fixed profiles: one for each
    of the level names Beginner, Explorer, Cinephile and Connoisseur, and a
    fifth one, different from the four others (and so from Beginner's), for
    every other level name; it always returns, and every entry it emits has
    [collaborativeScore = 1.0] with [genreMatch], [languageMatch] (and
    [score]) zero, whatever the profile. *)
Theorem level_generator_profiles :
  (forall (apiKey : string) (provider : Provider) (level : string) (w : World),
     exists out,
       getLevelBasedRecommendations apiKey provider level w
         = (Ok out,
            log_extend w [{| url := discoverUrl; params := levelProfile apiKey level |}]) /\
       Forall (fun r => collaborativeScore r = decimal 10 1 /\
                        genreMatch r = zero /\ languageMatch r = zero /\
                        score r = zero) out) /\
  (forall apiKey : string,
     levelProfile apiKey "Beginner" = beginnerParams apiKey /\
     levelProfile apiKey "Explorer" = explorerParams apiKey /\
     levelProfile apiKey "Cinephile" = cinephileParams apiKey /\
     levelProfile apiKey "Connoisseur" = connoisseurParams apiKey /\
     (forall level : string,
        level <> "Beginner" -> level <> "Explorer" ->
        level <> "Cinephile" -> level <> "Connoisseur" ->
        levelProfile apiKey level = defaultParams apiKey) /\
     NoDup [beginnerParams apiKey; explorerParams apiKey; cinephileParams apiKey;
            connoisseurParams apiKey; defaultParams apiKey]).
Proof.
  split.
  - intros apiKey provider level w.
    assert (E : getLevelBasedRecommendations apiKey provider level w
                = try_catch
                    (results <- axios_get provider discoverUrl (levelProfile apiKey level) ;;
                     ret (map (fun movie => candidate movie zero zero (decimal 10 1)) results))
                    (fun _ => ret []) w).
    { unfold getLevelBasedRecommendations, levelProfile, discoverUrl.
      repeat match goal with |- context [if ?c then _ else _] => destruct c end;
        reflexivity. }
    rewrite E, guarded_call. eexists. split; [reflexivity|].
    destruct (provider _ _); [|constructor].
    apply Forall_map_intro. intros movie. simpl. auto.
  - intros apiKey. do 4 (split; [reflexivity|]). split.
    + intros level H1 H2 H3 H4. unfold levelProfile.
      apply String.eqb_neq in H1, H2, H3, H4. now rewrite H1, H2, H3, H4.
    + unfold beginnerParams, explorerParams, cinephileParams, connoisseurParams,
        defaultParams.
      repeat (constructor; [simpl; intuition discriminate|]). constructor.
Qed.

Lemma level_generator_profiles_witness :
  "Master" <> "Beginner" /\ "Master" <> "Explorer" /\
  "Master" <> "Cinephile" /\ "Master" <> "Connoisseur" /\
  levelProfile "key" "Master" = defaultParams "key".
Proof.
  assert (H1 : "Master" <> "Beginner") by discriminate.
  assert (H2 : "Master" <> "Explorer") by discriminate.
  assert (H3 : "Master" <> "Cinephile") by discriminate.
  assert (H4 : "Master" <> "Connoisseur") by discriminate.
  do 4 (split; [assumption|]).
  destruct (proj2 level_generator_profiles "key") as (_ & _ & _ & _ & H & _).
  exact (H "Master" H1 H2 H3 H4).
Defined.

(** C7, as stated, fails: for the unrecognized level name "Master" the
    generator issues a request other than the one it issues for Beginner
    (sorted by rating instead of popularity, and without the minimum
    rating). *)
Lemma unrecognized_level_is_not_beginner :
  issued sample_world
    (snd (getLevelBasedRecommendations "key" (constant_provider 3) "Master" sample_world))
  <>
  issued sample_world
    (snd (getLevelBasedRecommendations "key" (constant_provider 3) "Beginner" sample_world)).
Proof. vm_compute. discriminate. Qed.

Lemma includes_In l x : includes l x = true <-> In x l.
Proof.
  unfold includes. rewrite existsb_exists. split.
  - intros [y [Hin E]]. apply Z.eqb_eq in E. now subst.
  - intros Hin. exists x. split; auto. apply Z.eqb_refl.
Qed.

(** Two duplicate-free lists meet in as many entries seen from either. *)
Lemma common_entries_count l1 l2 :
  NoDup l1 -> NoDup l2 ->
  length (filter (includes l1) l2) = length (filter (includes l2) l1).
Proof.
  intros H1 H2. apply Permutation_length. apply NoDup_Permutation.
  - now apply NoDup_filter.
  - now apply NoDup_filter.
  - intros x. rewrite !filter_In, !includes_In. tauto.
Qed.

(** C8. Without a preferred genre the genre generator returns the empty
    list and issues no request; otherwise it issues one [/discover/movie]
    request and emits, for every movie of the answer (none if the call
    fails), an entry whose other fields are zero and whose [genreMatch] is
    the number of the user's preferred genres present on the movie over the
    number of the user's preferred genres, times 1.2, the preferred genres
    and the genres of a movie being sets (no id listed twice); for preferred
    genres [28, 12] and a movie tagged [28, 16] the value is [0.6]. *)
Theorem genre_generator_formula :
  (forall (apiKey : string) (provider : Provider) (user : Schema.User) (w : World),
     genres_of user = [] ->
     getGenreBasedRecommendations apiKey provider user w = (Ok [], w)) /\
  (forall (apiKey : string) (provider : Provider) (user : Schema.User) (w : World),
     genres_of user <> [] ->
     exists request,
       url request = discoverUrl /\
       getGenreBasedRecommendations apiKey provider user w
         = (Ok (match provider (requests w) request with
                | Some results => map (genre_candidate (genres_of user)) results
                | None => []
                end),
            log_extend w [request])) /\
  (forall (genres : list Z) (movie : Movie),
     let r := genre_candidate genres movie in
     movieId r = id movie /\ score r = zero /\
     languageMatch r = zero /\ collaborativeScore r = zero) /\
  (forall (genres : list Z) (movie : Movie),
     NoDup genres -> NoDup (genre_ids movie) ->
     genreMatch (genre_candidate genres movie) = spec_genreMatch genres movie) /\
  genreMatch (genre_candidate [28; 12] (movie_of 1 [28; 16])) = decimal 6 1.
Proof.
  split; [|split; [|split; [|split]]].
  - intros apiKey provider user w H. unfold getGenreBasedRecommendations.
    rewrite H. reflexivity.
  - intros apiKey provider user w H. unfold getGenreBasedRecommendations.
    destruct (genres_of user) as [|g gs]; [congruence|].
    cbv zeta. change (length (g :: gs) =? 0)%nat with false. cbv iota.
    rewrite guarded_call. eexists. split; [|reflexivity]. reflexivity.
  - intros genres movie. simpl. auto.
  - intros genres movie H1 H2. unfold genre_candidate, spec_genreMatch, preferred_present.
    simpl. unfold ofNat. do 4 f_equal. exact (common_entries_count H1 H2).
  - vm_compute. reflexivity.
Qed.

Lemma genre_generator_formula_witness :
  genres_of plain_user = [] /\
  getGenreBasedRecommendations "key" (constant_provider 2) plain_user sample_world
    = (Ok [], sample_world) /\
  NoDup [28; 12] /\ NoDup (genre_ids (movie_of 1 [28; 16])) /\
  genres_of genre_user <> [] /\
  genreMatch (genre_candidate [28; 12] (movie_of 1 [28; 16]))
    = spec_genreMatch [28; 12] (movie_of 1 [28; 16]) /\
  spec_genreMatch [28; 12] (movie_of 1 [28; 16]) = decimal 6 1 /\
  (exists request,
     getGenreBasedRecommendations "key" (constant_provider 2) genre_user sample_world
       = (Ok (map (genre_candidate [28; 12]) (page_of 2)), log_extend sample_world [request])).
Proof.
  assert (H0 : genres_of plain_user = []) by reflexivity.
  assert (H1 : NoDup [28; 12]).
  { repeat constructor; simpl; intuition discriminate. }
  assert (H2 : NoDup (genre_ids (movie_of 1 [28; 16]))).
  { repeat constructor; simpl; intuition discriminate. }
  assert (H3 : genres_of genre_user <> []) by discriminate.
  destruct genre_generator_formula as (Hnone & Hcall & _ & Hfrac & Hex).
  split; [exact H0|].
  split; [exact (Hnone "key" (constant_provider 2) plain_user sample_world H0)|].
  split; [exact H1|]. split; [exact H2|]. split; [exact H3|].
  split; [exact (Hfrac [28; 12] (movie_of 1 [28; 16]) H1 H2)|].
  split; [rewrite <- (Hfrac [28; 12] (movie_of 1 [28; 16]) H1 H2); exact Hex|].
  destruct (Hcall "key" (constant_provider 2) genre_user sample_world H3) as (request & _ & E).
  exists request. exact E.
Defined.

Lemma not_yet_present_nil results : not_yet_present [] results = results.
Proof.
  unfold not_yet_present. simpl. induction results as [|m l IH]; simpl; congruence.
Qed.

Lemma NoDup_firstn A n (l : list A) : NoDup l -> NoDup (firstn n l).
Proof.
  intros H. rewrite <- (firstn_skipn n l) in H. now apply NoDup_app_remove_r in H.
Qed.

Lemma first_ids_NoDup n (page : list Movie) :
  NoDup (map id page) -> NoDup (map id (firstn n page)).
Proof. intros H. rewrite <- firstn_map. now apply NoDup_firstn. Qed.

Lemma first_ids_length (page : list Movie) : (length (map id (firstn 20 page)) <= 20)%nat.
Proof. rewrite length_map. apply firstn_le_length. Qed.

Lemma popularFallback_run apiKey provider allResults w :
  popularFallback apiKey provider allResults w =
  if (length allResults =? 0)%nat then
    match provider (requests w) (popularRequest apiKey) with
    | Some results =>
        (Ok (allResults ++ results), log_extend w [popularRequest apiKey])
    | None => (Throw RequestFailed, log_extend w [popularRequest apiKey])
    end
  else (Ok allResults, w).
Proof.
  unfold popularFallback, bind, axios_get, ret, log_extend.
  destruct (length allResults =? 0)%nat; [|reflexivity].
  destruct (provider _ _); reflexivity.
Qed.

Section GenresOnly.
Variable apiKey : string.
Variable provider : Provider.
Variable preferences : Schema.UserPreferences.
Hypothesis Hg : has_length (Schema.genres preferences) = true.
Hypothesis Hl : has_length (Schema.languages preferences) = false.
Hypothesis Hc : truthy (Schema.country preferences) = false.

Lemma combinedPass_skipped w : combinedPass apiKey provider preferences [] w = (Ok [], w).
Proof. unfold combinedPass. rewrite Hg, Hl. reflexivity. Qed.

Lemma countryPass_skipped w : countryPass apiKey provider preferences [] w = (Ok [], w).
Proof. unfold countryPass. rewrite Hc. reflexivity. Qed.

Lemma genreLanguagePass_runs w :
  genreLanguagePass apiKey provider preferences [] w
  = (Ok (match provider (requests w) (genreOnlyRequest apiKey (Schema.genres preferences)) with
         | Some page => page
         | None => []
         end),
     log_extend w [genreOnlyRequest apiKey (Schema.genres preferences)]).
Proof.
  unfold genreLanguagePass. rewrite Hg.
  change (length (@nil Movie) <? 15)%nat with true. cbv beta iota zeta delta [orb andb].
  assert (Hlp : languageParam_of (Schema.languages preferences) = PUndefined).
  { destruct (Schema.languages preferences) as [[|]|]; simpl in *; congruence. }
  rewrite Hlp, guarded_call. unfold genreOnlyRequest, discoverUrl.
  destruct (provider _ _); [rewrite not_yet_present_nil|]; reflexivity.
Qed.

Lemma onboarding_genres_only_run w :
  let first := genreOnlyRequest apiKey (Schema.genres preferences) in
  let w1 := log_extend w [first] in
  let w2 := log_extend w [first; popularRequest apiKey] in
  getOnboardingRecommendations apiKey provider preferences w =
  match provider (requests w) first with
  | Some (m :: page) => (Ok (map id (firstn 20 (m :: page))), w1)
  | _ =>
      match provider (requests w1) (popularRequest apiKey) with
      | Some popular => (Ok (map id (firstn 20 popular)), w2)
      | None => (Ok [], w2)
      end
  end.
Proof.
  intros first w1 w2.
  unfold getOnboardingRecommendations, onboardingBody, try_catch.
  rewrite Hg. change (negb true) with false. cbv beta iota zeta delta [andb].
  unfold bind. rewrite combinedPass_skipped, countryPass_skipped, genreLanguagePass_runs.
  fold first. fold w1. rewrite popularFallback_run.
  assert (E2 : log_extend w1 [popularRequest apiKey] = w2).
  { unfold w1, w2. now rewrite log_extend_app. }
  destruct (provider (requests w) first) as [[|m page]|].
  - change (length (@nil Movie) =? 0)%nat with true. cbv iota. rewrite E2.
    destruct (provider (requests w1) _); reflexivity.
  - reflexivity.
  - change (length (@nil Movie) =? 0)%nat with true. cbv iota. rewrite E2.
    destruct (provider (requests w1) _); reflexivity.
Qed.

End GenresOnly.

(** C9, as amended. For preferences with at least one genre, no language
    and no country, the combined pass and the country pass do nothing, the
    genre/language request is the first request issued (followed at most by
    the popular-movies request), the function returns at most 20 ids, and
    these are free of duplicates whenever the pages of the provider are. *)
Theorem onboarding_genres_only :
  forall (apiKey : string) (provider : Provider)
         (preferences : Schema.UserPreferences) (w : World),
    has_length (Schema.genres preferences) = true ->
    has_length (Schema.languages preferences) = false ->
    truthy (Schema.country preferences) = false ->
    combinedPass apiKey provider preferences [] w = (Ok [], w) /\
    countryPass apiKey provider preferences [] w = (Ok [], w) /\
    exists ids w',
      getOnboardingRecommendations apiKey provider preferences w = (Ok ids, w') /\
      (issued w w' = [genreOnlyRequest apiKey (Schema.genres preferences)] \/
       issued w w' = [genreOnlyRequest apiKey (Schema.genres preferences);
                      popularRequest apiKey]) /\
      (length ids <= 20)%nat /\
      (pages_without_repeats provider -> NoDup ids).
Proof.
  intros apiKey provider preferences w Hg Hl Hc.
  split; [now apply combinedPass_skipped|]. split; [now apply countryPass_skipped|].
  rewrite (onboarding_genres_only_run apiKey provider preferences Hg Hl Hc w). cbv zeta.
  set (first := genreOnlyRequest apiKey (Schema.genres preferences)).
  assert (H1 : issued w (log_extend w [first]) = [first]) by apply issued_log_extend.
  assert (H2 : issued w (log_extend w [first; popularRequest apiKey])
               = [first; popularRequest apiKey]) by apply issued_log_extend.
  destruct (provider (requests w) first) as [[|m page]|] eqn:Ep.
  2: { do 2 eexists. split; [reflexivity|]. split; [left; exact H1|].
       split; [apply first_ids_length|].
       intros Hpages. apply first_ids_NoDup. exact (Hpages _ _ _ Ep). }
  all: destruct (provider (requests (log_extend w [first])) (popularRequest apiKey))
         as [popular|] eqn:Epop;
       do 2 eexists; (split; [reflexivity|]); (split; [right; exact H2|]).
  all: try (split; [apply first_ids_length|];
            intros Hpages; apply first_ids_NoDup; exact (Hpages _ _ _ Epop)).
  all: split; [simpl; lia|]; intros _; constructor.
Qed.

Lemma onboarding_genres_only_witness :
  has_length (Schema.genres action_fan) = true /\
  has_length (Schema.languages action_fan) = false /\
  truthy (Schema.country action_fan) = false /\
  pages_without_repeats (constant_provider 3) /\
  exists ids w',
    getOnboardingRecommendations "key" (constant_provider 3) action_fan sample_world
      = (Ok ids, w') /\
    (length ids <= 20)%nat /\ NoDup ids.
Proof.
  assert (Hg : has_length (Schema.genres action_fan) = true) by reflexivity.
  assert (Hl : has_length (Schema.languages action_fan) = false) by reflexivity.
  assert (Hc : truthy (Schema.country action_fan) = false) by reflexivity.
  assert (Hp : pages_without_repeats (constant_provider 3)).
  { intros history request page E. injection E as <-.
    repeat constructor; simpl; intuition discriminate. }
  do 4 (split; [assumption|]).
  destruct (onboarding_genres_only "key" (constant_provider 3) action_fan sample_world
              Hg Hl Hc) as (_ & _ & ids & w' & E & _ & Hlen & Hnd).
  exists ids, w'. auto.
Defined.

(** C9, as stated, fails when the provider's page repeats a movie: the
    genre/language pass has nothing to filter against, so for preferences
    with genres only the function returns the page's ids, repeats
    included. *)
Lemma onboarding_keeps_repeats_of_a_page :
  has_length (Schema.genres action_fan) = true /\
  has_length (Schema.languages action_fan) = false /\
  truthy (Schema.country action_fan) = false /\
  exists w',
    getOnboardingRecommendations "key" repeating_provider action_fan sample_world
      = (Ok [5; 5], w') /\
    ~ NoDup [5; 5].
Proof.
  do 3 (split; [reflexivity|]). eexists. split; [vm_compute; reflexivity|].
  intros H. inversion H as [|? ? Hnotin _]; subst. apply Hnotin. now left.
Qed.

Lemma guarded_pass_returns provider A (f : list Movie -> list A) (acc : list A) u ps w :
  exists l w',
    try_catch (results <- axios_get provider u ps ;; ret (f results)) (fun _ => ret acc) w
    = (Ok l, w').
Proof.
  unfold try_catch, bind, axios_get, ret. destruct (provider _ _); eauto.
Qed.

(** C10. [getOnboardingRecommendations] never throws: for every provider,
    preferences and world it returns a list; none of the three passes
    throws (each handles its own failure), and when the body of the
    function throws all the same (a failure outside those handlers) the
    list returned is empty. *)
Theorem onboarding_never_throws :
  forall (apiKey : string) (provider : Provider)
         (preferences : Schema.UserPreferences) (w : World),
    (exists ids w',
       getOnboardingRecommendations apiKey provider preferences w = (Ok ids, w') /\
       (forall e w1,
          onboardingBody apiKey provider preferences w = (Throw e, w1) ->
          ids = [] /\ w' = w1)) /\
    (forall allResults : list Movie,
       (exists l w', combinedPass apiKey provider preferences allResults w = (Ok l, w')) /\
       (exists l w', countryPass apiKey provider preferences allResults w = (Ok l, w')) /\
       (exists l w', genreLanguagePass apiKey provider preferences allResults w = (Ok l, w'))).
Proof.
  intros apiKey provider preferences w. split.
  - unfold getOnboardingRecommendations, try_catch.
    destruct (onboardingBody apiKey provider preferences w) as [[ids|e] w1].
    + exists ids, w1. split; [reflexivity|]. discriminate.
    + exists [], w1. split; [reflexivity|]. intros e' w1' E. injection E as _ <-. auto.
  - intros allResults. unfold combinedPass, countryPass, genreLanguagePass.
    repeat split;
      match goal with |- context [if ?c then _ else _] => destruct c end;
      try apply guarded_pass_returns; unfold ret; eauto.
Qed.

Lemma onboarding_never_throws_witness :
  let w1 := log_extend sample_world [popularRequest "key"] in
  onboardingBody "key" failing_provider no_preferences sample_world
    = (Throw RequestFailed, w1) /\
  getOnboardingRecommendations "key" failing_provider no_preferences sample_world
    = (Ok [], w1).
Proof.
  intros w1.
  assert (Hb : onboardingBody "key" failing_provider no_preferences sample_world
               = (Throw RequestFailed, w1)) by reflexivity.
  split; [exact Hb|].
  destruct (onboarding_never_throws "key" failing_provider no_preferences sample_world)
    as ((ids & w' & E & H) & _).
  destruct (H _ _ Hb) as [-> ->]. exact E.
Defined.

(* ================================================================= *)
(** ** Binary64 arithmetic: rounding keeps the sign *)

Module FloatFacts.

Lemma fexp_ge_emin e : emin <= fexp prec emax e.
Proof. unfold fexp, SpecFloat.emin, emin, prec, emax. lia. Qed.

Lemma fexp_eq e : fexp prec emax e = Z.max (e - 53) emin.
Proof. reflexivity. Qed.

Lemma iter_pos_invariant A (f : A -> A) (P : A -> Prop) :
  (forall x, P x -> P (f x)) -> forall p x, P x -> P (iter_pos f p x).
Proof. intros Hf. induction p; intros x Hx; simpl; auto. Qed.

Lemma iter_pos_nat A (f : A -> A) p : forall x,
  iter_pos f p x = Nat.iter (Pos.to_nat p) f x.
Proof.
  induction p as [p IH|p IH|]; intros x; simpl iter_pos.
  - rewrite !IH, Pos2Nat.inj_xI.
    replace (S (2 * Pos.to_nat p)) with (Pos.to_nat p + S (Pos.to_nat p))%nat by lia.
    now rewrite Nat.iter_add, Nat.iter_succ_r.
  - rewrite !IH, Pos2Nat.inj_xO.
    replace (2 * Pos.to_nat p)%nat with (Pos.to_nat p + Pos.to_nat p)%nat by lia.
    now rewrite Nat.iter_add.
  - reflexivity.
Qed.

Lemma shr_1_nonneg r : 0 <= shr_m r -> 0 <= shr_m (shr_1 r).
Proof. destruct r as [[|[p|p|]|p] r s]; simpl; lia. Qed.

Lemma shr_1_lower r k : 0 <= k -> 2 ^ (k + 1) <= shr_m r -> 2 ^ k <= shr_m (shr_1 r).
Proof.
  intros Hk. rewrite Z.pow_add_r, Z.pow_1_r by lia.
  assert (0 < 2 ^ k) by (apply Z.pow_pos_nonneg; lia).
  destruct r as [[|[p|p|]|p] r s]; simpl; lia.
Qed.

Lemma iter_shr_1_lower n : forall r k,
  0 <= k -> 2 ^ (k + Z.of_nat n) <= shr_m r -> 2 ^ k <= shr_m (Nat.iter n shr_1 r).
Proof.
  induction n as [|n IH]; intros r k Hk H.
  - simpl. now rewrite Z.add_0_r in H.
  - simpl. apply shr_1_lower; auto. apply IH; [lia|].
    replace (k + 1 + Z.of_nat n) with (k + Z.of_nat (S n)) by lia. exact H.
Qed.

Lemma digits2_pos_bounds p :
  2 ^ (Zpos (digits2_pos p) - 1) <= Zpos p < 2 ^ Zpos (digits2_pos p).
Proof.
  induction p as [p IH|p IH|]; simpl digits2_pos.
  - rewrite Pos2Z.inj_succ.
    replace (Z.succ (Zpos (digits2_pos p)) - 1) with (Z.succ (Zpos (digits2_pos p) - 1)) by lia.
    rewrite !Z.pow_succ_r by lia. lia.
  - rewrite Pos2Z.inj_succ.
    replace (Z.succ (Zpos (digits2_pos p)) - 1) with (Z.succ (Zpos (digits2_pos p) - 1)) by lia.
    rewrite !Z.pow_succ_r by lia. lia.
  - simpl. lia.
Qed.

Lemma shr_m_of_loc m l : shr_m (shr_record_of_loc m l) = m.
Proof. destruct l as [|[| |]]; reflexivity. Qed.

(** A right shift to the canonical exponent keeps a mantissa non-negative
    and lands on a binary64 exponent. *)
Lemma shr_fexp_nonneg m e l mrs e' :
  0 <= m -> shr_fexp prec emax m e l = (mrs, e') ->
  0 <= shr_m mrs /\ emin <= e'.
Proof.
  intros Hm. unfold shr_fexp, shr.
  pose proof (fexp_ge_emin (Zdigits2 m + e)) as Hf.
  destruct (fexp prec emax (Zdigits2 m + e) - e) as [|q|q] eqn:En;
    intros E; injection E as <- <-.
  - rewrite shr_m_of_loc. lia.
  - split; [|lia]. apply iter_pos_invariant; [apply shr_1_nonneg|].
    now rewrite shr_m_of_loc.
  - rewrite shr_m_of_loc. lia.
Qed.

(** Above the smallest exponent it does not lose a positive mantissa. *)
Lemma shr_fexp_pos m e l mrs e' :
  1 <= m -> emin <= e -> shr_fexp prec emax m e l = (mrs, e') ->
  1 <= shr_m mrs /\ emin <= e'.
Proof.
  intros Hm He E. split; [|eapply shr_fexp_nonneg; eauto; lia].
  revert E. unfold shr_fexp, shr.
  destruct m as [|p|p]; try lia. simpl Zdigits2.
  pose proof (digits2_pos_bounds p) as [Hlow _].
  rewrite fexp_eq.
  destruct (Z.max (Zpos (digits2_pos p) + e - 53) emin - e) as [|q|q] eqn:En;
    intros E; injection E as <- _; try (rewrite shr_m_of_loc; lia).
  rewrite iter_pos_nat. change 1 with (2 ^ 0).
  apply iter_shr_1_lower; [lia|]. rewrite shr_m_of_loc, positive_nat_Z.
  simpl Z.add. eapply Z.le_trans; [|exact Hlow].
  apply Z.pow_le_mono_r; lia.
Qed.

Lemma round_nearest_even_ge m l : m <= round_nearest_even m l.
Proof. destruct l as [|[| |]]; simpl; try lia. destruct (Z.even m); lia. Qed.

Lemma binary_round_aux_rounded s m e l :
  0 <= m -> rounded s (binary_round_aux prec emax s m e l).
Proof.
  intros Hm. unfold binary_round_aux.
  destruct (shr_fexp prec emax m e l) as [mrs1 e1] eqn:E1.
  destruct (@shr_fexp_nonneg _ _ _ _ _ Hm E1) as [H1 _].
  pose proof (round_nearest_even_ge (shr_m mrs1) (loc_of_shr_record mrs1)) as Hr.
  destruct (shr_fexp prec emax _ e1 loc_Exact) as [mrs2 e2] eqn:E2.
  apply shr_fexp_nonneg in E2; [|lia]. destruct E2 as [H2 He2].
  destruct (shr_m mrs2) as [|q|q].
  - reflexivity.
  - destruct (e2 <=? emax - prec); simpl; auto.
  - lia.
Qed.

Lemma binary_round_aux_not_zero s p e l :
  emin <= e -> is_zero (binary_round_aux prec emax s (Zpos p) e l) = false.
Proof.
  intros He. unfold binary_round_aux.
  destruct (shr_fexp prec emax (Zpos p) e l) as [mrs1 e1] eqn:E1.
  apply shr_fexp_pos in E1; [|lia|lia]. destruct E1 as [H1 He1].
  pose proof (round_nearest_even_ge (shr_m mrs1) (loc_of_shr_record mrs1)) as Hr.
  destruct (shr_fexp prec emax _ e1 loc_Exact) as [mrs2 e2] eqn:E2.
  apply shr_fexp_pos in E2; [|lia|lia]. destruct E2 as [H2 He2].
  destruct (shr_m mrs2) as [|q|q]; try lia.
  destruct (e2 <=? emax - prec); reflexivity.
Qed.

Lemma shl_align_exponent m e e0 :
  emin <= e -> emin <= e0 -> emin <= snd (shl_align m e e0).
Proof. intros H H0. unfold shl_align. destruct (e0 - e); simpl; lia. Qed.

Lemma binary_round_rounded s m e : rounded s (binary_round prec emax s m e).
Proof.
  unfold binary_round. destruct (shl_align _ _ _) as [mz ez].
  apply binary_round_aux_rounded. lia.
Qed.

Lemma binary_round_not_zero s m e :
  emin <= e -> is_zero (binary_round prec emax s m e) = false.
Proof.
  intros He. unfold binary_round.
  destruct (shl_align m e _) as [mz ez] eqn:E.
  apply binary_round_aux_not_zero.
  change ez with (snd (mz, ez)). rewrite <- E.
  apply shl_align_exponent; auto. apply fexp_ge_emin.
Qed.

(** Rounding a non-zero value on the binary64 grid keeps its sign. *)
Lemma sign_binary_round s m e :
  emin <= e -> sign (binary_round prec emax s m e) = if s then Lt else Gt.
Proof.
  intros He. pose proof (binary_round_rounded s m e) as Hr.
  pose proof (@binary_round_not_zero s m e He) as Hz.
  destruct (binary_round prec emax s m e); simpl in *; try discriminate;
    try tauto; destruct Hr; subst; try reflexivity.
  all: now destruct s.
Qed.

Lemma iter_xO_value m d : Zpos (Pos.iter xO m d) = Zpos m * 2 ^ Zpos d.
Proof.
  rewrite (Pos.iter_swap_gen _ _ Zpos xO (Z.mul 2)) by reflexivity.
  change (Pos.iter (Z.mul 2) (Zpos m) d) with (Z.shiftl (Zpos m) (Zpos d)).
  apply Z.shiftl_mul_pow2. lia.
Qed.

Lemma iter_xO_digits m d : digits2_pos (Pos.iter xO m d) = (digits2_pos m + d)%positive.
Proof.
  rewrite (Pos.iter_swap_gen _ _ digits2_pos xO Pos.succ) by reflexivity.
  induction d as [|d IH] using Pos.peano_ind.
  - simpl. lia.
  - rewrite Pos.iter_succ, IH. lia.
Qed.

Lemma shl_align_value m e e0 :
  e0 <= e -> Zpos (fst (shl_align m e e0)) = Zpos m * 2 ^ (e - e0).
Proof.
  intros H. unfold shl_align. destruct (e0 - e) as [|d|d] eqn:E; simpl fst.
  - replace (e - e0) with 0 by lia. lia.
  - lia.
  - rewrite iter_xO_value. f_equal. f_equal. lia.
Qed.

Lemma value_finite m e :
  emin <= e -> value (S754_finite false m e) = Some (Fin (Zpos m * 2 ^ (e - emin))).
Proof.
  intros H. simpl. rewrite Z.shiftl_mul_pow2 by lia. reflexivity.
Qed.

Lemma pow2_pos k : 0 <= k -> 0 < 2 ^ k.
Proof. intros. apply Z.pow_pos_nonneg; lia. Qed.

(** The sign of the binary64 difference of two well-formed scores is their
    comparison: the comparator of the sort is consistent. *)
Lemma sub_sign x y :
  nonneg x -> nonneg y -> Num.compare x y = Some (sign (sub x y)).
Proof.
  destruct x as [sx|sx| |sx mx ex], y as [sy|sy| |sy my ey]; simpl nonneg;
    try tauto; intros Hx Hy.
  - now destruct sx, sy.
  - subst. now destruct sx.
  - destruct Hy as [-> Hey]. unfold Num.compare. rewrite (value_finite my Hey).
    cbn [value ereal_compare sign sub SFsub negb]. assert (0 < 2 ^ (ey - emin)) by (apply pow2_pos; lia). f_equal. apply Z.compare_lt_iff. nia.
  - subst. reflexivity.
  - subst. reflexivity.
  - subst. destruct Hy as [-> _]. reflexivity.
  - destruct Hx as [-> Hex]. unfold Num.compare. rewrite (value_finite mx Hex).
    cbn [value ereal_compare sign sub SFsub negb]. assert (0 < 2 ^ (ex - emin)) by (apply pow2_pos; lia). f_equal. apply Z.compare_gt_iff. nia.
  - subst. destruct Hx as [-> _]. reflexivity.
  - destruct Hx as [-> Hex], Hy as [-> Hey].
    unfold Num.compare. rewrite (value_finite mx Hex), (value_finite my Hey).
    unfold sub, SFsub, cond_Zopp. cbv zeta.
    set (ez := Z.min ex ey).
    assert (Hez : emin <= ez) by (unfold ez; lia).
    rewrite !shl_align_value by (unfold ez; lia).
    set (X := Zpos mx * 2 ^ (ex - ez)). set (Y := Zpos my * 2 ^ (ey - ez)).
    assert (EX : Zpos mx * 2 ^ (ex - emin) = X * 2 ^ (ez - emin)).
    { unfold X. rewrite <- Z.mul_assoc, <- Z.pow_add_r by (unfold ez; lia).
      do 2 f_equal. lia. }
    assert (EY : Zpos my * 2 ^ (ey - emin) = Y * 2 ^ (ez - emin)).
    { unfold Y. rewrite <- Z.mul_assoc, <- Z.pow_add_r by (unfold ez; lia).
      do 2 f_equal. lia. }
    rewrite EX, EY. assert (Hc : 0 < 2 ^ (ez - emin)) by (apply pow2_pos; lia).
    cbn [ereal_compare]. f_equal.
    destruct (X - Y) as [|d|d] eqn:ED; unfold binary_normalize.
    + cbn [sign]. apply Z.compare_eq_iff. f_equal. lia.
    + rewrite sign_binary_round by exact Hez. apply Z.compare_gt_iff. nia.
    + rewrite sign_binary_round by exact Hez. apply Z.compare_lt_iff. nia.
Qed.

(** *** Well-formed scores are closed under the operations of a run *)

Lemma rounded_nonneg x : rounded false x -> nonneg x.
Proof. destruct x; simpl; auto. Qed.

Lemma nonneg_not_nan x : nonneg x -> is_nan x = false.
Proof. destruct x; simpl; tauto. Qed.

Lemma max_nonneg a b : nonneg a -> nonneg b -> nonneg (max a b).
Proof.
  intros Ha Hb.
  destruct (NumFacts.max_spec a b (nonneg_not_nan a Ha) (nonneg_not_nan b Hb))
    as [[-> _]|[-> _]]; assumption.
Qed.

Lemma add_nonneg x y : nonneg x -> nonneg y -> nonneg (add x y).
Proof.
  destruct x as [sx|sx| |sx mx ex], y as [sy|sy| |sy my ey]; simpl nonneg;
    try tauto; intros Hx Hy; subst; try (simpl; tauto).
  - now destruct sx, sy.
  - destruct Hx as [-> Hex], Hy as [-> Hey].
    unfold add, SFadd, cond_Zopp. cbv zeta.
    rewrite <- Pos2Z.inj_add. unfold binary_normalize.
    apply rounded_nonneg, binary_round_rounded.
Qed.

Lemma mul_finite_nonneg x m e : nonneg x -> nonneg (mul x (S754_finite false m e)).
Proof.
  destruct x as [sx|sx| |sx mx ex]; simpl nonneg; try tauto; intros Hx.
  - subst. reflexivity.
  - destruct Hx as [-> _]. unfold mul, SFmul. cbn [xorb].
    apply rounded_nonneg, binary_round_aux_rounded. lia.
Qed.

Lemma div_finite_nonneg x m e : nonneg x -> nonneg (div x (S754_finite false m e)).
Proof.
  destruct x as [sx|sx| |sx mx ex]; simpl nonneg; try tauto; intros Hx.
  - subst. reflexivity.
  - destruct Hx as [-> _]. unfold div, SFdiv, SFdiv_core_binary. cbv zeta. cbn [xorb].
    match goal with |- context [Z.div_eucl ?a ?b] =>
      assert (Ha : 0 <= a);
      [|pose proof (Z.div_pos a b Ha ltac:(lia)) as Hq; unfold Z.div in Hq;
        destruct (Z.div_eucl a b) as [q r]] end.
    + match goal with |- 0 <= match ?s with _ => _ end => destruct s end;
        try lia. apply Z.shiftl_nonneg. lia.
    + apply rounded_nonneg, binary_round_aux_rounded. exact Hq.
Qed.

Lemma ofZ_nonneg z : 0 <= z -> nonneg (ofZ z).
Proof.
  intros Hz. unfold ofZ, binary_normalize. destruct z as [|p|p]; try lia.
  - exact I.
  - apply rounded_nonneg, binary_round_rounded.
Qed.

(** A mantissa already on its canonical exponent is returned as it is. *)
Lemma binary_round_aux_canonical s m e :
  fexp prec emax (Zpos (digits2_pos m) + e) = e -> e <= emax - prec ->
  binary_round_aux prec emax s (Zpos m) e loc_Exact = S754_finite s m e.
Proof.
  intros Hc He. unfold binary_round_aux, shr_fexp. cbn [Zdigits2 shr_record_of_loc].
  rewrite Hc, Z.sub_diag. cbn [shr shr_m loc_of_shr_record round_nearest_even Zdigits2].
  rewrite Hc, Z.sub_diag. cbn [shr shr_m].
  apply Z.leb_le in He. now rewrite He.
Qed.

(** Integers below [2 ^ 52] are finite numbers. *)
Lemma ofZ_small_finite z :
  0 < z < 2 ^ 52 -> exists m e, ofZ z = S754_finite false m e /\ emin <= e.
Proof.
  intros Hz. destruct z as [|p|p]; try lia.
  unfold ofZ, binary_normalize, binary_round.
  pose proof (digits2_pos_bounds p) as [Hlow _].
  assert (Hd : Zpos (digits2_pos p) <= 52).
  { destruct (Z_le_gt_dec (Zpos (digits2_pos p)) 52) as [|Hgt]; auto.
    exfalso. assert (2 ^ 52 <= 2 ^ (Zpos (digits2_pos p) - 1)) by (apply Z.pow_le_mono_r; lia).
    lia. }
  rewrite fexp_eq. unfold emin. unfold shl_align.
  destruct (Z.max (Zpos (digits2_pos p) + 0 - 53) (-1074) - 0) as [|q|q] eqn:Eq; try lia.
  exists (Pos.iter xO p q), (Z.max (Zpos (digits2_pos p) + 0 - 53) (-1074)).
  split; [|lia]. apply binary_round_aux_canonical.
  - rewrite iter_xO_digits, fexp_eq. unfold emin. lia.
  - unfold emax, prec. lia.
Qed.

Lemma ofNat_nonneg n : nonneg (ofNat n).
Proof. apply ofZ_nonneg. lia. Qed.

(** The [genreMatch] of the genre generator, for a genre array of a
    length an array can have. *)
Lemma genre_match_nonneg (k n : nat) :
  (0 < n)%nat -> Z.of_nat n < 2 ^ 32 ->
  nonneg (mul (div (ofNat k) (ofNat n)) (decimal 12 1)).
Proof.
  intros Hn Hlt.
  destruct (@ofZ_small_finite (Z.of_nat n)) as (m & e & E & _).
  { split; [lia|]. eapply Z.lt_trans; [exact Hlt|]. reflexivity. }
  unfold ofNat at 2. rewrite E.
  replace (decimal 12 1) with (S754_finite false 5404319552844595 (-52))
    by (vm_compute; reflexivity).
  apply mul_finite_nonneg, div_finite_nonneg, ofNat_nonneg.
Qed.

(** *** The numeric order is the IEEE comparison

    On genuine binary64 values ([valid_binary]) the comparison by value is
    the comparison [SFcompare] of the Standard Library. *)

Lemma canonical_facts m e :
  canonical_mantissa prec emax m e = true ->
  emin <= e /\ Zpos (digits2_pos m) <= 53 /\ (emin < e -> Zpos (digits2_pos m) = 53).
Proof.
  unfold canonical_mantissa. rewrite Z.eqb_eq, fexp_eq. lia.
Qed.

Lemma canonical_compare m1 e1 m2 e2 :
  canonical_mantissa prec emax m1 e1 = true ->
  canonical_mantissa prec emax m2 e2 = true ->
  e1 < e2 ->
  Zpos m1 * 2 ^ (e1 - emin) < Zpos m2 * 2 ^ (e2 - emin).
Proof.
  intros H1 H2 Hlt.
  destruct (canonical_facts _ _ H1) as (He1 & Hd1 & _).
  destruct (canonical_facts _ _ H2) as (He2 & _ & Hd2).
  pose proof (digits2_pos_bounds m1) as [_ Hup].
  pose proof (digits2_pos_bounds m2) as [Hlow _].
  rewrite Hd2 in Hlow by lia. change (53 - 1) with 52 in Hlow.
  assert (Hm1 : Zpos m1 < 2 ^ 53).
  { eapply Z.lt_le_trans; [exact Hup|]. apply Z.pow_le_mono_r; lia. }
  replace (e2 - emin) with ((e2 - e1 - 1) + 1 + (e1 - emin)) by lia.
  rewrite !Z.pow_add_r by lia.
  assert (Hp : 0 < 2 ^ (e1 - emin)) by (apply pow2_pos; lia).
  assert (Hq : 0 < 2 ^ (e2 - e1 - 1)) by (apply pow2_pos; lia).
  change (2 ^ 53) with (2 ^ 52 * 2) in Hm1. change (2 ^ 1) with 2.
  set (K := 2 ^ 52) in *. set (P := 2 ^ (e1 - emin)) in *.
  set (Q := 2 ^ (e2 - e1 - 1)) in *. set (a := Zpos m1) in *. set (b := Zpos m2) in *.
  assert (HK : 0 < K) by reflexivity.
  clearbody K P Q a b.
  apply Z.lt_le_trans with (K * 2 * P); [nia|].
  apply Z.le_trans with (b * 2 * P); [nia|].
  assert (0 <= b * 2 * P) by nia.
  assert (b * 2 * P * 1 <= b * 2 * P * Q) by (apply Z.mul_le_mono_nonneg_l; lia).
  lia.
Qed.

Lemma finite_compare m1 e1 m2 e2 :
  canonical_mantissa prec emax m1 e1 = true ->
  canonical_mantissa prec emax m2 e2 = true ->
  (Zpos m1 * 2 ^ (e1 - emin) ?= Zpos m2 * 2 ^ (e2 - emin))
  = match e1 ?= e2 with
    | Lt => Lt
    | Gt => Gt
    | Eq => Pos.compare_cont Eq m1 m2
    end.
Proof.
  intros H1 H2. destruct (Z.compare_spec e1 e2) as [->|Hlt|Hgt].
  - destruct (canonical_facts _ _ H2) as (He2 & _).
    assert (Hp : 0 < 2 ^ (e2 - emin)) by (apply pow2_pos; lia).
    change (Pos.compare_cont Eq m1 m2) with (Zpos m1 ?= Zpos m2).
    destruct (Z.compare_spec (Zpos m1) (Zpos m2)) as [E|Hl|Hg].
    + rewrite E. apply Z.compare_refl.
    + apply Z.compare_lt_iff. nia.
    + apply Z.compare_gt_iff. nia.
  - apply Z.compare_lt_iff. now apply canonical_compare.
  - apply Z.compare_gt_iff. now apply canonical_compare.
Qed.

Lemma compare_is_SFcompare x y :
  valid_binary prec emax x = true -> valid_binary prec emax y = true ->
  Num.compare x y = SFcompare x y.
Proof.
  destruct x as [sx|sx| |sx mx ex], y as [sy|sy| |sy my ey];
    try reflexivity; try (destruct sx; try destruct sy; reflexivity); simpl valid_binary;
    unfold bounded; rewrite ?andb_true_iff; intros Hx Hy.
  - destruct Hy as [Hy _]. destruct (canonical_facts _ _ Hy) as (He & _).
    unfold Num.compare. cbn [value]. rewrite Z.shiftl_mul_pow2 by lia.
    assert (0 < 2 ^ (ey - emin)) by (apply pow2_pos; lia).
    cbn [ereal_compare SFcompare]. f_equal.
    destruct sy; cbn [cond_Zopp]; [apply Z.compare_gt_iff|apply Z.compare_lt_iff]; nia.
  - destruct Hx as [Hx _]. destruct (canonical_facts _ _ Hx) as (He & _).
    unfold Num.compare. cbn [value]. rewrite Z.shiftl_mul_pow2 by lia.
    assert (0 < 2 ^ (ex - emin)) by (apply pow2_pos; lia).
    cbn [ereal_compare SFcompare]. f_equal.
    destruct sx; cbn [cond_Zopp]; [apply Z.compare_lt_iff|apply Z.compare_gt_iff]; nia.
  - destruct Hx as [Hx _], Hy as [Hy _].
    destruct (canonical_facts _ _ Hx) as (Hex & _).
    destruct (canonical_facts _ _ Hy) as (Hey & _).
    unfold Num.compare. cbn [value]. rewrite !Z.shiftl_mul_pow2 by lia.
    assert (0 < 2 ^ (ex - emin)) by (apply pow2_pos; lia).
    assert (0 < 2 ^ (ey - emin)) by (apply pow2_pos; lia).
    cbn [ereal_compare SFcompare]. f_equal.
    destruct sx, sy; cbn [cond_Zopp].
    + rewrite Z.compare_opp, (finite_compare _ _ _ _ Hy Hx).
      rewrite (Z.compare_antisym ex ey).
      destruct (ex ?= ey); cbn [CompOpp]; try reflexivity.
      rewrite Pos.compare_cont_antisym. reflexivity.
    + apply Z.compare_lt_iff. nia.
    + apply Z.compare_gt_iff. nia.
    + apply finite_compare; assumption.
Qed.

End FloatFacts.

(* ================================================================= *)
(** ** The sort of a generation run *)

Lemma compare_flip a b c :
  Num.compare a b = Some c -> Num.compare b a = Some (CompOpp c).
Proof.
  unfold Num.compare. destruct (value a) as [u|], (value b) as [v|]; try discriminate.
  intros E. injection E as <-. now rewrite NumFacts.ereal_compare_antisym.
Qed.

Lemma compare_leb a b c : Num.compare a b = Some c -> c <> Gt -> leb a b = true.
Proof. unfold leb. intros -> H. destruct c; congruence. Qed.

Lemma eqb_same_score a b s :
  Num.eqb a s = true -> Num.eqb b s = true -> Num.compare a b = Some Eq.
Proof.
  unfold Num.eqb, Num.compare.
  destruct (value a) as [u|], (value b) as [v|], (value s) as [t|]; try discriminate.
  intros Ha Hb. f_equal. apply NumFacts.ereal_eq_trans with t.
  - destruct (ereal_compare u t); congruence.
  - rewrite NumFacts.ereal_compare_antisym. destruct (ereal_compare v t); simpl; congruence.
Qed.

Section Ranking.

(** The comparator [b.score - a.score] reads as the comparison of the
    scores. *)
Lemma byScoreDescending_sign a b :
  scored a -> scored b ->
  Num.compare (score b) (score a) = Some (sign (byScoreDescending a b)).
Proof. intros Ha Hb. apply FloatFacts.sub_sign; assumption. Qed.

Lemma sort_insert_perm A (cmp : A -> A -> number) x l :
  Permutation (sort_insert cmp x l) (x :: l).
Proof.
  induction l as [|y l IH]; simpl; auto.
  destruct (sign (cmp x y)); auto.
  rewrite IH. apply perm_swap.
Qed.

Lemma array_sort_perm A (cmp : A -> A -> number) l : Permutation (array_sort cmp l) l.
Proof.
  induction l as [|x l IH]; simpl; auto.
  rewrite sort_insert_perm. now constructor.
Qed.

Lemma sort_insert_sorted x l :
  scored x -> Forall scored l ->
  StronglySorted ranks_before l ->
  StronglySorted ranks_before (sort_insert byScoreDescending x l).
Proof.
  intros Hx Hl Hs. induction Hs as [|y l Hs IH Hy]; simpl.
  - repeat constructor.
  - inversion Hl as [|? ? Hsy Hl']; subst.
    pose proof (@byScoreDescending_sign x y Hx Hsy) as Hc.
    assert (Hle : sign (byScoreDescending x y) <> Gt -> Forall (ranks_before x) (y :: l)).
    { intros Hne. assert (Hxy : ranks_before x y) by (eapply compare_leb; eauto).
      constructor; auto. eapply Forall_impl; [|exact Hy].
      intros z Hz. unfold ranks_before in *. eapply NumFacts.leb_trans; eauto. }
    destruct (sign (byScoreDescending x y)) eqn:Es.
    + constructor; [constructor; auto|]. apply Hle. discriminate.
    + constructor; [constructor; auto|]. apply Hle. discriminate.
    + constructor; [apply IH; auto|].
      apply compare_flip in Hc. simpl in Hc.
      assert (Hyx : ranks_before y x) by (eapply compare_leb; eauto; discriminate).
      rewrite (sort_insert_perm byScoreDescending x l). constructor; auto.
Qed.

Lemma sort_insert_stable s x l :
  scored x -> Forall scored l ->
  with_score s (sort_insert byScoreDescending x l) = with_score s (x :: l).
Proof.
  intros Hx Hl. induction l as [|y l IH]; [reflexivity|].
  inversion Hl as [|? ? Hsy Hl']; subst. simpl sort_insert.
  pose proof (@byScoreDescending_sign x y Hx Hsy) as Hc.
  destruct (sign (byScoreDescending x y)) eqn:Es; try reflexivity.
  unfold with_score in *. simpl filter. simpl filter in IH. rewrite (IH Hl').
  destruct (Num.eqb (score y) s) eqn:Ey, (Num.eqb (score x) s) eqn:Ex; try reflexivity.
  rewrite (eqb_same_score _ _ _ Ey Ex) in Hc. discriminate.
Qed.

(** Sorting well-formed scores ranks the entries by score, highest first,
    and keeps entries of equal score in their order. *)
Lemma array_sort_ranked l :
  Forall scored l ->
  StronglySorted ranks_before (array_sort byScoreDescending l) /\
  (forall s, with_score s (array_sort byScoreDescending l) = with_score s l).
Proof.
  induction l as [|x l IH]; intros Hl.
  - split; [constructor|reflexivity].
  - inversion Hl as [|? ? Hx Hl']; subst. destruct (IH Hl') as [Hs Hst].
    assert (Hl2 : Forall scored (array_sort byScoreDescending l)).
    { rewrite (array_sort_perm byScoreDescending l). exact Hl'. }
    simpl array_sort. split.
    + now apply sort_insert_sorted.
    + intros s. rewrite sort_insert_stable by assumption.
      unfold with_score in *. simpl. now rewrite Hst.
Qed.

(** The result does not depend on the sorting algorithm: a list ranked by
    score whose entries of equal score are in the order of [l] is the one
    above. *)
Lemma leb_antisym a b : leb a b = true -> leb b a = true -> Num.eqb a b = true.
Proof.
  unfold leb, Num.eqb, Num.compare.
  destruct (value a) as [u|], (value b) as [v|]; try discriminate.
  rewrite (NumFacts.ereal_compare_antisym u v).
  destruct (ereal_compare u v); simpl; congruence.
Qed.

Lemma eqb_refl_scored e : scored e -> Num.eqb (score e) (score e) = true.
Proof.
  intros H. apply leb_antisym; apply NumFacts.leb_refl, FloatFacts.nonneg_not_nan, H.
Qed.

Lemma with_score_In s e l : In e (with_score s l) <-> In e l /\ Num.eqb (score e) s = true.
Proof. unfold with_score. apply filter_In. Qed.

Lemma ranked_lists_equal l1 : forall l2,
  Forall scored l1 -> Forall scored l2 ->
  StronglySorted ranks_before l1 -> StronglySorted ranks_before l2 ->
  (forall s, with_score s l1 = with_score s l2) ->
  l1 = l2.
Proof.
  induction l1 as [|x l1 IH]; intros l2 H1 H2 S1 S2 Hw.
  - destruct l2 as [|y l2]; auto. exfalso.
    inversion H2 as [|? ? Hy _]; subst.
    assert (Hin : In y (with_score (score y) [])).
    { rewrite Hw. apply with_score_In. split; [now left|now apply eqb_refl_scored]. }
    destruct Hin.
  - inversion H1 as [|? ? Hx H1']; subst.
    destruct l2 as [|y l2].
    { exfalso. assert (Hin : In x (with_score (score x) [])).
      { rewrite <- Hw. apply with_score_In. split; [now left|now apply eqb_refl_scored]. }
      destruct Hin. }
    inversion H2 as [|? ? Hy H2']; subst.
    inversion S1 as [|? ? S1' Hx1]; subst. inversion S2 as [|? ? S2' Hy2]; subst.
    assert (Hyx : ranks_before x y).
    { assert (Hin : In y (x :: l1)).
      { apply (with_score_In (score y)). rewrite Hw. apply with_score_In.
        split; [now left|now apply eqb_refl_scored]. }
      destruct Hin as [->|Hin].
      - apply NumFacts.leb_refl, FloatFacts.nonneg_not_nan, Hy.
      - rewrite Forall_forall in Hx1. now apply Hx1. }
    assert (Hxy : ranks_before y x).
    { assert (Hin : In x (y :: l2)).
      { apply (with_score_In (score x)). rewrite <- Hw. apply with_score_In.
        split; [now left|now apply eqb_refl_scored]. }
      destruct Hin as [->|Hin].
      - apply NumFacts.leb_refl, FloatFacts.nonneg_not_nan, Hx.
      - rewrite Forall_forall in Hy2. now apply Hy2. }
    assert (Eyx : Num.eqb (score y) (score x) = true) by now apply leb_antisym.
    assert (E : x = y).
    { pose proof (Hw (score x)) as Hs. unfold with_score in Hs. simpl in Hs.
      rewrite (@eqb_refl_scored x Hx), Eyx in Hs. congruence. }
    subst y. f_equal. apply IH; auto.
    intros s. pose proof (Hw s) as Hs. unfold with_score in *. simpl in Hs.
    destruct (Num.eqb (score x) s); congruence.
Qed.

Lemma array_sort_unique l l' :
  Forall scored l -> Permutation l' l ->
  StronglySorted ranks_before l' ->
  (forall s, with_score s l' = with_score s l) ->
  l' = array_sort byScoreDescending l.
Proof.
  intros Hl Hp Hs Hw. destruct (array_sort_ranked Hl) as [Hs2 Hw2].
  apply ranked_lists_equal; auto.
  - now rewrite Hp.
  - now rewrite (array_sort_perm byScoreDescending l).
  - intros s. now rewrite Hw, Hw2.
Qed.

End Ranking.

(** *** The scores of a run are well formed *)

Ltac literal_nonneg := vm_compute; split; [reflexivity|intros H; discriminate H].

Lemma signal_entry_nonneg g l c r :
  nonneg g -> nonneg l -> nonneg c -> signal_entry g l c r -> entry_nonneg r.
Proof. intros Hg Hl Hc [movie ->]. repeat split; assumption. Qed.

Lemma trending_entry_nonneg r :
  signal_entry zero zero (decimal 8 1) r -> entry_nonneg r.
Proof. apply signal_entry_nonneg; [exact I|exact I|literal_nonneg]. Qed.

Lemma personal_entry_nonneg user r :
  Z.of_nat (length (genres_of user)) < 2 ^ 32 ->
  personal_entry user r -> entry_nonneg r.
Proof.
  intros Hlen [H|[[movie [Hne ->]]|[H|[H|H]]]].
  - revert H. apply signal_entry_nonneg; [exact I|exact I|literal_nonneg].
  - repeat split; try exact I. simpl.
    apply FloatFacts.genre_match_nonneg; [|exact Hlen].
    destruct (genres_of user); [congruence|simpl; lia].
  - revert H. apply signal_entry_nonneg; [exact I|literal_nonneg|exact I].
  - revert H. apply signal_entry_nonneg; [exact I|exact I|literal_nonneg].
  - revert H. apply signal_entry_nonneg; [exact I|exact I|literal_nonneg].
Qed.

Lemma fold_max_nonneg l : forall x,
  nonneg x -> Forall nonneg l -> nonneg (fold_left max l x).
Proof.
  induction l as [|y l IH]; intros x Hx Hl; simpl; auto.
  inversion Hl; subst. apply IH; auto. now apply FloatFacts.max_nonneg.
Qed.

Lemma maximum_nonneg l m : Forall nonneg l -> maximum l = Some m -> nonneg m.
Proof.
  destruct l as [|x l]; simpl; [discriminate|].
  intros H E. injection E as <-. inversion H; subst. now apply fold_max_nonneg.
Qed.

Lemma group_fields_nonneg (f : RecommendationScore -> number) k recs :
  (forall r, entry_nonneg r -> nonneg (f r)) ->
  Forall entry_nonneg recs -> Forall nonneg (map f (group k recs)).
Proof.
  intros Hf Hrecs. apply Forall_forall. intros v Hin.
  apply in_map_iff in Hin. destruct Hin as [r [<- Hr]].
  unfold group in Hr. apply filter_In in Hr. destruct Hr as [Hr _].
  apply Hf. rewrite Forall_forall in Hrecs. auto.
Qed.

(** The merger turns well-formed candidates into well-formed entries with
    well-formed scores. *)
Lemma merged_scored recs :
  Forall entry_nonneg recs -> Forall scored (mergeAndScoreRecommendations recs).
Proof.
  intros Hrecs. apply Forall_forall. intros e Hin.
  destruct (mergeAndScore_In recs e Hin) as [v [Hv ->]].
  destruct (merge_state_entries recs _ _ Hv) as (_ & H1 & H2 & H3).
  unfold scored. simpl.
  apply FloatFacts.add_nonneg; [apply FloatFacts.add_nonneg|].
  - eapply maximum_nonneg; [|exact H1].
    apply group_fields_nonneg; auto. intros r Hr. apply Hr.
  - eapply maximum_nonneg; [|exact H2].
    apply group_fields_nonneg; auto. intros r Hr. apply Hr.
  - eapply maximum_nonneg; [|exact H3].
    apply group_fields_nonneg; auto. intros r Hr. apply Hr.
Qed.

Lemma generate_via_ranked apiKey provider userId user w sorted w1 :
  Storage.getUser (store w) userId = Some user ->
  rankedRecommendations apiKey provider userId user w = (Ok sorted, w1) ->
  exists db,
    generateRecommendationsForUser apiKey provider userId w
    = (Ok (map movieId sorted), {| store := db; requests := requests w1 |}).
Proof.
  intros Hu Er. unfold generateRecommendationsForUser.
  unfold bind at 1. unfold read_store. rewrite Hu. unfold bind. rewrite Er.
  destruct (saveAll_requests userId sorted w1) as [db Es].
  rewrite Es. exists db. reflexivity.
Qed.

(** C4. In a generation run for a stored user (whose genre array has a
    length an array can have) the function returns the movie ids of the
    sorted list, which is the merged list reordered so that scores never
    increase from an entry to any later one, the entries of equal score
    staying in the order the merger gave them (stable, no other key); no
    other ordering of the merged list has these two properties. *)
Theorem generation_run_is_ranked :
  forall (apiKey : string) (provider : Provider) (userId : Z)
         (user : Schema.User) (w : World),
    Storage.getUser (store w) userId = Some user ->
    Z.of_nat (length (genres_of user)) < 2 ^ 32 ->
    exists signals w0 candidates w1 sorted ids w2,
      let merged := mergeAndScoreRecommendations candidates in
      collectSignals apiKey provider userId user (cleared w userId) = (Ok signals, w0) /\
      withTrendingFallback apiKey provider signals w0 = (Ok candidates, w1) /\
      rankedRecommendations apiKey provider userId user w = (Ok sorted, w1) /\
      sorted = array_sort byScoreDescending merged /\
      generateRecommendationsForUser apiKey provider userId w = (Ok ids, w2) /\
      ids = map movieId sorted /\
      Permutation sorted merged /\
      StronglySorted ranks_before sorted /\
      (forall s, with_score s sorted = with_score s merged) /\
      (forall l,
         Permutation l merged -> StronglySorted ranks_before l ->
         (forall s, with_score s l = with_score s merged) -> l = sorted).
Proof.
  intros apiKey provider userId user w Hu Hlen.
  destruct (rankedRecommendations_spec apiKey provider userId user w)
    as (signals & n1 & extra & n2 & Ec & Ef & _ & Q1 & Q2 & _ & Er).
  destruct (generate_via_ranked apiKey provider userId w Hu Er) as [db Eg].
  assert (Hscored : Forall scored (mergeAndScoreRecommendations (signals ++ extra))).
  { apply merged_scored. apply Forall_app. split.
    - eapply Forall_impl; [|exact Q1]. intros r. now apply personal_entry_nonneg.
    - eapply Forall_impl; [|exact Q2]. apply trending_entry_nonneg. }
  destruct (array_sort_ranked Hscored) as [Hsorted Hstable].
  do 7 eexists. cbv zeta.
  split; [exact Ec|]. split; [exact Ef|].
  split; [exact Er|]. split; [reflexivity|]. split; [exact Eg|]. split; [reflexivity|].
  split; [apply array_sort_perm|]. split; [assumption|]. split; [assumption|].
  intros l Hp Hs Hw. now apply array_sort_unique.
Qed.

Lemma generation_run_is_ranked_witness :
  Storage.getUser (store sample_world) 2 = Some genre_user /\
  Z.of_nat (length (genres_of genre_user)) < 2 ^ 32 /\
  exists sorted w1,
    rankedRecommendations "key" sample_provider 2 genre_user sample_world = (Ok sorted, w1) /\
    map movieId sorted = [2; 1; 3; 4] /\
    map score sorted = [decimal 20 1; decimal 16 1; decimal 10 1; decimal 8 1] /\
    fst (generateRecommendationsForUser "key" sample_provider 2 sample_world)
      = Ok [2; 1; 3; 4] /\
    StronglySorted ranks_before sorted /\
    ranked_sample = sorted.
Proof.
  assert (Hu : Storage.getUser (store sample_world) 2 = Some genre_user) by reflexivity.
  assert (Hlen : Z.of_nat (length (genres_of genre_user)) < 2 ^ 32) by reflexivity.
  split; [exact Hu|]. split; [exact Hlen|].
  destruct (generation_run_is_ranked "key" sample_provider 2 sample_world Hu Hlen)
    as (signals & w0 & candidates & w1 & sorted & ids & w2 & _ & _ & Er & _ & Eg & Eids
        & Hperm & Hsorted & Hstable & Hunique).
  exists sorted, w1. split; [exact Er|].
  assert (Es : sorted
               = fst (let r := rankedRecommendations "key" sample_provider 2 genre_user
                                 sample_world in
                      match fst r with Ok l => (l, tt) | Throw _ => ([], tt) end)).
  { rewrite Er. reflexivity. }
  split; [rewrite Es; vm_compute; reflexivity|].
  split; [rewrite Es; vm_compute; reflexivity|].
  split; [rewrite Eg, Eids, Es; vm_compute; reflexivity|].
  split; [exact Hsorted|].
  assert (Ex : ranked_sample = sorted) by (rewrite Es; vm_compute; reflexivity).
  apply Hunique; rewrite Ex; assumption.
Defined.

(* ================================================================= *)
(** * Further properties *)

(** ** [new Set] *)

Lemma new_Set_snoc l x :
  new_Set (l ++ [x]) = if includes (new_Set l) x then new_Set l else new_Set l ++ [x].
Proof. unfold new_Set. now rewrite fold_left_app. Qed.

Lemma new_Set_In l x : In x (new_Set l) <-> In x l.
Proof.
  induction l as [|y l IH] using rev_ind; [reflexivity|].
  rewrite new_Set_snoc, in_app_iff. simpl.
  destruct (includes (new_Set l) y) eqn:E.
  - apply includes_In in E. rewrite IH in *. intuition (subst; auto).
  - rewrite in_app_iff, IH. simpl. tauto.
Qed.

Lemma new_Set_NoDup l : NoDup (new_Set l).
Proof.
  induction l as [|y l IH] using rev_ind; [constructor|].
  rewrite new_Set_snoc. destruct (includes (new_Set l) y) eqn:E; auto.
  apply NoDup_app; auto.
  - repeat constructor. simpl. tauto.
  - intros x Hx [<-|[]]. apply includes_In in Hx. congruence.
Qed.

Lemma new_Set_of_NoDup l : NoDup l -> new_Set l = l.
Proof.
  induction l as [|y l IH] using rev_ind; [reflexivity|].
  intros H. rewrite new_Set_snoc.
  assert (Hl : NoDup l) by (eapply NoDup_app_remove_r; exact H).
  rewrite (IH Hl).
  destruct (includes l y) eqn:E; auto.
  exfalso. apply includes_In in E.
  apply NoDup_remove_2 with (l := l) (l' := []) in H. rewrite app_nil_r in H. auto.
Qed.

(** ** The merger, further *)

Lemma map_has_includes k m : map_has k m = includes (map fst m) k.
Proof.
  induction m as [|[k' v] m IH]; simpl; auto.
  unfold includes in *. simpl. now rewrite IH, Z.eqb_sym.
Qed.

Lemma merge_state_ids l : map fst (merge_state l) = new_Set (map movieId l).
Proof.
  induction l as [|rec l IH] using rev_ind; [reflexivity|].
  rewrite merge_state_snoc, map_app. change (map movieId [rec]) with [movieId rec].
  rewrite new_Set_snoc. unfold merge_step.
  rewrite map_has_includes, IH.
  destruct (includes (new_Set (map movieId l)) (movieId rec)).
  - now rewrite map_modify_keys.
  - unfold map_set_new. rewrite map_app. simpl. now rewrite IH.
Qed.

Lemma merge_state_of_distinct l :
  NoDup (map movieId l) -> merge_state l = map (fun rec => (movieId rec, rec)) l.
Proof.
  induction l as [|rec l IH] using rev_ind; [reflexivity|].
  rewrite map_app. simpl. intros H.
  assert (Hl : NoDup (map movieId l)) by (eapply NoDup_app_remove_r; exact H).
  rewrite merge_state_snoc, (IH Hl). unfold merge_step.
  rewrite map_has_includes, map_map. simpl.
  destruct (includes (map movieId l) (movieId rec)) eqn:E.
  - exfalso. apply includes_In in E.
    apply NoDup_remove_2 with (l := map movieId l) (l' := []) in H.
    rewrite app_nil_r in H. auto.
  - unfold map_set_new. now rewrite map_app.
Qed.

Lemma set_score_idempotent rec : set_score (set_score rec) = set_score rec.
Proof. reflexivity. Qed.

Lemma merge_of_distinct l :
  NoDup (map movieId l) -> mergeAndScoreRecommendations l = map set_score l.
Proof.
  intros H. unfold mergeAndScoreRecommendations, map_values.
  fold (merge_state l). rewrite (merge_state_of_distinct l H), !map_map. reflexivity.
Qed.

(** X1. The ids of the merger's output are the ids of its input, each once,
    in the order of their first occurrence: no candidate id is lost and
    none is invented. *)
Theorem merged_ids_first_occurrence :
  forall recommendations : list RecommendationScore,
    map movieId (mergeAndScoreRecommendations recommendations)
    = new_Set (map movieId recommendations) /\
    (forall k, In k (map movieId (mergeAndScoreRecommendations recommendations))
               <-> In k (map movieId recommendations)) /\
    (length (mergeAndScoreRecommendations recommendations) <= length recommendations)%nat.
Proof.
  intros recs. rewrite mergeAndScore_ids, merge_state_ids.
  split; [reflexivity|]. split; [intros k; apply new_Set_In|].
  unfold mergeAndScoreRecommendations, map_values. fold (merge_state recs).
  rewrite !length_map, <- (length_map fst), merge_state_ids.
  rewrite <- (length_map movieId recs).
  generalize (map movieId recs). intros l.
  induction l as [|y l IH] using rev_ind; [simpl; lia|].
  rewrite new_Set_snoc, length_app. simpl.
  destruct (includes (new_Set l) y); [lia|]. rewrite length_app. simpl. lia.
Qed.

(** X2. When no movie id occurs twice in the input, the merger returns the
    entries as they are, in the same order, with only [score] recomputed
    from the three fields. *)
Theorem merge_without_repeats :
  forall recommendations : list RecommendationScore,
    NoDup (map movieId recommendations) ->
    mergeAndScoreRecommendations recommendations = map set_score recommendations.
Proof. exact merge_of_distinct. Qed.

Lemma merge_without_repeats_witness :
  NoDup (map movieId distinct_entries) /\
  mergeAndScoreRecommendations distinct_entries
  = [ entry 7 (decimal 6 1) (decimal 6 1) zero zero;
      entry 9 (decimal 11 1) zero (decimal 11 1) zero;
      entry 3 (decimal 13 1) zero zero (decimal 13 1) ].
Proof.
  assert (H : NoDup (map movieId distinct_entries)).
  { repeat constructor; simpl; intuition discriminate. }
  split; [exact H|]. rewrite (merge_without_repeats distinct_entries H). reflexivity.
Defined.

(** X3. Merging is idempotent: merging the merger's output again changes
    nothing. *)
Theorem merge_idempotent :
  forall recommendations : list RecommendationScore,
    mergeAndScoreRecommendations (mergeAndScoreRecommendations recommendations)
    = mergeAndScoreRecommendations recommendations.
Proof.
  intros recs. rewrite merge_of_distinct.
  - unfold mergeAndScoreRecommendations. rewrite map_map. apply map_ext. reflexivity.
  - rewrite mergeAndScore_ids. apply merge_state_keys.
Qed.

(** X4. When every field of every candidate is a number that is neither NaN
    nor negative, so is every field and the score of every merged entry:
    the merger does not produce NaN. *)
Theorem merge_keeps_scores_well_formed :
  forall recommendations : list RecommendationScore,
    Forall entry_nonneg recommendations ->
    Forall (fun e => entry_nonneg e /\ nonneg (score e) /\ is_nan (score e) = false)
           (mergeAndScoreRecommendations recommendations).
Proof.
  intros recs Hrecs. apply Forall_forall. intros e Hin.
  pose proof (merged_scored Hrecs) as Hs. rewrite Forall_forall in Hs.
  specialize (Hs e Hin). unfold scored in Hs.
  split; [|split; [exact Hs|now apply FloatFacts.nonneg_not_nan]].
  destruct (mergeAndScore_In recs e Hin) as [v [Hv ->]].
  destruct (merge_state_entries recs _ _ Hv) as (_ & H1 & H2 & H3).
  repeat split; simpl.
  - eapply maximum_nonneg; [|exact H1].
    apply group_fields_nonneg; auto. intros r Hr. apply Hr.
  - eapply maximum_nonneg; [|exact H2].
    apply group_fields_nonneg; auto. intros r Hr. apply Hr.
  - eapply maximum_nonneg; [|exact H3].
    apply group_fields_nonneg; auto. intros r Hr. apply Hr.
Qed.

Lemma merge_keeps_scores_well_formed_witness :
  Forall entry_nonneg sample_entries /\
  Forall (fun e => entry_nonneg e /\ nonneg (score e) /\ is_nan (score e) = false)
         (mergeAndScoreRecommendations sample_entries).
Proof.
  assert (H : Forall entry_nonneg sample_entries).
  { repeat constructor; vm_compute; try tauto; try (intros E; discriminate E). }
  split; [exact H|]. exact (merge_keeps_scores_well_formed H).
Defined.

(* ================================================================= *)
(** ** The generators, further *)

Lemma collected_app provider A (f : list Movie -> list A) r1 : forall h r2,
  collected provider f h (r1 ++ r2)
  = collected provider f h r1 ++ collected provider f (h ++ r1) r2.
Proof.
  induction r1 as [|r r1 IH]; intros h r2; simpl.
  - now rewrite app_nil_r.
  - rewrite IH, <- !app_assoc. reflexivity.
Qed.

(** Where a collected item comes from. *)
Lemma collected_In provider A (f : list Movie -> list A) reqs : forall h x,
  In x (collected provider f h reqs) ->
  exists before request after page,
    reqs = before ++ request :: after /\
    provider (h ++ before) request = Some page /\
    In x (f page).
Proof.
  induction reqs as [|r rs IH]; intros h x Hin; simpl in Hin; [destruct Hin|].
  apply in_app_iff in Hin. destruct Hin as [Hin|Hin].
  - destruct (provider h r) as [page|] eqn:E; [|destruct Hin].
    exists [], r, rs, page. rewrite app_nil_r. auto.
  - destruct (IH _ _ Hin) as (before & request & after & page & -> & Hp & Hx).
    exists (r :: before), request, after, page. rewrite <- app_assoc in Hp. auto.
Qed.

(** A loop of guarded calls, each appending [f results] to the array. *)
Lemma for_of_guarded provider A X (u : X -> string) (ps : X -> list (string * ParamValue))
    (f : list Movie -> list A) xs : forall acc w,
  for_of xs
    (fun x acc =>
       try_catch (results <- axios_get provider (u x) (ps x) ;; ret (acc ++ f results))
                 (fun _ => ret acc))
    acc w
  = (Ok (acc ++ collected provider f (requests w)
                  (map (fun x => {| url := u x; params := ps x |}) xs)),
     log_extend w (map (fun x => {| url := u x; params := ps x |}) xs)).
Proof.
  induction xs as [|x xs IH]; intros acc w; simpl.
  - unfold ret. now rewrite app_nil_r, log_extend_nil.
  - unfold bind at 1. unfold try_catch at 1. unfold bind at 1. unfold axios_get at 1.
    set (r := {| url := u x; params := ps x |}).
    destruct (provider (requests w) r) as [page|]; unfold ret.
    + rewrite IH. simpl requests. rewrite <- app_assoc.
      unfold log_extend. simpl. now rewrite <- app_assoc.
    + rewrite IH. simpl requests. rewrite app_nil_l.
      unfold log_extend. simpl. now rewrite <- app_assoc.
Qed.

Lemma guarded_call_collected provider A (f : list Movie -> list A) u ps w :
  try_catch (results <- axios_get provider u ps ;; ret (f results)) (fun _ => ret []) w
  = (Ok (collected provider f (requests w) [{| url := u; params := ps |}]),
     log_extend w [{| url := u; params := ps |}]).
Proof.
  rewrite guarded_call. simpl. now rewrite app_nil_r.
Qed.

Section GeneratorRuns.
Variable apiKey : string.
Variable provider : Provider.

Lemma country_run user w :
  getCountryBasedRecommendations apiKey provider user w
  = (Ok (collected provider (map (fun movie => candidate movie zero zero (decimal 13 1)))
           (requests w) (countryRequests apiKey user)),
     log_extend w (countryRequests apiKey user)).
Proof.
  unfold getCountryBasedRecommendations, countryRequests, truthy.
  destruct (country_of user) as [c|].
  - destruct (String.eqb c ""); simpl negb; cbv iota.
    + unfold ret. now rewrite log_extend_nil.
    + apply guarded_call_collected.
  - simpl. unfold ret. now rewrite log_extend_nil.
Qed.

Lemma genre_run user w :
  getGenreBasedRecommendations apiKey provider user w
  = (Ok (collected provider (map (genre_candidate (genres_of user)))
           (requests w) (genreRequests apiKey user)),
     log_extend w (genreRequests apiKey user)).
Proof.
  unfold getGenreBasedRecommendations, genreRequests.
  destruct (genres_of user) as [|g gs].
  - simpl. unfold ret. now rewrite log_extend_nil.
  - cbv zeta. change (length (g :: gs) =? 0)%nat with false. cbv iota.
    apply guarded_call_collected.
Qed.

Lemma language_run user w :
  getLanguageBasedRecommendations apiKey provider user w
  = (Ok (collected provider (map (fun movie => candidate movie zero (decimal 11 1) zero))
           (requests w) (languageRequests apiKey user)),
     log_extend w (languageRequests apiKey user)).
Proof.
  unfold getLanguageBasedRecommendations, languageRequests.
  destruct (languages_of user) as [|l ls].
  - simpl. unfold ret. now rewrite log_extend_nil.
  - cbv zeta. change (length (l :: ls) =? 0)%nat with false. cbv iota.
    exact (for_of_guarded provider
             (fun _ : string => (tmdbBaseUrl ++ "/discover/movie")%string)
             (fun language => [("api_key", PStr apiKey);
                               ("with_original_language", PStr language);
                               ("sort_by", PStr "vote_average.desc");
                               ("vote_count.gte", PNum (ofZ 100));
                               ("page", PNum (ofZ 1))])
             (map (fun movie => candidate movie zero (decimal 11 1) zero))
             (l :: ls) [] w).
Qed.

Lemma level_run level w :
  getLevelBasedRecommendations apiKey provider level w
  = (Ok (collected provider (map (fun movie => candidate movie zero zero (decimal 10 1)))
           (requests w) [levelRequest apiKey level]),
     log_extend w [levelRequest apiKey level]).
Proof.
  unfold getLevelBasedRecommendations, levelRequest, levelProfile, discoverUrl.
  repeat match goal with |- context [if ?c then _ else _] => destruct c end;
    apply guarded_call_collected.
Qed.

Lemma collaborative_run userId w :
  getCollaborativeRecommendations apiKey provider userId w
  = (Ok (collected provider
           (fun results =>
              map (fun movie => candidate movie zero zero (decimal 15 1))
                  (filter (fun movie =>
                             negb (includes (interactions (store w) userId) (id movie)))
                          results))
           (requests w) (similarRequests apiKey (store w) userId)),
     log_extend w (similarRequests apiKey (store w) userId)).
Proof.
  unfold getCollaborativeRecommendations, similarRequests.
  unfold try_catch at 1. unfold bind at 1 2 3. unfold read_store. cbv zeta beta iota.
  fold (interactions (store w) userId).
  destruct (interactions (store w) userId) as [|k ks] eqn:E.
  - simpl. unfold ret. now rewrite log_extend_nil.
  - change (length (k :: ks) =? 0)%nat with false. cbv iota.
    rewrite (for_of_guarded provider
               (fun movieId => (tmdbBaseUrl ++ "/movie/" ++ string_of_Z movieId ++ "/similar")%string)
               (fun _ : Z => [("api_key", PStr apiKey);
                              ("language", PStr "en-US");
                              ("page", PNum (ofZ 1))])
               (fun results =>
                  map (fun movie => candidate movie zero zero (decimal 15 1))
                      (filter (fun movie => negb (includes (k :: ks) (id movie))) results))
               (firstn 3 (k :: ks)) [] w).
    reflexivity.
Qed.

Lemma trending_run w :
  getTrendingRecommendations apiKey provider w
  = (Ok (collected provider (map (fun movie => candidate movie zero zero (decimal 8 1)))
           (requests w) [trendingRequest apiKey]),
     log_extend w [trendingRequest apiKey]).
Proof. unfold getTrendingRecommendations. apply guarded_call_collected. Qed.

End GeneratorRuns.

Lemma collected_page_In provider A (f : list Movie -> list A) before request after page x :
  forall h,
    provider (h ++ before) request = Some page -> In x (f page) ->
    In x (collected provider f h (before ++ request :: after)).
Proof.
  intros h Hp Hx. rewrite collected_app. apply in_or_app. right.
  simpl. rewrite Hp. apply in_or_app. now left.
Qed.

Lemma collected_down provider A (f : list Movie -> list A) reqs :
  provider_down provider -> forall h, collected provider f h reqs = [].
Proof.
  intros Hd. induction reqs as [|r rs IH]; intros h; simpl; [reflexivity|].
  now rewrite Hd, IH.
Qed.

Lemma collected_history provider A (f : list Movie -> list A) reqs :
  history_independent provider ->
  forall h h', collected provider f h reqs = collected provider f h' reqs.
Proof.
  intros Hi. induction reqs as [|r rs IH]; intros h h'; simpl; [reflexivity|].
  now rewrite (Hi h h'), (IH (h ++ [r]) (h' ++ [r])).
Qed.

Lemma answered_with_intro provider w new before request after page movie :
  new = before ++ request :: after ->
  provider (requests w ++ before) request = Some page ->
  In movie page ->
  answered_with provider w new movie.
Proof. intros. exists before, request, after, page. auto. Qed.

(** X5. The language generator asks once per preferred language, in the
    order of the list, and returns the answered pages one after the other,
    every movie as an entry with [languageMatch = 1.1] and nothing else; a
    failed call contributes nothing and loses nothing of the other
    languages; the generator never throws and leaves the database alone. *)
Theorem language_generator_collects :
  forall (apiKey : string) (provider : Provider) (user : Schema.User) (w : World),
    let asked := map (languageRequest apiKey) (languages_of user) in
    exists out,
      getLanguageBasedRecommendations apiKey provider user w = (Ok out, log_extend w asked) /\
      length asked = length (languages_of user) /\
      out = collected provider
              (map (fun movie => candidate movie zero (decimal 11 1) zero))
              (requests w) asked /\
      (forall e,
         In e out <->
         exists before language after page movie,
           languages_of user = before ++ language :: after /\
           provider (requests w ++ map (languageRequest apiKey) before)
                    (languageRequest apiKey language) = Some page /\
           In movie page /\
           e = candidate movie zero (decimal 11 1) zero).
Proof.
  intros apiKey provider user w asked.
  eexists. split; [apply language_run|]. split; [apply length_map|].
  split; [reflexivity|]. intros e. split.
  - intros Hin. apply collected_In in Hin.
    destruct Hin as (before & request & after & page & E & Hp & Hx).
    unfold asked in E. apply map_eq_app in E.
    destruct E as (lb & lr & El & <- & Er).
    destruct lr as [|language la]; [discriminate|]. simpl in Er.
    injection Er as <- <-.
    apply in_map_iff in Hx. destruct Hx as (movie & <- & Hm).
    exists lb, language, la, page, movie. auto.
  - intros (before & language & after & page & movie & El & Hp & Hm & ->).
    unfold asked, languageRequests. rewrite El, map_app. simpl map.
    eapply collected_page_In; [exact Hp|].
    exact (in_map (fun movie => candidate movie zero (decimal 11 1) zero) _ _ Hm).
Qed.

Lemma first_language_or_en_spec user :
  first_language_or_en user <> "" /\
  (first_language_or_en user = "en" \/
   exists rest, languages_of user = first_language_or_en user :: rest).
Proof.
  unfold first_language_or_en, languages_of.
  destruct (Schema.preferences user) as [p|]; [|split; [discriminate|now left]].
  destruct (Schema.languages p) as [[|l rest]|]; try (split; [discriminate|now left]).
  destruct (String.eqb_spec l ""); [split; [discriminate|now left]|].
  split; [assumption|]. right. now exists rest.
Qed.

(** X6. The country generator does nothing for a user without a country
    (none stored, or the empty string): no request, no entry.  Otherwise it
    issues one request for the region, restricted to one original language
    that is never empty: the user's first language, or [en] when there is
    none; the entries are the movies of the answer with
    [collaborativeScore = 1.3], none when the call fails. *)
Theorem country_generator_request :
  forall (apiKey : string) (provider : Provider) (user : Schema.User) (w : World),
    (truthy (country_of user) = false ->
     getCountryBasedRecommendations apiKey provider user w = (Ok [], w)) /\
    (forall c,
       country_of user = Some c -> c <> "" ->
       let language := first_language_or_en user in
       language <> "" /\
       (language = "en" \/ exists rest, languages_of user = language :: rest) /\
       getCountryBasedRecommendations apiKey provider user w
       = (Ok (match provider (requests w) (countryRequest apiKey c language) with
              | Some page =>
                  map (fun movie => candidate movie zero zero (decimal 13 1)) page
              | None => []
              end),
          log_extend w [countryRequest apiKey c language])).
Proof.
  intros apiKey provider user w. split.
  - intros H. unfold getCountryBasedRecommendations. now rewrite H.
  - intros c Hc Hne. cbv zeta.
    destruct (first_language_or_en_spec user) as [H1 H2].
    split; [exact H1|]. split; [exact H2|].
    unfold getCountryBasedRecommendations, truthy. rewrite Hc.
    destruct (String.eqb_spec c ""); [contradiction|]. simpl negb. cbv iota.
    apply guarded_call.
Qed.

Lemma country_generator_request_witness :
  country_of polyglot = Some "FR" /\
  getCountryBasedRecommendations "key" (constant_provider 2) polyglot fan_world
    = (Ok [candidate (movie_of 1 [28; 16]) zero zero (decimal 13 1);
           candidate (movie_of 2 [28; 16]) zero zero (decimal 13 1)],
       log_extend fan_world [countryRequest "key" "FR" "fr"]) /\
  truthy (country_of plain_user) = false /\
  getCountryBasedRecommendations "key" (constant_provider 2) plain_user fan_world
    = (Ok [], fan_world).
Proof.
  assert (Hc : country_of polyglot = Some "FR") by reflexivity.
  assert (Hn : truthy (country_of plain_user) = false) by reflexivity.
  split; [exact Hc|].
  destruct (country_generator_request "key" (constant_provider 2) polyglot fan_world)
    as [_ H].
  destruct (H "FR" Hc) as (_ & _ & E); [discriminate|].
  split; [rewrite E; reflexivity|]. split; [exact Hn|].
  exact (proj1 (country_generator_request "key" (constant_provider 2) plain_user fan_world)
           Hn).
Defined.

Lemma interactions_In db userId k :
  In k (interactions db userId) <->
  In k (Storage.getWatchedMovies db userId) \/
  (exists row, In row (Storage.getUserRatings db userId) /\
               Schema.rating_movieId row = k /\ 7 <= Schema.rating row) \/
  In k (Storage.getUserLikes db userId).
Proof.
  unfold interactions. rewrite new_Set_In, !in_app_iff, in_map_iff.
  split.
  - intros [H|[(row & E & Hr)|H]]; auto.
    apply filter_In in Hr. destruct Hr as [Hr Hge].
    right. left. exists row. repeat split; auto. lia.
  - intros [H|[(row & Hr & E & Hge)|H]]; auto.
    right. left. exists row. split; [exact E|]. apply filter_In. split; [exact Hr|lia].
Qed.

(** X7. The collaborative generator looks for movies similar to the first
    three movies the user has interacted with (watched, rated 7 or more, or
    liked; each movie once), so it issues at most three requests, and none
    for a user without interactions.  It never proposes a movie the user has
    interacted with; every entry has [collaborativeScore = 1.5] and nothing
    else, and is a movie of an answered page.  It never throws. *)
Theorem collaborative_generator_excludes_seen :
  forall (apiKey : string) (provider : Provider) (userId : Z) (w : World),
    let db := store w in
    let seen := interactions db userId in
    let asked := map (similarRequest apiKey) (firstn 3 seen) in
    exists out,
      getCollaborativeRecommendations apiKey provider userId w = (Ok out, log_extend w asked) /\
      (length asked <= 3)%nat /\
      (length asked <= length seen)%nat /\
      NoDup seen /\
      (forall k,
         In k seen <->
         In k (Storage.getWatchedMovies db userId) \/
         (exists row, In row (Storage.getUserRatings db userId) /\
                      Schema.rating_movieId row = k /\ 7 <= Schema.rating row) \/
         In k (Storage.getUserLikes db userId)) /\
      Forall (fun e =>
                ~ In (movieId e) seen /\
                collaborativeScore e = decimal 15 1 /\
                genreMatch e = zero /\ languageMatch e = zero /\ score e = zero /\
                exists movie,
                  movieId e = id movie /\ answered_with provider w asked movie) out.
Proof.
  intros apiKey provider userId w db seen asked.
  eexists. split; [apply collaborative_run|].
  split; [unfold asked; rewrite length_map; apply firstn_le_length|].
  split; [unfold asked; rewrite length_map, length_firstn; lia|].
  split; [apply new_Set_NoDup|]. split; [apply interactions_In|].
  apply Forall_forall. intros e Hin. apply collected_In in Hin.
  destruct Hin as (before & request & after & page & E & Hp & Hx).
  apply in_map_iff in Hx. destruct Hx as (movie & <- & Hm).
  apply filter_In in Hm. destruct Hm as [Hm Hnot].
  split.
  - simpl. intros Hseen. apply includes_In in Hseen.
    fold db in Hnot. fold seen in Hnot. rewrite Hseen in Hnot. discriminate.
  - repeat (split; [reflexivity|]). exists movie. split; [reflexivity|].
    eapply answered_with_intro; eauto.
Qed.

(** The generator on the sample database: user 3 has interacted with the
    movies 10, 11 and 13 (movie 12 was rated 5 only), so of every answered
    page only movie 12 is kept. *)
Example collaborative_sample_run :
  interactions fan_store 3 = [10; 11; 13] /\
  exists out w',
    getCollaborativeRecommendations "key" similar_provider 3 fan_world = (Ok out, w') /\
    map movieId out = [12; 12; 12] /\
    requests w' = map (similarRequest "key") [10; 11; 13].
Proof.
  split; [reflexivity|]. do 2 eexists. split; [reflexivity|]. split; reflexivity.
Qed.

(* ================================================================= *)
(** ** A whole generation run, in closed form *)

Section RunFacts.
Variable apiKey : string.
Variable provider : Provider.

Lemma collectSignals_run userId user w :
  collectSignals apiKey provider userId user w
  = (Ok (signals_of apiKey provider userId user w),
     log_extend w (signalRequests apiKey userId user (store w))).
Proof.
  unfold collectSignals. unfold bind at 1. unfold read_store. cbv beta iota.
  unfold bind at 1. rewrite country_run. cbv beta iota.
  unfold bind at 1. rewrite genre_run. cbv beta iota.
  unfold bind at 1. rewrite language_run. cbv beta iota.
  unfold bind at 1. rewrite level_run. cbv beta iota.
  unfold bind at 1. rewrite collaborative_run. cbv beta iota.
  unfold ret. rewrite !log_extend_app.
  unfold signals_of, signalRequests, log_extend. cbn [store requests].
  rewrite !app_nil_l, <- !app_assoc. reflexivity.
Qed.

Lemma withTrendingFallback_run signals w :
  withTrendingFallback apiKey provider signals w
  = (Ok (if (length signals <? 20)%nat
         then signals
              ++ collected provider
                   (map (fun movie => candidate movie zero zero (decimal 8 1)))
                   (requests w) [trendingRequest apiKey]
         else signals),
     log_extend w (if (length signals <? 20)%nat then [trendingRequest apiKey] else [])).
Proof.
  unfold withTrendingFallback. destruct (length signals <? 20)%nat.
  - unfold bind. now rewrite trending_run.
  - unfold ret. now rewrite log_extend_nil.
Qed.

Lemma saveAll_run userId sorted : forall w,
  saveAll userId sorted w
  = (Ok tt, {| store := saved userId sorted (store w); requests := requests w |}).
Proof.
  unfold saveAll, saved. induction sorted as [|rec l IH]; intros w; simpl.
  - destruct w. reflexivity.
  - unfold bind at 1. unfold write_store at 1. rewrite IH. reflexivity.
Qed.

Lemma rankedRecommendations_run userId user w :
  rankedRecommendations apiKey provider userId user w
  = (Ok (ranked_of apiKey provider userId user w),
     log_extend (cleared w userId) (runRequests apiKey provider userId user w)).
Proof.
  unfold rankedRecommendations. unfold bind at 1. unfold write_store. cbv beta iota.
  fold (cleared w userId).
  unfold bind at 1. rewrite collectSignals_run. cbv beta iota.
  unfold bind at 1. rewrite withTrendingFallback_run. cbv beta iota.
  unfold ret. rewrite log_extend_app. reflexivity.
Qed.

Lemma generate_run userId user w :
  Storage.getUser (store w) userId = Some user ->
  generateRecommendationsForUser apiKey provider userId w
  = (Ok (map movieId (ranked_of apiKey provider userId user w)),
     {| store := saved userId (ranked_of apiKey provider userId user w)
                   (Storage.clearUserRecommendations (store w) userId);
        requests := requests w ++ runRequests apiKey provider userId user w |}).
Proof.
  intros Hu. unfold generateRecommendationsForUser.
  unfold bind at 1. unfold read_store. rewrite Hu. cbv beta iota.
  unfold bind at 1. rewrite rankedRecommendations_run. cbv beta iota.
  unfold bind at 1. rewrite saveAll_run. reflexivity.
Qed.

End RunFacts.

(** *** What a run stores *)

Lemma cleared_has_no_pair db userId k :
  existsb (Storage.same_pair userId k)
          (userMovieRecommendations (Storage.clearUserRecommendations db userId)) = false.
Proof.
  simpl. induction (userMovieRecommendations db) as [|row rows IH]; simpl; [reflexivity|].
  destruct (Schema.rec_userId row =? userId) eqn:E; simpl; [exact IH|].
  unfold Storage.same_pair at 1. rewrite E. simpl. exact IH.
Qed.

Lemma saved_fresh userId sorted : forall db,
  NoDup (map movieId sorted) ->
  (forall rec, In rec sorted ->
     existsb (Storage.same_pair userId (movieId rec)) (userMovieRecommendations db) = false) ->
  saved userId sorted db
  = Storage.set_recommendations db
      (userMovieRecommendations db ++ map (row_of userId) sorted).
Proof.
  induction sorted as [|rec l IH]; intros db Hnd Hfresh.
  - simpl. rewrite app_nil_r. destruct db. reflexivity.
  - change (saved userId (rec :: l) db)
      with (saved userId l
              (Storage.saveRecommendation db userId (movieId rec) (score rec)
                 (Some (genreMatch rec)) (Some (languageMatch rec))
                 (Some (collaborativeScore rec)))).
    unfold Storage.saveRecommendation. rewrite (Hfresh rec (or_introl eq_refl)).
    fold (row_of userId rec).
    inversion Hnd as [|? ? Hnotin Hnd']; subst.
    rewrite IH.
    + simpl. rewrite <- app_assoc. reflexivity.
    + exact Hnd'.
    + intros rec' Hin. simpl userMovieRecommendations. rewrite existsb_app.
      rewrite (Hfresh rec' (or_intror Hin)). simpl.
      unfold Storage.same_pair. simpl.
      destruct (Z.eqb_spec (movieId rec) (movieId rec')) as [E|];
        [|now rewrite andb_false_r].
      exfalso. apply Hnotin. rewrite E. now apply in_map.
Qed.

Lemma merged_ids_NoDup recs : NoDup (map movieId (mergeAndScoreRecommendations recs)).
Proof. rewrite mergeAndScore_ids, merge_state_ids. apply new_Set_NoDup. Qed.

Lemma ranked_ids_NoDup recs :
  NoDup (map movieId (array_sort byScoreDescending (mergeAndScoreRecommendations recs))).
Proof.
  eapply Permutation_NoDup; [|apply merged_ids_NoDup].
  apply Permutation_map, Permutation_sym, array_sort_perm.
Qed.

Lemma saved_after_clear userId recs db :
  let sorted := array_sort byScoreDescending (mergeAndScoreRecommendations recs) in
  saved userId sorted (Storage.clearUserRecommendations db userId)
  = Storage.set_recommendations db
      (rows_of_others userId (userMovieRecommendations db) ++ map (row_of userId) sorted).
Proof.
  intros sorted. rewrite saved_fresh.
  - reflexivity.
  - apply ranked_ids_NoDup.
  - intros rec _. apply cleared_has_no_pair.
Qed.

Lemma rows_of_others_app userId a b :
  rows_of_others userId (a ++ b) = rows_of_others userId a ++ rows_of_others userId b.
Proof. apply filter_app. Qed.

Lemma rows_of_others_new userId l : rows_of_others userId (map (row_of userId) l) = [].
Proof.
  induction l as [|rec l IH]; simpl; [reflexivity|]. now rewrite Z.eqb_refl.
Qed.

Lemma rows_of_others_twice userId rows :
  rows_of_others userId (rows_of_others userId rows) = rows_of_others userId rows.
Proof.
  unfold rows_of_others. induction rows as [|row rows IH]; simpl; [reflexivity|].
  destruct (Schema.rec_userId row =? userId) eqn:E; simpl; [exact IH|].
  rewrite E. simpl. now rewrite IH.
Qed.

Lemma rows_of_user_others userId rows :
  rows_of_user userId (rows_of_others userId rows) = [].
Proof.
  unfold rows_of_user, rows_of_others.
  induction rows as [|row rows IH]; simpl; [reflexivity|].
  destruct (Schema.rec_userId row =? userId) eqn:E; simpl; [exact IH|].
  now rewrite E.
Qed.

Lemma rows_of_user_new userId l :
  rows_of_user userId (map (row_of userId) l) = map (row_of userId) l.
Proof.
  unfold rows_of_user. induction l as [|rec l IH]; simpl; [reflexivity|].
  rewrite Z.eqb_refl. now rewrite IH.
Qed.

(** X8. A successful run replaces the stored recommendations of the user
    and of nobody else: afterwards the table holds the rows of the other
    users as they were and in their order, followed by one row per returned
    movie, in rank order, carrying the entry's score and three signals and
    the flag [recommended]; the other tables are untouched. *)
Theorem run_replaces_the_users_rows :
  forall (apiKey : string) (provider : Provider) (userId : Z)
         (user : Schema.User) (w : World),
    Storage.getUser (store w) userId = Some user ->
    exists sorted w1 w2,
      rankedRecommendations apiKey provider userId user w = (Ok sorted, w1) /\
      generateRecommendationsForUser apiKey provider userId w
        = (Ok (map movieId sorted), w2) /\
      userMovieRecommendations (store w2)
        = rows_of_others userId (userMovieRecommendations (store w))
          ++ map (row_of userId) sorted /\
      rows_of_others userId (userMovieRecommendations (store w2))
        = rows_of_others userId (userMovieRecommendations (store w)) /\
      map Schema.rec_movieId (rows_of_user userId (userMovieRecommendations (store w2)))
        = map movieId sorted /\
      users (store w2) = users (store w) /\
      watchedMovies (store w2) = watchedMovies (store w) /\
      movieRatings (store w2) = movieRatings (store w) /\
      movieLikes (store w2) = movieLikes (store w).
Proof.
  intros apiKey provider userId user w Hu.
  do 3 eexists. split; [apply rankedRecommendations_run|].
  split; [apply (generate_run apiKey provider userId w Hu)|].
  cbn [store]. unfold ranked_of. rewrite saved_after_clear. cbn [userMovieRecommendations
    Storage.set_recommendations users watchedMovies movieRatings movieLikes].
  split; [reflexivity|]. split.
  - now rewrite rows_of_others_app, rows_of_others_twice, rows_of_others_new, app_nil_r.
  - split; [|auto].
    unfold rows_of_user at 1. rewrite filter_app.
    fold (rows_of_user userId (rows_of_others userId (userMovieRecommendations (store w)))).
    rewrite rows_of_user_others. simpl app.
    match goal with |- context [filter _ (map (row_of userId) ?l)] =>
      change (filter (fun row => Schema.rec_userId row =? userId) (map (row_of userId) l))
        with (rows_of_user userId (map (row_of userId) l)) end.
    rewrite rows_of_user_new, map_map. reflexivity.
Qed.

Lemma run_replaces_the_users_rows_witness :
  Storage.getUser (store sample_world) 2 = Some genre_user /\
  exists w2,
    generateRecommendationsForUser "key" sample_provider 2 sample_world
      = (Ok [2; 1; 3; 4], w2) /\
    map (fun row => (Schema.rec_userId row, Schema.rec_movieId row))
        (userMovieRecommendations (store w2))
      = [(1, 603); (2, 2); (2, 1); (2, 3); (2, 4)] /\
    map Schema.rec_score (rows_of_user 2 (userMovieRecommendations (store w2)))
      = [decimal 20 1; decimal 16 1; decimal 10 1; decimal 8 1].
Proof.
  assert (Hu : Storage.getUser (store sample_world) 2 = Some genre_user) by reflexivity.
  split; [exact Hu|].
  destruct (run_replaces_the_users_rows "key" sample_provider 2 sample_world Hu)
    as (sorted & w1 & w2 & Er & Eg & Erows & _).
  vm_compute in Er. injection Er as <- _.
  exists w2. split; [exact Eg|]. rewrite Erows. split; vm_compute; reflexivity.
Defined.

Lemma NoDup_map_filter A B (g : A -> B) (f : A -> bool) l :
  NoDup (map g l) -> NoDup (map g (filter f l)).
Proof.
  induction l as [|a l IH]; simpl; intros H; [constructor|].
  inversion H as [|? ? Hnotin Hnd]; subst.
  destruct (f a); simpl; [|auto]. constructor; [|auto].
  intros Hin. apply Hnotin. apply in_map_iff in Hin.
  destruct Hin as (x & E & Hx). apply filter_In in Hx.
  apply in_map_iff. exists x. tauto.
Qed.

Lemma new_rows_one_per_pair userId l :
  NoDup (map movieId l) -> one_row_per_pair (map (row_of userId) l).
Proof.
  unfold one_row_per_pair. rewrite map_map. simpl.
  induction l as [|rec l IH]; simpl; intros H; [constructor|].
  inversion H as [|? ? Hnotin Hnd]; subst. constructor; [|auto].
  intros Hin. apply Hnotin. apply in_map_iff in Hin.
  destruct Hin as (x & E & Hx). injection E as E. rewrite <- E. now apply in_map.
Qed.

(** X9. A run never returns a movie twice, and it leaves the user with one
    stored row per returned movie, whatever the table held for the user
    before; a table with at most one row per (user, movie) keeps that
    property. *)
Theorem run_keeps_one_row_per_movie :
  forall (apiKey : string) (provider : Provider) (userId : Z)
         (user : Schema.User) (w : World),
    Storage.getUser (store w) userId = Some user ->
    exists ids w2,
      generateRecommendationsForUser apiKey provider userId w = (Ok ids, w2) /\
      NoDup ids /\
      one_row_per_pair (rows_of_user userId (userMovieRecommendations (store w2))) /\
      length (rows_of_user userId (userMovieRecommendations (store w2))) = length ids /\
      (one_row_per_pair (userMovieRecommendations (store w)) ->
       one_row_per_pair (userMovieRecommendations (store w2))).
Proof.
  intros apiKey provider userId user w Hu.
  do 2 eexists. split; [apply (generate_run apiKey provider userId w Hu)|].
  unfold ranked_of. cbn [store]. rewrite saved_after_clear.
  cbn [userMovieRecommendations Storage.set_recommendations].
  set (recs := candidates_of apiKey provider userId user w).
  assert (Hnd := ranked_ids_NoDup recs).
  assert (Hu' : rows_of_user userId
                  (rows_of_others userId (userMovieRecommendations (store w))
                   ++ map (row_of userId)
                        (array_sort byScoreDescending (mergeAndScoreRecommendations recs)))
                = map (row_of userId)
                    (array_sort byScoreDescending (mergeAndScoreRecommendations recs))).
  { unfold rows_of_user at 1. rewrite filter_app.
    fold (rows_of_user userId (rows_of_others userId (userMovieRecommendations (store w)))).
    rewrite rows_of_user_others. simpl app. apply rows_of_user_new. }
  split; [exact Hnd|]. rewrite Hu'.
  split; [now apply new_rows_one_per_pair|].
  split; [now rewrite !length_map|].
  intros Hold. unfold one_row_per_pair. rewrite map_app. apply NoDup_app.
  - now apply NoDup_map_filter.
  - now apply new_rows_one_per_pair.
  - intros [u k] Hin Hin'. apply in_map_iff in Hin. destruct Hin as (row & E & Hrow).
    apply filter_In in Hrow. destruct Hrow as [_ Hother].
    rewrite map_map in Hin'. apply in_map_iff in Hin'. destruct Hin' as (rec & E' & _).
    simpl in E'. injection E as Eu _. injection E' as Eu' _.
    rewrite <- Eu' in Eu. rewrite Eu, Z.eqb_refl in Hother. discriminate.
Qed.

Lemma run_keeps_one_row_per_movie_witness :
  Storage.getUser (store sample_world) 2 = Some genre_user /\
  one_row_per_pair (userMovieRecommendations (store sample_world)) /\
  exists ids w2,
    generateRecommendationsForUser "key" sample_provider 2 sample_world = (Ok ids, w2) /\
    NoDup ids /\
    one_row_per_pair (userMovieRecommendations (store w2)).
Proof.
  assert (Hu : Storage.getUser (store sample_world) 2 = Some genre_user) by reflexivity.
  assert (Hold : one_row_per_pair (userMovieRecommendations (store sample_world))).
  { repeat constructor. intros []. }
  split; [exact Hu|]. split; [exact Hold|].
  destruct (run_keeps_one_row_per_movie "key" sample_provider 2 sample_world Hu)
    as (ids & w2 & E & Hnd & _ & _ & Hkeep).
  exists ids, w2. auto.
Defined.

Lemma signals_down apiKey provider userId user w :
  provider_down provider -> signals_of apiKey provider userId user w = [].
Proof.
  intros Hd. unfold signals_of. cbv zeta.
  now rewrite !(fun A (f : list Movie -> list A) reqs h =>
                  @collected_down provider A f reqs Hd h).
Qed.

(** X10. When the provider is down (every call fails) a run for a stored
    user still succeeds: it returns no movie, after having asked every
    generator's request and the trending request, and it leaves the user
    without any stored recommendation: the rows cleared at the start are not
    restored. *)
Theorem outage_clears_the_users_rows :
  forall (apiKey : string) (provider : Provider) (userId : Z)
         (user : Schema.User) (w : World),
    provider_down provider ->
    Storage.getUser (store w) userId = Some user ->
    generateRecommendationsForUser apiKey provider userId w
    = (Ok [],
       {| store := Storage.clearUserRecommendations (store w) userId;
          requests := requests w
                      ++ signalRequests apiKey userId user (store w)
                      ++ [trendingRequest apiKey] |}).
Proof.
  intros apiKey provider userId user w Hd Hu.
  rewrite (generate_run apiKey provider userId w Hu).
  unfold ranked_of, runRequests, candidates_of. cbv zeta.
  rewrite (signals_down apiKey userId user w Hd).
  change (length (@nil RecommendationScore) <? 20)%nat with true. cbv iota.
  rewrite (@collected_down provider _ _ _ Hd). reflexivity.
Qed.

Lemma outage_clears_the_users_rows_witness :
  provider_down failing_provider /\
  Storage.getUser (store sample_world) 1 = Some plain_user /\
  userMovieRecommendations (store sample_world) = [stored_row] /\
  exists w2,
    generateRecommendationsForUser "key" failing_provider 1 sample_world = (Ok [], w2) /\
    userMovieRecommendations (store w2) = [] /\
    length (requests w2) = 2%nat.
Proof.
  assert (Hd : provider_down failing_provider) by (intros h r; reflexivity).
  assert (Hu : Storage.getUser (store sample_world) 1 = Some plain_user) by reflexivity.
  split; [exact Hd|]. split; [exact Hu|]. split; [reflexivity|].
  eexists. split; [exact (outage_clears_the_users_rows "key" 1 sample_world Hd Hu)|].
  split; reflexivity.
Defined.

Lemma getUserLevel_of_user db userId user :
  Storage.getUser db userId = Some user ->
  Storage.getUserLevel db userId
  = match Schema.level user with
    | Some l => if String.eqb l "" then "Beginner" else l
    | None => "Beginner"
    end.
Proof. intros H. unfold Storage.getUserLevel. now rewrite H. Qed.

Lemma signalRequests_length apiKey userId user db :
  (length (languages_of user) + 1 <= length (signalRequests apiKey userId user db)
   <= length (languages_of user) + 6)%nat.
Proof.
  unfold signalRequests. rewrite !length_app.
  assert (H1 : (length (countryRequests apiKey user) <= 1)%nat).
  { unfold countryRequests. destruct (country_of user) as [c|]; [|simpl; lia].
    destruct (String.eqb c ""); simpl; lia. }
  assert (H2 : (length (genreRequests apiKey user) <= 1)%nat).
  { unfold genreRequests. destruct (genres_of user); simpl; lia. }
  assert (H3 : length (languageRequests apiKey user) = length (languages_of user)).
  { apply length_map. }
  assert (H4 : (length (similarRequests apiKey db userId) <= 3)%nat).
  { unfold similarRequests. rewrite length_map. apply firstn_le_length. }
  simpl length. lia.
Qed.

(** X11. The requests of a run: a run for a stored user issues at least
    one request per preferred language and one more, and never more than
    the number of preferred languages plus seven (country, genres, level,
    three similar-movie requests, trending).  The level request is always
    among them, with the profile of the stored level, and with the Beginner
    profile when the stored level is null or empty. *)
Theorem run_request_budget :
  forall (apiKey : string) (provider : Provider) (userId : Z)
         (user : Schema.User) (w : World),
    Storage.getUser (store w) userId = Some user ->
    exists ids w2,
      generateRecommendationsForUser apiKey provider userId w = (Ok ids, w2) /\
      requests w2 = requests w ++ issued w w2 /\
      (length (languages_of user) + 1 <= length (issued w w2)
       <= length (languages_of user) + 7)%nat /\
      In {| url := discoverUrl;
            params := levelProfile apiKey
                        (match Schema.level user with
                         | Some l => if String.eqb l "" then "Beginner" else l
                         | None => "Beginner"
                         end) |}
         (issued w w2).
Proof.
  intros apiKey provider userId user w Hu.
  do 2 eexists. split; [apply (generate_run apiKey provider userId w Hu)|].
  rewrite issued_append. cbn [requests]. split; [reflexivity|].
  unfold runRequests. rewrite length_app.
  pose proof (signalRequests_length apiKey userId user (store w)) as Hlen.
  split.
  - destruct (length (signals_of apiKey provider userId user w) <? 20)%nat; simpl length; lia.
  - apply in_or_app. left. unfold signalRequests.
    rewrite (getUserLevel_of_user _ _ Hu).
    apply in_or_app. right. apply in_or_app. right. apply in_or_app. right.
    apply in_or_app. left. now left.
Qed.

Lemma run_request_budget_witness :
  Storage.getUser (store fan_world) 3 = Some polyglot /\
  exists ids w2,
    generateRecommendationsForUser "key" similar_provider 3 fan_world = (Ok ids, w2) /\
    length (issued fan_world w2) = 8%nat /\
    In {| url := discoverUrl; params := beginnerParams "key" |} (issued fan_world w2).
Proof.
  assert (Hu : Storage.getUser (store fan_world) 3 = Some polyglot) by reflexivity.
  split; [exact Hu|].
  destruct (run_request_budget "key" similar_provider 3 fan_world Hu)
    as (ids & w2 & E & _ & _ & Hlevel).
  exists ids, w2. split; [exact E|]. split; [|exact Hlevel].
  vm_compute in E. injection E as _ <-. reflexivity.
Defined.

(** *** Where the returned movies come from *)

Lemma collected_answered provider A (f : list Movie -> list A) w total prefix reqs suffix h x :
  total = prefix ++ reqs ++ suffix ->
  h = requests w ++ prefix ->
  In x (collected provider f h reqs) ->
  exists page,
    In x (f page) /\
    exists before request after,
      total = before ++ request :: after /\
      provider (requests w ++ before) request = Some page.
Proof.
  intros -> -> Hin. apply collected_In in Hin.
  destruct Hin as (b & r & a & page & -> & Hp & Hx).
  exists page. split; [exact Hx|].
  exists (prefix ++ b), r, (a ++ suffix). split.
  - now rewrite <- !app_assoc.
  - now rewrite app_assoc.
Qed.

Ltac from_answered_page H :=
  let page := fresh "page" in
  let movie := fresh "movie" in
  let Hx := fresh "Hx" in
  let Hm := fresh "Hm" in
  destruct H as (page & Hx & ? & ? & ? & ? & ?);
  apply in_map_iff in Hx; destruct Hx as (movie & <- & Hm);
  try (apply filter_In in Hm; destruct Hm as [Hm _]);
  exists movie; split; [reflexivity|];
  eapply answered_with_intro; eassumption.

Lemma signals_answered apiKey provider userId user w tail e :
  In e (signals_of apiKey provider userId user w) ->
  exists movie,
    movieId e = id movie /\
    answered_with provider w (signalRequests apiKey userId user (store w) ++ tail) movie.
Proof.
  unfold signals_of, signalRequests. cbv zeta. rewrite !in_app_iff.
  set (C := countryRequests apiKey user).
  set (G := genreRequests apiKey user).
  set (L := languageRequests apiKey user).
  set (V := [levelRequest apiKey (Storage.getUserLevel (store w) userId)]).
  set (S := similarRequests apiKey (store w) userId).
  intros [H|[H|[H|[H|H]]]].
  - eapply (@collected_answered provider _ _ w
              ((C ++ G ++ L ++ V ++ S) ++ tail) [] C (G ++ L ++ V ++ S ++ tail)) in H.
    + from_answered_page H.
    + now rewrite <- !app_assoc.
    + now rewrite app_nil_r.
  - eapply (@collected_answered provider _ _ w
              ((C ++ G ++ L ++ V ++ S) ++ tail) C G (L ++ V ++ S ++ tail)) in H.
    + from_answered_page H.
    + now rewrite <- !app_assoc.
    + reflexivity.
  - eapply (@collected_answered provider _ _ w
              ((C ++ G ++ L ++ V ++ S) ++ tail) (C ++ G) L (V ++ S ++ tail)) in H.
    + from_answered_page H.
    + now rewrite <- !app_assoc.
    + now rewrite <- !app_assoc.
  - eapply (@collected_answered provider _ _ w
              ((C ++ G ++ L ++ V ++ S) ++ tail) (C ++ G ++ L) V (S ++ tail)) in H.
    + from_answered_page H.
    + now rewrite <- !app_assoc.
    + now rewrite <- !app_assoc.
  - eapply (@collected_answered provider _ _ w
              ((C ++ G ++ L ++ V ++ S) ++ tail) (C ++ G ++ L ++ V) S tail) in H.
    + from_answered_page H.
    + now rewrite <- !app_assoc.
    + now rewrite <- !app_assoc.
Qed.

Lemma candidates_answered apiKey provider userId user w e :
  In e (candidates_of apiKey provider userId user w) ->
  exists movie,
    movieId e = id movie /\
    answered_with provider w (runRequests apiKey provider userId user w) movie.
Proof.
  unfold candidates_of, runRequests. cbv zeta.
  destruct (length (signals_of apiKey provider userId user w) <? 20)%nat.
  - rewrite in_app_iff. intros [H|H]; [now apply signals_answered|].
    eapply (@collected_answered provider _ _ w
              (signalRequests apiKey userId user (store w) ++ [trendingRequest apiKey])
              (signalRequests apiKey userId user (store w)) [trendingRequest apiKey] []) in H.
    + from_answered_page H.
    + reflexivity.
    + reflexivity.
  - now apply signals_answered.
Qed.

Lemma ranked_ids_In recs k :
  In k (map movieId (array_sort byScoreDescending (mergeAndScoreRecommendations recs))) ->
  In k (map movieId recs).
Proof.
  intros Hin.
  apply (Permutation_in k (Permutation_map movieId (array_sort_perm byScoreDescending _)))
    in Hin.
  rewrite mergeAndScore_ids, merge_state_ids in Hin. exact (proj1 (new_Set_In _ _) Hin).
Qed.

(** X12. Every movie a run returns was in a page the provider answered one
    of the requests of this very run with: the engine invents no id and
    takes none from the database or from an earlier run. *)
Theorem returned_ids_come_from_answers :
  forall (apiKey : string) (provider : Provider) (userId : Z)
         (user : Schema.User) (w : World),
    Storage.getUser (store w) userId = Some user ->
    exists ids w2,
      generateRecommendationsForUser apiKey provider userId w = (Ok ids, w2) /\
      Forall (fun k =>
                exists movie,
                  id movie = k /\ answered_with provider w (issued w w2) movie) ids.
Proof.
  intros apiKey provider userId user w Hu.
  do 2 eexists. split; [apply (generate_run apiKey provider userId w Hu)|].
  rewrite issued_append. apply Forall_forall. intros k Hin.
  apply ranked_ids_In, in_map_iff in Hin. destruct Hin as (e & <- & He).
  destruct (candidates_answered _ _ _ _ _ _ He) as (movie & E & Ha).
  exists movie. auto.
Qed.

Lemma returned_ids_come_from_answers_witness :
  Storage.getUser (store sample_world) 2 = Some genre_user /\
  exists ids w2,
    generateRecommendationsForUser "key" sample_provider 2 sample_world = (Ok ids, w2) /\
    ids = [2; 1; 3; 4] /\
    Forall (fun k =>
              exists movie,
                id movie = k /\
                answered_with sample_provider sample_world (issued sample_world w2) movie)
           ids.
Proof.
  assert (Hu : Storage.getUser (store sample_world) 2 = Some genre_user) by reflexivity.
  split; [exact Hu|].
  destruct (returned_ids_come_from_answers "key" sample_provider 2 sample_world Hu)
    as (ids & w2 & E & H).
  exists ids, w2. split; [exact E|]. split; [|exact H].
  vm_compute in E. injection E as <- _. reflexivity.
Defined.

(** *** Running twice *)

Lemma getUserLevel_same_inputs w w' userId :
  same_inputs w w' ->
  Storage.getUserLevel (store w) userId = Storage.getUserLevel (store w') userId.
Proof.
  intros (Hu & _). unfold Storage.getUserLevel, Storage.getUser. now rewrite Hu.
Qed.

Lemma interactions_same_inputs w w' userId :
  same_inputs w w' ->
  interactions (store w) userId = interactions (store w') userId.
Proof.
  intros (_ & Hw & Hr & Hl).
  unfold interactions, Storage.getWatchedMovies, Storage.getUserRatings,
    Storage.getUserLikes.
  now rewrite Hw, Hr, Hl.
Qed.

Lemma signals_of_same_inputs apiKey provider userId user w w' :
  history_independent provider -> same_inputs w w' ->
  signals_of apiKey provider userId user w = signals_of apiKey provider userId user w'.
Proof.
  intros Hi Hs. unfold signals_of, similarRequests. cbv zeta.
  rewrite (getUserLevel_same_inputs userId Hs), (interactions_same_inputs userId Hs).
  repeat (apply (f_equal2 (@app RecommendationScore));
          [apply collected_history; exact Hi|]).
  apply collected_history; exact Hi.
Qed.

Lemma candidates_of_same_inputs apiKey provider userId user w w' :
  history_independent provider -> same_inputs w w' ->
  candidates_of apiKey provider userId user w = candidates_of apiKey provider userId user w'.
Proof.
  intros Hi Hs. unfold candidates_of. cbv zeta.
  rewrite (signals_of_same_inputs apiKey userId user Hi Hs).
  destruct (length (signals_of apiKey provider userId user w') <? 20)%nat; [|reflexivity].
  f_equal. apply collected_history; exact Hi.
Qed.

(** X13. With a provider whose answers do not depend on the requests made
    before, generating twice in a row gives the same result as generating
    once: the second run returns the same movies in the same order, leaves
    the users and their interactions alone, and leaves the table of
    recommendations with the same user, movie, score, signals and flag, row
    for row.  The rows of the user are deleted and inserted again by the
    second run, so that their serial ids and creation times, which the
    embedding does not carry, are new. *)
Theorem rerun_is_idempotent :
  forall (apiKey : string) (provider : Provider) (userId : Z)
         (user : Schema.User) (w : World),
    history_independent provider ->
    Storage.getUser (store w) userId = Some user ->
    exists ids w1 w2,
      generateRecommendationsForUser apiKey provider userId w = (Ok ids, w1) /\
      generateRecommendationsForUser apiKey provider userId w1 = (Ok ids, w2) /\
      same_inputs w1 w2 /\
      map row_columns (userMovieRecommendations (store w2))
        = map row_columns (userMovieRecommendations (store w1)) /\
      map Schema.rec_movieId (rows_of_user userId (userMovieRecommendations (store w2)))
        = ids.
Proof.
  intros apiKey provider userId user w Hi Hu.
  pose proof (generate_run apiKey provider userId w Hu) as E1.
  set (w1 := {| store := saved userId (ranked_of apiKey provider userId user w)
                           (Storage.clearUserRecommendations (store w) userId);
                requests := requests w ++ runRequests apiKey provider userId user w |}) in *.
  assert (Es : store w1
               = Storage.set_recommendations (store w)
                   (rows_of_others userId (userMovieRecommendations (store w))
                    ++ map (row_of userId) (ranked_of apiKey provider userId user w))).
  { unfold w1, ranked_of. cbn [store]. now rewrite saved_after_clear. }
  assert (Hsame : same_inputs w w1).
  { unfold same_inputs. rewrite Es. repeat split. }
  assert (Hu1 : Storage.getUser (store w1) userId = Some user).
  { rewrite Es. exact Hu. }
  pose proof (generate_run apiKey provider userId w1 Hu1) as E2.
  assert (Er : ranked_of apiKey provider userId user w1
               = ranked_of apiKey provider userId user w).
  { unfold ranked_of. now rewrite <- (candidates_of_same_inputs apiKey userId user Hi Hsame). }
  rewrite Er in E2. clearbody w1.
  do 3 eexists. split; [exact E1|]. split; [exact E2|].
  assert (Es2 : saved userId (ranked_of apiKey provider userId user w)
                  (Storage.clearUserRecommendations (store w1) userId)
                = store w1).
  { rewrite Es. unfold ranked_of. rewrite saved_after_clear.
    cbn [userMovieRecommendations Storage.set_recommendations].
    rewrite rows_of_others_app, rows_of_others_twice, rows_of_others_new, app_nil_r.
    reflexivity. }
  cbn [store]. rewrite Es2.
  split; [repeat split|]. split; [reflexivity|].
  rewrite Es. cbn [userMovieRecommendations Storage.set_recommendations].
  unfold rows_of_user at 1. rewrite filter_app.
  fold (rows_of_user userId (rows_of_others userId (userMovieRecommendations (store w)))).
  rewrite rows_of_user_others. simpl app.
  match goal with |- context [filter _ (map (row_of userId) ?l)] =>
    change (filter (fun row => Schema.rec_userId row =? userId) (map (row_of userId) l))
      with (rows_of_user userId (map (row_of userId) l)) end.
  rewrite rows_of_user_new, map_map. reflexivity.
Qed.

Lemma rerun_is_idempotent_witness :
  history_independent sample_provider /\
  Storage.getUser (store sample_world) 2 = Some genre_user /\
  exists w1 w2,
    generateRecommendationsForUser "key" sample_provider 2 sample_world
      = (Ok [2; 1; 3; 4], w1) /\
    generateRecommendationsForUser "key" sample_provider 2 w1 = (Ok [2; 1; 3; 4], w2) /\
    map row_columns (userMovieRecommendations (store w2))
      = map row_columns (userMovieRecommendations (store w1)).
Proof.
  assert (Hi : history_independent sample_provider) by (intros h h' r; reflexivity).
  assert (Hu : Storage.getUser (store sample_world) 2 = Some genre_user) by reflexivity.
  split; [exact Hi|]. split; [exact Hu|].
  destruct (rerun_is_idempotent "key" 2 sample_world Hi Hu)
    as (ids & w1 & w2 & E1 & E2 & _ & Es & _).
  assert (Eids : ids = [2; 1; 3; 4]).
  { assert (E := E1). vm_compute in E. injection E as <- _. reflexivity. }
  rewrite Eids in E1, E2. exists w1, w2. auto.
Defined.

(** *** The stored rows are ranked *)

Lemma StronglySorted_map A B (R : A -> A -> Prop) (R' : B -> B -> Prop) (f : A -> B) l :
  (forall a b, R a b -> R' (f a) (f b)) ->
  StronglySorted R l -> StronglySorted R' (map f l).
Proof.
  intros H. induction 1 as [|a l Hs IH Ha]; simpl; constructor; [exact IH|].
  apply Forall_forall. intros b Hb. apply in_map_iff in Hb.
  destruct Hb as (x & <- & Hx). apply H. rewrite Forall_forall in Ha. now apply Ha.
Qed.

Lemma candidates_scored apiKey provider userId user w :
  Z.of_nat (length (genres_of user)) < 2 ^ 32 ->
  Forall scored
    (mergeAndScoreRecommendations (candidates_of apiKey provider userId user w)).
Proof.
  intros Hlen.
  destruct (rankedRecommendations_spec apiKey provider userId user w)
    as (signals & n1 & extra & n2 & Ec & Ef & _ & Q1 & Q2 & _ & _).
  rewrite collectSignals_run in Ec.
  assert (Es : signals_of apiKey provider userId user (cleared w userId) = signals)
    by congruence.
  assert (En : signalRequests apiKey userId user (store w) = n1).
  { assert (En : log_extend (cleared w userId)
                   (signalRequests apiKey userId user (store (cleared w userId)))
                 = log_extend (cleared w userId) n1) by congruence.
    apply (f_equal requests) in En. simpl in En. now apply app_inv_head in En. }
  assert (Ecand : candidates_of apiKey provider userId user w = signals ++ extra).
  { rewrite withTrendingFallback_run in Ef.
    assert (Ef' := f_equal fst Ef). simpl fst in Ef'. injection Ef' as Ef'.
    unfold candidates_of. cbv zeta.
    change (signals_of apiKey provider userId user w)
      with (signals_of apiKey provider userId user (cleared w userId)).
    rewrite Es, En. exact Ef'. }
  rewrite Ecand. apply merged_scored. apply Forall_app. split.
  - eapply Forall_impl; [|exact Q1]. intros r. now apply personal_entry_nonneg.
  - eapply Forall_impl; [|exact Q2]. apply trending_entry_nonneg.
Qed.

(** X14. After a run (for a user whose genre array has a length an array
    can have) the stored rows of the user are, in table order, the returned
    movies in rank order, so their scores never increase down the table;
    every one of them is flagged [recommended], carries the three signals,
    and has as score their sum, which is a number (never NaN). *)
Theorem stored_rows_are_in_rank_order :
  forall (apiKey : string) (provider : Provider) (userId : Z)
         (user : Schema.User) (w : World),
    Storage.getUser (store w) userId = Some user ->
    Z.of_nat (length (genres_of user)) < 2 ^ 32 ->
    exists ids w2,
      generateRecommendationsForUser apiKey provider userId w = (Ok ids, w2) /\
      let mine := rows_of_user userId (userMovieRecommendations (store w2)) in
      map Schema.rec_movieId mine = ids /\
      StronglySorted row_ranks_before mine /\
      Forall consistent_row mine.
Proof.
  intros apiKey provider userId user w Hu Hlen.
  do 2 eexists. split; [apply (generate_run apiKey provider userId w Hu)|].
  cbn [store]. unfold ranked_of. rewrite saved_after_clear.
  cbn [userMovieRecommendations Storage.set_recommendations].
  set (merged := mergeAndScoreRecommendations (candidates_of apiKey provider userId user w)).
  set (sorted := array_sort byScoreDescending merged).
  assert (Hmine : rows_of_user userId
                    (rows_of_others userId (userMovieRecommendations (store w))
                     ++ map (row_of userId) sorted)
                  = map (row_of userId) sorted).
  { unfold rows_of_user at 1. rewrite filter_app.
    fold (rows_of_user userId (rows_of_others userId (userMovieRecommendations (store w)))).
    rewrite rows_of_user_others. simpl app. apply rows_of_user_new. }
  cbv zeta. rewrite Hmine.
  pose proof (@candidates_scored apiKey provider userId user w Hlen) as Hscored.
  fold merged in Hscored.
  destruct (array_sort_ranked Hscored) as [Hsorted _]. fold sorted in Hsorted.
  split; [now rewrite map_map|]. split.
  - eapply StronglySorted_map; [|exact Hsorted]. intros a b H. exact H.
  - apply Forall_forall. intros row Hrow. apply in_map_iff in Hrow.
    destruct Hrow as (e & <- & He).
    assert (Hm : In e merged).
    { apply (Permutation_in e (array_sort_perm byScoreDescending merged)). exact He. }
    split; [reflexivity|]. split.
    + simpl. apply FloatFacts.nonneg_not_nan.
      rewrite Forall_forall in Hscored. exact (Hscored e Hm).
    + destruct (mergeAndScore_In _ _ Hm) as (v & _ & ->).
      exists (genreMatch v), (languageMatch v), (collaborativeScore v).
      repeat split; reflexivity.
Qed.

Lemma stored_rows_are_in_rank_order_witness :
  Storage.getUser (store sample_world) 2 = Some genre_user /\
  Z.of_nat (length (genres_of genre_user)) < 2 ^ 32 /\
  exists ids w2,
    generateRecommendationsForUser "key" sample_provider 2 sample_world = (Ok ids, w2) /\
    StronglySorted row_ranks_before (rows_of_user 2 (userMovieRecommendations (store w2))) /\
    Forall consistent_row (rows_of_user 2 (userMovieRecommendations (store w2))).
Proof.
  assert (Hu : Storage.getUser (store sample_world) 2 = Some genre_user) by reflexivity.
  assert (Hlen : Z.of_nat (length (genres_of genre_user)) < 2 ^ 32) by reflexivity.
  split; [exact Hu|]. split; [exact Hlen|].
  destruct (stored_rows_are_in_rank_order "key" sample_provider 2 sample_world Hu Hlen)
    as (ids & w2 & E & _ & Hs & Hc).
  exists ids, w2. auto.
Defined.

(* ================================================================= *)
(** ** The onboarding recommender, for all preferences *)

Lemma In_firstn A n (l : list A) x : In x (firstn n l) -> In x l.
Proof.
  intros H. rewrite <- (firstn_skipn n l). apply in_or_app. now left.
Qed.

Lemma not_yet_present_NoDup allResults page :
  NoDup (map id allResults) -> NoDup (map id page) ->
  NoDup (map id (allResults ++ not_yet_present allResults page)).
Proof.
  intros Ha Hp. rewrite map_app. apply NoDup_app.
  - exact Ha.
  - unfold not_yet_present. now apply NoDup_map_filter.
  - intros k Hin Hin'. unfold not_yet_present in Hin'.
    apply in_map_iff in Hin'. destruct Hin' as (movie & <- & Hm).
    apply filter_In in Hm. destruct Hm as [_ Hnot].
    assert (Hinc : includes (new_Set (map id allResults)) (id movie) = true).
    { apply includes_In, new_Set_In. exact Hin. }
    rewrite Hinc in Hnot. discriminate.
Qed.

Lemma answered_with_frame provider w pre new post movie :
  answered_with provider (log_extend w pre) new movie ->
  answered_with provider w (pre ++ new ++ post) movie.
Proof.
  intros (b & r & a & page & -> & Hp & Hin).
  exists (pre ++ b), r, (a ++ post), page. split; [|split; [|exact Hin]].
  - now rewrite <- !app_assoc.
  - simpl in Hp. now rewrite app_assoc.
Qed.

Section Passes.
Variable apiKey : string.
Variable provider : Provider.

Lemma skipped_pass_outcome allResults w : pass_outcome provider allResults w (Ok allResults, w).
Proof.
  exists [], []. split; [now rewrite app_nil_r, log_extend_nil|].
  split; [simpl; lia|]. split; [reflexivity|].
  split; [constructor|]. intros _ H. now rewrite app_nil_r.
Qed.

Lemma guarded_pass_outcome (f : list Movie -> list Movie) allResults u ps w :
  (forall page movie, In movie (f page) -> In movie page) ->
  (forall page, NoDup (map id page) -> NoDup (map id allResults) ->
                NoDup (map id (allResults ++ f page))) ->
  pass_outcome provider allResults w
    (try_catch (results <- axios_get provider u ps ;; ret (allResults ++ f results))
               (fun _ => ret allResults) w).
Proof.
  intros Hsub Hnd. unfold try_catch, bind, axios_get, ret.
  set (r := {| url := u; params := ps |}).
  destruct (provider (requests w) r) as [page|] eqn:E.
  - exists (f page), [r]. split; [reflexivity|]. split; [simpl; lia|].
    split; [discriminate|]. split.
    + apply Forall_forall. intros movie Hin.
      apply (@answered_with_intro provider w [r] [] r [] page movie); auto.
      simpl. now rewrite app_nil_r.
    + intros Hpages Hall. apply Hnd; [|exact Hall]. exact (Hpages _ _ _ E).
  - exists [], [r]. split; [now rewrite app_nil_r|]. split; [simpl; lia|].
    split; [discriminate|]. split; [constructor|]. intros _ H. now rewrite app_nil_r.
Qed.

Lemma filter_sub (f : Movie -> bool) page movie : In movie (filter f page) -> In movie page.
Proof. intros H. now apply filter_In in H. Qed.

Lemma combinedPass_outcome preferences w :
  pass_outcome provider [] w (combinedPass apiKey provider preferences [] w).
Proof.
  unfold combinedPass. cbv zeta.
  destruct (has_length (Schema.genres preferences) && has_length (Schema.languages preferences)
            && truthy (Schema.country preferences)).
  - apply (guarded_pass_outcome (fun results => results)); [auto|].
    intros page H _. exact H.
  - apply skipped_pass_outcome.
Qed.

Lemma countryPass_outcome preferences allResults w :
  pass_outcome provider allResults w (countryPass apiKey provider preferences allResults w).
Proof.
  unfold countryPass. cbv zeta.
  destruct (truthy (Schema.country preferences) && (length allResults <? 15)%nat).
  - apply (guarded_pass_outcome (not_yet_present allResults)).
    + intros page movie. apply filter_sub.
    + intros page Hp Ha. now apply not_yet_present_NoDup.
  - apply skipped_pass_outcome.
Qed.

Lemma genreLanguagePass_outcome preferences allResults w :
  pass_outcome provider allResults w
    (genreLanguagePass apiKey provider preferences allResults w).
Proof.
  unfold genreLanguagePass. cbv zeta.
  destruct ((has_length (Schema.genres preferences)
             || has_length (Schema.languages preferences))
            && (length allResults <? 15)%nat).
  - apply (guarded_pass_outcome (not_yet_present allResults)).
    + intros page movie. apply filter_sub.
    + intros page Hp Ha. now apply not_yet_present_NoDup.
  - apply skipped_pass_outcome.
Qed.

(** The shape of every onboarding call. *)
Lemma onboarding_shape preferences w :
  exists allResults new,
    getOnboardingRecommendations apiKey provider preferences w
      = (Ok (map id (firstn 20 allResults)), log_extend w new) /\
    (1 <= length new <= 4)%nat /\
    Forall (fun movie => answered_with provider w new movie) allResults /\
    (pages_without_repeats provider -> NoDup (map id allResults)).
Proof.
  unfold getOnboardingRecommendations, onboardingBody, try_catch. cbv zeta.
  destruct (negb (has_length (Schema.genres preferences))
            && negb (has_length (Schema.languages preferences))
            && negb (truthy (Schema.country preferences))).
  - unfold bind, axios_get, ret.
    set (r := {| url := url (popularRequest apiKey); params := params (popularRequest apiKey) |}).
    destruct (provider (requests w) r) as [page|] eqn:E.
    + exists page, [r]. split; [reflexivity|]. split; [simpl; lia|]. split.
      * apply Forall_forall. intros movie Hin.
        apply (@answered_with_intro provider w [r] [] r [] page movie); auto.
        simpl. now rewrite app_nil_r.
      * intros Hpages. exact (Hpages _ _ _ E).
    + exists [], [r]. split; [reflexivity|]. split; [simpl; lia|].
      split; constructor.
  - unfold bind at 1.
    destruct (combinedPass_outcome preferences w) as (e1 & n1 & -> & L1 & Z1 & A1 & D1).
    unfold bind at 1.
    destruct (countryPass_outcome preferences ([] ++ e1) (log_extend w n1))
      as (e2 & n2 & -> & L2 & Z2 & A2 & D2).
    unfold bind at 1.
    destruct (genreLanguagePass_outcome preferences (([] ++ e1) ++ e2)
                (log_extend (log_extend w n1) n2))
      as (e3 & n3 & -> & L3 & Z3 & A3 & D3).
    unfold bind at 1. rewrite popularFallback_run. rewrite !log_extend_app.
    simpl app in *.
    set (n := n1 ++ n2 ++ n3).
    assert (Hans : Forall (fun movie => answered_with provider w n movie)
                          ((e1 ++ e2) ++ e3)).
    { unfold n. apply Forall_app. split; [apply Forall_app; split|].
      - eapply Forall_impl; [|exact A1]. intros movie H.
        rewrite <- (log_extend_nil w) in H.
        apply (@answered_with_frame provider w [] n1 (n2 ++ n3)) in H.
        exact H.
      - eapply Forall_impl; [|exact A2]. intros movie H.
        apply (@answered_with_frame provider w n1 n2 n3) in H.
        exact H.
      - eapply Forall_impl; [|exact A3]. intros movie H.
        rewrite log_extend_app in H.
        apply (@answered_with_frame provider w (n1 ++ n2) n3 []) in H.
        now rewrite app_nil_r, <- app_assoc in H. }
    assert (Hnd : pages_without_repeats provider -> NoDup (map id ((e1 ++ e2) ++ e3))).
    { intros Hp. apply D3; [exact Hp|]. apply D2; [exact Hp|].
      apply (D1 Hp). constructor. }
    assert (Hlen : (length n <= 3)%nat).
    { unfold n. rewrite !length_app. lia. }
    assert (Hsome : (e1 ++ e2) ++ e3 <> [] -> (1 <= length n)%nat).
    { intros Hne. unfold n.
      destruct n1 as [|r1 n1]; [|simpl; lia]. rewrite (Z1 eq_refl) in Hne.
      destruct n2 as [|r2 n2]; [|simpl; lia]. rewrite (Z2 eq_refl) in Hne.
      destruct n3 as [|r3 n3]; [|simpl; lia]. rewrite (Z3 eq_refl) in Hne.
      now contradiction Hne. }
    clearbody n.
    destruct (length ((e1 ++ e2) ++ e3) =? 0)%nat eqn:Ez.
    + apply Nat.eqb_eq, length_zero_iff_nil in Ez. rewrite Ez in *.
      destruct (provider (requests (log_extend w n)) (popularRequest apiKey))
        as [page|] eqn:E.
      * unfold ret.
        exists page, (n ++ [popularRequest apiKey]).
        split; [reflexivity|]. split; [rewrite length_app; simpl; lia|]. split.
        -- apply Forall_forall. intros movie Hin.
           apply (@answered_with_intro provider w _ n
                    (popularRequest apiKey) [] page movie); auto.
        -- intros Hp. exact (Hp _ _ _ E).
      * unfold ret.
        exists [], (n ++ [popularRequest apiKey]).
        split; [reflexivity|]. split; [rewrite length_app; simpl; lia|].
        split; constructor.
    + unfold ret. exists ((e1 ++ e2) ++ e3), n.
      split; [reflexivity|]. split; [|split; assumption].
      split; [|lia]. apply Hsome. intros Hnil. rewrite Hnil in Ez. discriminate.
Qed.

End Passes.

(** X15. Whatever the preferences and the provider, an onboarding call
    returns at most 20 ids, issues at least one and at most four requests,
    and leaves the database alone; every id it returns is the id of a movie
    in a page the provider answered one of these requests with. *)
Theorem onboarding_call_is_bounded :
  forall (apiKey : string) (provider : Provider)
         (preferences : Schema.UserPreferences) (w : World),
    exists ids w',
      getOnboardingRecommendations apiKey provider preferences w = (Ok ids, w') /\
      store w' = store w /\
      requests w' = requests w ++ issued w w' /\
      (length ids <= 20)%nat /\
      (1 <= length (issued w w') <= 4)%nat /\
      Forall (fun k =>
                exists movie,
                  id movie = k /\ answered_with provider w (issued w w') movie) ids.
Proof.
  intros apiKey provider preferences w.
  destruct (onboarding_shape apiKey provider preferences w)
    as (allResults & new & E & Hlen & Hans & _).
  do 2 eexists. split; [exact E|]. rewrite issued_log_extend.
  split; [reflexivity|]. split; [reflexivity|]. split; [apply first_ids_length|].
  split; [exact Hlen|].
  apply Forall_forall. intros k Hin. apply in_map_iff in Hin.
  destruct Hin as (movie & <- & Hm). apply In_firstn in Hm.
  exists movie. split; [reflexivity|].
  rewrite Forall_forall in Hans. now apply Hans.
Qed.

(** X16. When no page of the provider lists a movie twice, an onboarding
    call returns no id twice, whatever the preferences: the country pass
    and the genre/language pass drop the movies already collected, and the
    popular page is only used when nothing was collected. *)
Theorem onboarding_ids_are_distinct :
  forall (apiKey : string) (provider : Provider)
         (preferences : Schema.UserPreferences) (w : World),
    pages_without_repeats provider ->
    exists ids w',
      getOnboardingRecommendations apiKey provider preferences w = (Ok ids, w') /\
      NoDup ids.
Proof.
  intros apiKey provider preferences w Hp.
  destruct (onboarding_shape apiKey provider preferences w)
    as (allResults & new & E & _ & _ & Hnd).
  do 2 eexists. split; [exact E|]. apply first_ids_NoDup. exact (Hnd Hp).
Qed.

Lemma onboarding_ids_are_distinct_witness :
  pages_without_repeats (constant_provider 3) /\
  exists w',
    getOnboardingRecommendations "key" (constant_provider 3) full_preferences sample_world
      = (Ok [1; 2; 3], w') /\
    length (issued sample_world w') = 3%nat /\
    NoDup [1; 2; 3].
Proof.
  assert (Hp : pages_without_repeats (constant_provider 3)).
  { intros history request page E. injection E as <-.
    repeat constructor; simpl; intuition discriminate. }
  split; [exact Hp|].
  destruct (onboarding_ids_are_distinct "key" full_preferences sample_world Hp)
    as (ids & w' & E & Hnd).
  assert (E' := E). vm_compute in E'. injection E' as <- <-.
  eexists. split; [exact E|]. split; [reflexivity|exact Hnd].
Defined.

(** X17. With a genre, a language and a country, when the combined request
    is answered with 15 movies or more, nothing else is asked: the call
    returns the first 20 ids of that page, in the page's order. *)
Theorem onboarding_stops_after_a_full_page :
  forall (apiKey : string) (provider : Provider)
         (preferences : Schema.UserPreferences) (w : World) (page : list Movie),
    has_length (Schema.genres preferences) = true ->
    has_length (Schema.languages preferences) = true ->
    truthy (Schema.country preferences) = true ->
    provider (requests w) (combinedRequest apiKey preferences) = Some page ->
    (15 <= length page)%nat ->
    getOnboardingRecommendations apiKey provider preferences w
    = (Ok (map id (firstn 20 page)), log_extend w [combinedRequest apiKey preferences]).
Proof.
  intros apiKey provider preferences w page Hg Hl Hc Hp Hlen.
  assert (H15 : (length page <? 15)%nat = false) by (apply Nat.ltb_ge; exact Hlen).
  assert (H0 : (length page =? 0)%nat = false) by (apply Nat.eqb_neq; lia).
  unfold getOnboardingRecommendations, onboardingBody, try_catch. cbv zeta.
  rewrite Hg, Hl, Hc. cbv beta iota delta [negb andb].
  unfold bind at 1. unfold combinedPass. cbv zeta. rewrite Hg, Hl, Hc.
  cbv beta iota delta [andb].
  unfold try_catch, bind at 1, axios_get.
  change {| url := (tmdbBaseUrl ++ "/discover/movie")%string;
            params := [("api_key", PStr apiKey);
                       ("language", PStr "en-US");
                       ("with_genres", genreParam_of (Schema.genres preferences));
                       ("with_original_language",
                        languageParam_of (Schema.languages preferences));
                       ("region", countryParam_of (Schema.country preferences));
                       ("sort_by", PStr "popularity.desc");
                       ("page", PNum (ofZ 1))] |}
    with (combinedRequest apiKey preferences).
  rewrite Hp. unfold ret at 1. cbv beta iota. rewrite app_nil_l.
  unfold bind at 1. unfold countryPass. cbv zeta. rewrite H15, andb_false_r.
  unfold ret at 1. cbv beta iota.
  unfold bind at 1. unfold genreLanguagePass. cbv zeta. rewrite H15, andb_false_r.
  unfold ret at 1. cbv beta iota.
  unfold bind at 1. rewrite popularFallback_run, H0. reflexivity.
Qed.

Lemma onboarding_stops_after_a_full_page_witness :
  let page := page_of 25 in
  has_length (Schema.genres full_preferences) = true /\
  has_length (Schema.languages full_preferences) = true /\
  truthy (Schema.country full_preferences) = true /\
  (15 <= length page)%nat /\
  getOnboardingRecommendations "key" (constant_provider 25) full_preferences sample_world
  = (Ok (map id (firstn 20 page)),
     log_extend sample_world [combinedRequest "key" full_preferences]) /\
  length (map id (firstn 20 page)) = 20%nat.
Proof.
  intros page.
  assert (Hg : has_length (Schema.genres full_preferences) = true) by reflexivity.
  assert (Hl : has_length (Schema.languages full_preferences) = true) by reflexivity.
  assert (Hc : truthy (Schema.country full_preferences) = true) by reflexivity.
  assert (Hlen : (15 <= length page)%nat) by (vm_compute; lia).
  do 4 (split; [assumption|]). split; [|reflexivity].
  apply onboarding_stops_after_a_full_page; auto.
Defined.

(* ================================================================= *)
(** ** The storage methods behind the engine *)

Lemma pair_of_same_pair u k row :
  Storage.same_pair u k row = true <->
  (Schema.rec_userId row, Schema.rec_movieId row) = (u, k).
Proof.
  unfold Storage.same_pair. rewrite andb_true_iff, !Z.eqb_eq. split.
  - intros [-> ->]. reflexivity.
  - intros E. injection E as -> ->. auto.
Qed.

Lemma same_pair_other u k u' k' row :
  Storage.same_pair u k row = true -> (u', k') <> (u, k) ->
  Storage.same_pair u' k' row = false.
Proof.
  intros H Hne. destruct (Storage.same_pair u' k' row) eqn:E; [|reflexivity].
  apply pair_of_same_pair in H. apply pair_of_same_pair in E.
  exfalso. apply Hne. congruence.
Qed.

Lemma existsb_same_pair_In u k rows :
  existsb (Storage.same_pair u k) rows = true <->
  In (u, k) (map (fun row => (Schema.rec_userId row, Schema.rec_movieId row)) rows).
Proof.
  rewrite existsb_exists, in_map_iff. split.
  - intros (row & Hin & H). exists row. split; [now apply pair_of_same_pair|exact Hin].
  - intros (row & E & Hin). exists row. split; [exact Hin|now apply pair_of_same_pair].
Qed.

Section UpdateFirst.
Variables (u k : Z) (new : Schema.UserMovieRecommendation).
Hypothesis Hnew : Storage.same_pair u k new = true.

Lemma update_first_pairs rows :
  map (fun row => (Schema.rec_userId row, Schema.rec_movieId row))
      (Storage.update_first u k new rows)
  = map (fun row => (Schema.rec_userId row, Schema.rec_movieId row)) rows.
Proof.
  induction rows as [|row rows IH]; simpl; [reflexivity|].
  destruct (Storage.same_pair u k row) eqn:E; simpl; [|now rewrite IH].
  apply pair_of_same_pair in E. apply pair_of_same_pair in Hnew. now rewrite E, Hnew.
Qed.

Lemma update_first_found rows :
  existsb (Storage.same_pair u k) rows = true ->
  find (Storage.same_pair u k) (Storage.update_first u k new rows) = Some new.
Proof.
  induction rows as [|row rows IH]; simpl; [discriminate|].
  destruct (Storage.same_pair u k row) eqn:E; simpl.
  - now rewrite Hnew.
  - rewrite E. exact IH.
Qed.

Lemma update_first_others u' k' rows :
  (u', k') <> (u, k) ->
  find (Storage.same_pair u' k') (Storage.update_first u k new rows)
  = find (Storage.same_pair u' k') rows.
Proof.
  intros Hne. induction rows as [|row rows IH]; simpl; [reflexivity|].
  destruct (Storage.same_pair u k row) eqn:E; simpl.
  - now rewrite (@same_pair_other u k u' k' _ Hnew Hne), (@same_pair_other u k u' k' _ E Hne).
  - now rewrite IH.
Qed.

Lemma update_first_length rows :
  length (Storage.update_first u k new rows) = length rows.
Proof.
  induction rows as [|row rows IH]; simpl; [reflexivity|].
  destruct (Storage.same_pair u k row); simpl; congruence.
Qed.

Lemma update_first_again new' rows :
  Storage.update_first u k new' (Storage.update_first u k new rows)
  = Storage.update_first u k new' rows.
Proof.
  induction rows as [|row rows IH]; simpl; [reflexivity|].
  destruct (Storage.same_pair u k row) eqn:E; simpl.
  - now rewrite Hnew.
  - now rewrite E, IH.
Qed.

Lemma update_first_exists rows :
  existsb (Storage.same_pair u k) (Storage.update_first u k new rows)
  = existsb (Storage.same_pair u k) rows.
Proof.
  induction rows as [|row rows IH]; simpl; [reflexivity|].
  destruct (Storage.same_pair u k row) eqn:E; simpl.
  - now rewrite Hnew.
  - now rewrite E, IH.
Qed.

Lemma update_first_appended new' rows :
  existsb (Storage.same_pair u k) rows = false ->
  Storage.update_first u k new' (rows ++ [new]) = rows ++ [new'].
Proof.
  induction rows as [|row rows IH]; simpl.
  - intros _. now rewrite Hnew.
  - destruct (Storage.same_pair u k row) eqn:E; simpl; [discriminate|].
    intros H. now rewrite IH.
Qed.

Lemma find_appended rows :
  existsb (Storage.same_pair u k) rows = false ->
  find (Storage.same_pair u k) (rows ++ [new]) = Some new.
Proof.
  induction rows as [|row rows IH]; simpl.
  - intros _. now rewrite Hnew.
  - destruct (Storage.same_pair u k row) eqn:E; simpl; [discriminate|exact IH].
Qed.

Lemma find_appended_others u' k' rows :
  (u', k') <> (u, k) ->
  find (Storage.same_pair u' k') (rows ++ [new]) = find (Storage.same_pair u' k') rows.
Proof.
  intros Hne. induction rows as [|row rows IH]; simpl.
  - now rewrite (@same_pair_other u k u' k' _ Hnew Hne).
  - destruct (Storage.same_pair u' k' row); [reflexivity|exact IH].
Qed.

End UpdateFirst.

Lemma saved_row_same_pair userId movieId s g l c :
  Storage.same_pair userId movieId (saved_row userId movieId s g l c) = true.
Proof. unfold Storage.same_pair. simpl. now rewrite !Z.eqb_refl. Qed.

(** X18. [saveRecommendation], called with the three signals as the engine
    calls it, for a user that has a row and a movie id that fits the integer
    column (the writes the database accepts), is an upsert on a table with at
    most one row per (user, movie): afterwards the row of the pair is the one
    just written, the rows of all other pairs are as before, the table has
    one row more exactly when the pair was new, it still has at most one row
    per pair, and a second save for the same pair overwrites the first (the
    last write wins). *)
Theorem saveRecommendation_upserts :
  forall (db : Store) (userId movieId : Z) (s g l c : number) (user : Schema.User),
    Storage.getUser db userId = Some user ->
    integer_column movieId ->
    one_row_per_pair (userMovieRecommendations db) ->
    let db' := Storage.saveRecommendation db userId movieId s (Some g) (Some l) (Some c) in
    lookup_row db' userId movieId = Some (saved_row userId movieId s g l c) /\
    (forall u k, (u, k) <> (userId, movieId) -> lookup_row db' u k = lookup_row db u k) /\
    length (userMovieRecommendations db')
      = (if existsb (Storage.same_pair userId movieId) (userMovieRecommendations db)
         then length (userMovieRecommendations db)
         else S (length (userMovieRecommendations db))) /\
    one_row_per_pair (userMovieRecommendations db') /\
    (forall s' g' l' c',
       Storage.saveRecommendation db' userId movieId s' (Some g') (Some l') (Some c')
       = Storage.saveRecommendation db userId movieId s' (Some g') (Some l') (Some c')) /\
    users db' = users db /\ watchedMovies db' = watchedMovies db /\
    movieRatings db' = movieRatings db /\ movieLikes db' = movieLikes db.
Proof.
  intros db userId movieId s g l c user _ _ Hinv db'.
  pose proof (saved_row_same_pair userId movieId s g l c) as Hnew.
  unfold db', Storage.saveRecommendation, lookup_row.
  fold (saved_row userId movieId s g l c).
  destruct (existsb (Storage.same_pair userId movieId) (userMovieRecommendations db)) eqn:Ex;
    cbn [userMovieRecommendations Storage.set_recommendations users watchedMovies
         movieRatings movieLikes].
  - split; [now apply (@update_first_found userId movieId _ Hnew)|].
    split; [intros u k Hne; now apply (@update_first_others userId movieId _ Hnew)|].
    split; [apply update_first_length|].
    split; [unfold one_row_per_pair;
            now rewrite (@update_first_pairs userId movieId _ Hnew)|].
    split; [|auto].
    intros s' g' l' c'. fold (saved_row userId movieId s' g' l' c').
    rewrite (@update_first_exists userId movieId _ Hnew), Ex,
      (@update_first_again userId movieId _ Hnew). reflexivity.
  - split; [now apply (@find_appended userId movieId _ Hnew)|].
    split; [intros u k Hne; now apply (@find_appended_others userId movieId _ Hnew)|].
    split; [rewrite length_app; simpl; lia|].
    split.
    + unfold one_row_per_pair. rewrite map_app. apply NoDup_app; [exact Hinv| |].
      * repeat constructor. intros [].
      * intros p Hin [<-|[]]. simpl in Hin.
        apply existsb_same_pair_In in Hin. congruence.
    + split; [|auto].
      intros s' g' l' c'. fold (saved_row userId movieId s' g' l' c').
      rewrite existsb_app, Ex. simpl existsb. rewrite Hnew. simpl orb. cbv iota.
      rewrite (@update_first_appended userId movieId _ Hnew); [reflexivity|exact Ex].
Qed.

Lemma saveRecommendation_upserts_witness :
  Storage.getUser two_user_store 2 = Some genre_user /\
  integer_column 603 /\
  one_row_per_pair (userMovieRecommendations two_user_store) /\
  let db' := Storage.saveRecommendation two_user_store 2 603 (decimal 20 1)
               (Some (decimal 12 1)) (Some zero) (Some (decimal 8 1)) in
  lookup_row db' 2 603
    = Some (saved_row 2 603 (decimal 20 1) (decimal 12 1) zero (decimal 8 1)) /\
  lookup_row db' 1 603 = Some stored_row /\
  length (userMovieRecommendations db') = 3%nat.
Proof.
  assert (Hinv : one_row_per_pair (userMovieRecommendations two_user_store)).
  { repeat constructor; simpl; intuition discriminate. }
  assert (Hu : Storage.getUser two_user_store 2 = Some genre_user) by reflexivity.
  assert (Hid : integer_column 603) by (unfold integer_column; lia).
  split; [exact Hu|]. split; [exact Hid|]. split; [exact Hinv|].
  destruct (@saveRecommendation_upserts two_user_store 2 603 (decimal 20 1)
              (decimal 12 1) zero (decimal 8 1) genre_user Hu Hid Hinv)
    as (H1 & H2 & H3 & _).
  cbv zeta. split; [exact H1|]. split; [|exact H3].
  rewrite H2; [reflexivity|discriminate].
Defined.

Lemma filter_comm A (f g : A -> bool) l : filter f (filter g l) = filter g (filter f l).
Proof.
  induction l as [|x l IH]; simpl; [reflexivity|].
  destruct (f x) eqn:Ef, (g x) eqn:Eg; simpl; rewrite ?Ef, ?Eg, IH; reflexivity.
Qed.

Lemma rows_of_user_of_others u userId rows :
  u <> userId ->
  rows_of_user u (rows_of_others userId rows) = rows_of_user u rows.
Proof.
  intros Hne. unfold rows_of_user, rows_of_others.
  induction rows as [|row rows IH]; simpl; [reflexivity|].
  destruct (Z.eqb_spec (Schema.rec_userId row) userId) as [E|E]; simpl.
  - destruct (Z.eqb_spec (Schema.rec_userId row) u); [congruence|exact IH].
  - now rewrite IH.
Qed.

(** X19. [clearUserRecommendations] removes the rows of the user and no
    other row: the rows of every other user are as before, in their order.
    Clearing twice is clearing once, clearing two users can be done in either
    order, and a table with at most one row per (user, movie) stays so; the
    other tables are untouched. *)
Theorem clearUserRecommendations_removes_the_users_rows :
  forall (db : Store) (userId : Z),
    let db' := Storage.clearUserRecommendations db userId in
    rows_of_user userId (userMovieRecommendations db') = [] /\
    (forall u, u <> userId ->
       rows_of_user u (userMovieRecommendations db')
       = rows_of_user u (userMovieRecommendations db)) /\
    (length (userMovieRecommendations db')
     + length (rows_of_user userId (userMovieRecommendations db))
     = length (userMovieRecommendations db))%nat /\
    Storage.clearUserRecommendations db' userId = db' /\
    (forall u,
       Storage.clearUserRecommendations db' u
       = Storage.clearUserRecommendations (Storage.clearUserRecommendations db u) userId) /\
    (one_row_per_pair (userMovieRecommendations db) ->
     one_row_per_pair (userMovieRecommendations db')) /\
    users db' = users db /\ watchedMovies db' = watchedMovies db /\
    movieRatings db' = movieRatings db /\ movieLikes db' = movieLikes db.
Proof.
  intros db userId db'. unfold db', Storage.clearUserRecommendations.
  cbn [userMovieRecommendations Storage.set_recommendations users watchedMovies
       movieRatings movieLikes].
  fold (rows_of_others userId (userMovieRecommendations db)).
  split; [apply rows_of_user_others|].
  split; [intros u Hne; now apply rows_of_user_of_others|].
  split.
  { unfold rows_of_others, rows_of_user.
    induction (userMovieRecommendations db) as [|row rows IH]; simpl; [reflexivity|].
    destruct (Schema.rec_userId row =? userId); simpl; lia. }
  split.
  { unfold Storage.set_recommendations. cbn [userMovieRecommendations users watchedMovies
      movieRatings movieLikes].
    fold (rows_of_others userId (rows_of_others userId (userMovieRecommendations db))).
    now rewrite rows_of_others_twice. }
  split.
  { intros u. unfold Storage.set_recommendations.
    cbn [userMovieRecommendations users watchedMovies movieRatings movieLikes].
    f_equal. apply filter_comm. }
  split; [|auto].
  intros H. unfold one_row_per_pair, rows_of_others. now apply NoDup_map_filter.
Qed.

Lemma clearUserRecommendations_removes_the_users_rows_witness :
  one_row_per_pair (userMovieRecommendations two_user_store) /\
  let db' := Storage.clearUserRecommendations two_user_store 1 in
  userMovieRecommendations db' = [saved_row 2 603 (decimal 8 1) zero zero (decimal 8 1)] /\
  rows_of_user 2 (userMovieRecommendations db')
    = rows_of_user 2 (userMovieRecommendations two_user_store) /\
  one_row_per_pair (userMovieRecommendations db').
Proof.
  assert (Hinv : one_row_per_pair (userMovieRecommendations two_user_store)).
  { repeat constructor; simpl; intuition discriminate. }
  split; [exact Hinv|].
  destruct (clearUserRecommendations_removes_the_users_rows two_user_store 1)
    as (_ & Hothers & _ & _ & _ & Hkeep & _).
  cbv zeta. split; [reflexivity|]. split; [apply Hothers; discriminate|exact (Hkeep Hinv)].
Defined.

Lemma find_map_preserving A (p : A -> bool) (f : A -> A) l :
  (forall x, p (f x) = p x) -> find p (map f l) = option_map f (find p l).
Proof.
  intros H. induction l as [|x l IH]; simpl; [reflexivity|].
  rewrite H. destruct (p x); [reflexivity|exact IH].
Qed.

Lemma map_unchanged A (f : A -> A) l : (forall x, In x l -> f x = x) -> map f l = l.
Proof.
  intros H. induction l as [|x l IH]; simpl; [reflexivity|].
  rewrite H by now left. rewrite IH; [reflexivity|]. intros y Hy. apply H. now right.
Qed.

Lemma updateUserPreferences_getUser db userId preferences u :
  Storage.getUser (fst (updateUserPreferences db userId preferences)) u
  = option_map
      (fun row => if Schema.id row =? userId
                  then with_preferences (preferencesWithDefaults preferences) row
                  else row)
      (Storage.getUser db u).
Proof.
  unfold updateUserPreferences, Storage.getUser. cbn [fst users set_users].
  apply (find_map_preserving (fun row => Schema.id row =? u)).
  intros x. destruct (Schema.id x =? userId); reflexivity.
Qed.

Lemma updateUserPreferences_missing db userId preferences :
  Storage.getUser db userId = None ->
  updateUserPreferences db userId preferences = (db, None).
Proof.
  intros Hnone. unfold updateUserPreferences. rewrite Hnone. cbv zeta. simpl option_map.
  f_equal. rewrite map_unchanged.
  - destruct db. reflexivity.
  - intros x Hx. pose proof (find_none _ _ Hnone x Hx) as Hx'. simpl in Hx'.
    now rewrite Hx'.
Qed.

Lemma updateUserPreferences_found db userId preferences user :
  Storage.getUser db userId = Some user ->
  snd (updateUserPreferences db userId preferences)
    = Some (with_preferences (preferencesWithDefaults preferences) user) /\
  Storage.getUser (fst (updateUserPreferences db userId preferences)) userId
    = Some (with_preferences (preferencesWithDefaults preferences) user).
Proof.
  intros Hsome. split.
  - unfold updateUserPreferences. cbn [snd]. now rewrite Hsome.
  - rewrite updateUserPreferences_getUser, Hsome. simpl.
    apply find_some in Hsome. destruct Hsome as [_ E]. simpl in E. now rewrite E.
Qed.

Lemma preferencesWithDefaults_idempotent preferences :
  preferencesWithDefaults (preferencesWithDefaults preferences)
  = preferencesWithDefaults preferences.
Proof. reflexivity. Qed.

(** X20. [updateUserPreferences] stores the preferences with
    [favoriteMovies] and [country] always present ([[]] and the empty string
    when they were not given), on the user's row only: the row is returned
    and is what [getUser] finds afterwards, with the same id and level; every
    other user is as before; for an id without a row nothing changes and
    nothing is returned.  The stored country counts as a country for the
    engine exactly when the given one did, and the stored genres and
    languages are the given ones. *)
Theorem updateUserPreferences_round_trip :
  forall (db : Store) (userId : Z) (preferences : Schema.UserPreferences),
    let stored := preferencesWithDefaults preferences in
    let db' := fst (updateUserPreferences db userId preferences) in
    let returned := snd (updateUserPreferences db userId preferences) in
    (Storage.getUser db userId = None -> returned = None /\ db' = db) /\
    (forall user,
       Storage.getUser db userId = Some user ->
       returned = Some (with_preferences stored user) /\
       Storage.getUser db' userId = returned /\
       Storage.getUserLevel db' userId = Storage.getUserLevel db userId /\
       genres_of (with_preferences stored user)
         = match Schema.genres preferences with Some g => g | None => [] end /\
       languages_of (with_preferences stored user)
         = match Schema.languages preferences with Some l => l | None => [] end) /\
    (forall u, u <> userId -> Storage.getUser db' u = Storage.getUser db u) /\
    Schema.favoriteMovies stored <> None /\
    Schema.country stored <> None /\
    truthy (Schema.country stored) = truthy (Schema.country preferences) /\
    watchedMovies db' = watchedMovies db /\ movieRatings db' = movieRatings db /\
    movieLikes db' = movieLikes db /\
    userMovieRecommendations db' = userMovieRecommendations db.
Proof.
  intros db userId preferences stored db' returned.
  set (f := fun u : Schema.User =>
              if Schema.id u =? userId then with_preferences stored u else u).
  assert (Hid : forall u' x, (Schema.id (f x) =? u') = (Schema.id x =? u')).
  { intros u' x. unfold f. destruct (Schema.id x =? userId); reflexivity. }
  assert (Hget : forall u', Storage.getUser db' u' = option_map f (Storage.getUser db u')).
  { intros u'. unfold db', updateUserPreferences, Storage.getUser. cbn [fst users set_users].
    fold stored. fold f.
    apply (find_map_preserving (fun u => Schema.id u =? u')). intros x. apply Hid. }
  split; [|split; [|split]].
  - intros Hnone. split.
    + unfold returned, updateUserPreferences. cbn [snd]. now rewrite Hnone.
    + unfold db', updateUserPreferences. cbn [fst]. fold stored. fold f.
      rewrite map_unchanged.
      * destruct db. reflexivity.
      * intros x Hx. unfold f.
        pose proof (find_none _ _ Hnone x Hx) as Hx'. simpl in Hx'. now rewrite Hx'.
  - intros user Hsome.
    assert (Hf : f user = with_preferences stored user).
    { unfold f. apply find_some in Hsome. destruct Hsome as [_ E]. simpl in E.
      now rewrite E. }
    assert (Hr : returned = Some (with_preferences stored user)).
    { unfold returned, updateUserPreferences. cbn [snd]. now rewrite Hsome. }
    split; [exact Hr|]. split; [rewrite Hget, Hsome, Hr; simpl; now rewrite Hf|].
    split.
    + unfold Storage.getUserLevel. rewrite Hget, Hsome. simpl. now rewrite Hf.
    + split; reflexivity.
  - intros u Hne. rewrite Hget.
    destruct (Storage.getUser db u) as [user|] eqn:E; [|reflexivity].
    simpl. unfold f. apply find_some in E. destruct E as [_ E]. simpl in E.
    apply Z.eqb_eq in E. rewrite E.
    destruct (Z.eqb_spec u userId); [contradiction|reflexivity].
  - split; [discriminate|]. split; [discriminate|]. split; [|auto].
    unfold stored, preferencesWithDefaults. simpl.
    destruct (Schema.country preferences); reflexivity.
Qed.

Lemma updateUserPreferences_round_trip_witness :
  Storage.getUser sample_store 1 = Some plain_user /\
  let db' := fst (updateUserPreferences sample_store 1 action_fan) in
  (exists user,
     Storage.getUser db' 1 = Some user /\
     genres_of user = [28; 12] /\ country_of user = Some "" /\
     Schema.level user = Some "Beginner") /\
  Storage.getUser db' 2 = Some genre_user /\
  fst (updateUserPreferences sample_store 99 action_fan) = sample_store.
Proof.
  assert (Hu : Storage.getUser sample_store 1 = Some plain_user) by reflexivity.
  assert (Hn : Storage.getUser sample_store 99 = None) by reflexivity.
  split; [exact Hu|]. cbv zeta.
  destruct (updateUserPreferences_round_trip sample_store 1 action_fan)
    as (_ & Hsome & Hothers & _).
  destruct (Hsome plain_user Hu) as (Hr & Hget & _ & Hg & _).
  split; [|split].
  - eexists. split; [rewrite Hget; exact Hr|]. split; [exact Hg|]. split; reflexivity.
  - rewrite Hothers; [reflexivity|discriminate].
  - exact (proj2 (proj1 (updateUserPreferences_round_trip sample_store 99 action_fan) Hn)).
Defined.

(** X21. [getUserLevel] never gives an empty level name: it is the stored
    name when there is one, and Beginner for a user without a row and for a
    stored level that is null or the empty string. *)
Theorem getUserLevel_is_never_empty :
  forall (db : Store) (userId : Z),
    Storage.getUserLevel db userId <> "" /\
    (Storage.getUser db userId = None -> Storage.getUserLevel db userId = "Beginner") /\
    (forall user,
       Storage.getUser db userId = Some user ->
       (Schema.level user = None \/ Schema.level user = Some "" ->
        Storage.getUserLevel db userId = "Beginner") /\
       (forall name, Schema.level user = Some name -> name <> "" ->
                     Storage.getUserLevel db userId = name)).
Proof.
  intros db userId. unfold Storage.getUserLevel.
  destruct (Storage.getUser db userId) as [user|].
  - split.
    + destruct (Schema.level user) as [name|]; [|discriminate].
      destruct (String.eqb_spec name ""); [discriminate|assumption].
    + split; [discriminate|]. intros user' E. injection E as <-. split.
      * intros [->| ->]; reflexivity.
      * intros name -> Hne. destruct (String.eqb_spec name ""); [contradiction|reflexivity].
  - split; [discriminate|]. split; [reflexivity|]. discriminate.
Qed.

Lemma getUserLevel_is_never_empty_witness :
  Storage.getUser fan_store 3 = Some polyglot /\
  Schema.level polyglot = None /\
  Storage.getUserLevel fan_store 3 = "Beginner" /\
  Storage.getUser fan_store 2 = Some genre_user /\
  Storage.getUserLevel fan_store 2 = "Explorer" /\
  Storage.getUserLevel fan_store 99 = "Beginner".
Proof.
  assert (H3 : Storage.getUser fan_store 3 = Some polyglot) by reflexivity.
  assert (H2 : Storage.getUser fan_store 2 = Some genre_user) by reflexivity.
  assert (Hn : Storage.getUser fan_store 99 = None) by reflexivity.
  split; [exact H3|]. split; [reflexivity|].
  destruct (getUserLevel_is_never_empty fan_store 3) as (_ & _ & Hs3).
  destruct (getUserLevel_is_never_empty fan_store 2) as (_ & _ & Hs2).
  destruct (getUserLevel_is_never_empty fan_store 99) as (_ & Hnone & _).
  split; [apply (proj1 (Hs3 polyglot H3)); now left|]. split; [exact H2|].
  split; [apply (proj2 (Hs2 genre_user H2) "Explorer"); [reflexivity|discriminate]|].
  exact (Hnone Hn).
Defined.

(* ================================================================= *)
(** ** The recommendation routes *)

(** X22. [POST /api/recommendations/generate] answers status 500, never
    404, for an id without a row, and then nothing was cleared, written or
    requested.  With a provider whose movie ids fit the integer column of
    the table (so that every row of the run can be saved), it answers status
    200 with the success message for every user that has a row, the world
    being the one the engine's run leaves, even when no movie was found or
    the provider is down; the status is then 200 exactly when the user has
    a row. *)
Theorem generate_route_status :
  forall (apiKey : string) (provider : Provider) (userId : Z) (w : World),
    (Storage.getUser (store w) userId = None ->
     generateRoute apiKey provider userId w
     = (Ok {| status := 500; json := JMessage "Failed to generate recommendations" |}, w)) /\
    (ids_fit_the_column provider ->
     (forall user,
        Storage.getUser (store w) userId = Some user ->
        exists w',
          generateRoute apiKey provider userId w
          = (Ok {| status := 200;
                   json := JMessage "Recommendations generated successfully" |}, w') /\
          w' = snd (generateRecommendationsForUser apiKey provider userId w) /\
          store w' = Storage.set_recommendations (store w)
                       (rows_of_others userId (userMovieRecommendations (store w))
                        ++ map (row_of userId) (ranked_of apiKey provider userId user w)) /\
          Forall (fun row => integer_column (Schema.rec_movieId row))
                 (rows_of_user userId (userMovieRecommendations (store w')))) /\
     (exists response w',
        generateRoute apiKey provider userId w = (Ok response, w') /\
        (status response = 200 <-> Storage.getUser (store w) userId <> None))).
Proof.
  intros apiKey provider userId w.
  assert (Hnone : Storage.getUser (store w) userId = None ->
                  generateRoute apiKey provider userId w
                  = (Ok {| status := 500;
                           json := JMessage "Failed to generate recommendations" |}, w)).
  { intros Hu. unfold generateRoute, try_catch, bind.
    unfold generateRecommendationsForUser, bind, read_store. rewrite Hu. reflexivity. }
  assert (Hsome : forall user,
            Storage.getUser (store w) userId = Some user ->
            generateRoute apiKey provider userId w
            = (Ok {| status := 200;
                     json := JMessage "Recommendations generated successfully" |},
               snd (generateRecommendationsForUser apiKey provider userId w))).
  { intros user Hu. unfold generateRoute, try_catch, bind.
    rewrite (generate_run apiKey provider userId w Hu). reflexivity. }
  split; [exact Hnone|]. intros Hfit. split.
  - intros user Hu. eexists. split; [exact (Hsome user Hu)|]. split; [reflexivity|].
    rewrite (generate_run apiKey provider userId w Hu). cbn [snd store].
    unfold ranked_of. rewrite saved_after_clear. split; [reflexivity|].
    cbn [userMovieRecommendations Storage.set_recommendations].
    unfold rows_of_user at 1. rewrite filter_app.
    fold (rows_of_user userId (rows_of_others userId (userMovieRecommendations (store w)))).
    rewrite rows_of_user_others. simpl app.
    apply Forall_forall. intros row Hrow. apply filter_In in Hrow. destruct Hrow as [Hrow _].
    apply in_map_iff in Hrow. destruct Hrow as (e & <- & He). simpl.
    assert (Hk : In (movieId e)
                    (map movieId (array_sort byScoreDescending
                                    (mergeAndScoreRecommendations
                                       (candidates_of apiKey provider userId user w)))))
      by now apply in_map.
    apply ranked_ids_In, in_map_iff in Hk. destruct Hk as (c & Ec & Hc).
    destruct (candidates_answered _ _ _ _ _ _ Hc)
      as (movie & Em & (before & request & after & page & _ & Hp & Hin)).
    rewrite <- Ec, Em. specialize (Hfit _ _ _ Hp). rewrite Forall_forall in Hfit.
    now apply Hfit.
  - destruct (Storage.getUser (store w) userId) as [user|] eqn:Hu.
    + do 2 eexists. split; [exact (Hsome user eq_refl)|]. simpl.
      split; [discriminate|reflexivity].
    + do 2 eexists. split; [exact (Hnone eq_refl)|]. simpl.
      split; [discriminate|]. intros H. now contradiction H.
Qed.

Lemma generate_route_status_witness :
  Storage.getUser (store sample_world) 99 = None /\
  generateRoute "key" sample_provider 99 sample_world
    = (Ok {| status := 500; json := JMessage "Failed to generate recommendations" |},
       sample_world) /\
  ids_fit_the_column sample_provider /\
  ids_fit_the_column failing_provider /\
  Storage.getUser (store sample_world) 1 = Some plain_user /\
  fst (generateRoute "key" sample_provider 1 sample_world)
    = Ok {| status := 200; json := JMessage "Recommendations generated successfully" |} /\
  fst (generateRoute "key" failing_provider 1 sample_world)
    = Ok {| status := 200; json := JMessage "Recommendations generated successfully" |}.
Proof.
  assert (Hn : Storage.getUser (store sample_world) 99 = None) by reflexivity.
  assert (Hu : Storage.getUser (store sample_world) 1 = Some plain_user) by reflexivity.
  assert (Hfit : ids_fit_the_column sample_provider).
  { intros history request page E. unfold sample_provider in E.
    repeat match type of E with
           | (if ?c then _ else _) = _ => destruct c
           end;
      injection E as <-; repeat constructor; simpl; unfold integer_column; lia. }
  assert (Hdown : ids_fit_the_column failing_provider).
  { intros history request page E. discriminate E. }
  split; [exact Hn|].
  split; [exact (proj1 (generate_route_status "key" sample_provider 99 sample_world) Hn)|].
  split; [exact Hfit|]. split; [exact Hdown|]. split; [exact Hu|]. split.
  - destruct (proj1 (proj2 (generate_route_status "key" sample_provider 1 sample_world) Hfit)
                plain_user Hu) as (w' & E & _).
    now rewrite E.
  - destruct (proj1 (proj2 (generate_route_status "key" failing_provider 1 sample_world)
                       Hdown) plain_user Hu) as (w' & E & _).
    now rewrite E.
Defined.

(** X23. [POST /api/recommendations/onboarding] always answers.  A body the
    schema rejects gets status 400 and changes nothing; no request is made.
    An accepted body gets status 200 with at most 20 movie ids (possibly
    none: a failing provider never turns into an error status); before the
    one to four requests are made the preferences are stored for the user,
    with the defaults of [updateUserPreferences], and nothing else of the
    database changes. *)
Theorem onboarding_route_answers :
  forall (apiKey : string) (provider : Provider) (userId : Z)
         (parsed : option Schema.UserPreferences) (w : World),
    exists response w',
      onboardingRoute apiKey provider userId parsed w = (Ok response, w') /\
      match parsed with
      | None =>
          response = {| status := 400; json := JMessage "Invalid preferences data" |} /\
          w' = w
      | Some data =>
          exists movieIds,
            response = {| status := 200; json := JMovieIds movieIds |} /\
            (length movieIds <= 20)%nat /\
            store w' = fst (updateUserPreferences (store w) userId data) /\
            (1 <= length (issued w w') <= 4)%nat /\
            requests w' = requests w ++ issued w w' /\
            getOnboardingRecommendations apiKey provider data
              {| store := fst (updateUserPreferences (store w) userId data);
                 requests := requests w |}
            = (Ok movieIds, w')
      end.
Proof.
  intros apiKey provider userId parsed w. unfold onboardingRoute, try_catch.
  destruct parsed as [data|].
  - unfold bind at 1. unfold write_store. cbv beta iota.
    set (w0 := {| store := fst (updateUserPreferences (store w) userId data);
                  requests := requests w |}).
    destruct (onboarding_shape apiKey provider data w0)
      as (allResults & new & E & Hlen & _ & _).
    unfold bind. rewrite E. unfold ret.
    do 2 eexists. split; [reflexivity|].
    exists (map id (firstn 20 allResults)). split; [reflexivity|].
    split; [apply first_ids_length|]. split; [reflexivity|].
    assert (Hi : issued w (log_extend w0 new) = new).
    { unfold issued, log_extend, w0. simpl.
      rewrite skipn_app, skipn_all, Nat.sub_diag. reflexivity. }
    rewrite Hi. split; [exact Hlen|]. split; reflexivity.
  - unfold ret. do 2 eexists. split; [reflexivity|]. auto.
Qed.

(** X24. The preferences routes.  [PUT /api/preferences] answers 400 for a
    rejected body and 404 for a user without a row, changing nothing in
    either case; otherwise it answers 200 with the updated row, and a
    [GET /api/preferences] made afterwards answers 200 with the preferences
    just stored: the given ones with [favoriteMovies] and [country] filled
    in.  Putting the same body again changes nothing more. *)
Theorem preferences_put_then_get :
  forall (userId : Z) (w : World),
    putPreferencesRoute userId None w
      = (Ok {| status := 400; json := JMessage "Invalid preferences data" |}, w) /\
    (forall data,
       Storage.getUser (store w) userId = None ->
       putPreferencesRoute userId (Some data) w
         = (Ok {| status := 404; json := JMessage "User not found" |}, w) /\
       getPreferencesRoute userId w
         = (Ok {| status := 404; json := JMessage "User not found" |}, w)) /\
    (forall data user,
       Storage.getUser (store w) userId = Some user ->
       let stored := preferencesWithDefaults data in
       exists w',
         putPreferencesRoute userId (Some data) w
           = (Ok {| status := 200; json := JUser (with_preferences stored user) |}, w') /\
         getPreferencesRoute userId w'
           = (Ok {| status := 200; json := JPreferences (Some stored) |}, w') /\
         putPreferencesRoute userId (Some data) w'
           = (Ok {| status := 200; json := JUser (with_preferences stored user) |}, w') /\
         requests w' = requests w).
Proof.
  intros userId w. split; [reflexivity|]. split.
  - intros data Hnone. split.
    + unfold putPreferencesRoute, try_catch, bind.
      rewrite (updateUserPreferences_missing _ _ data Hnone). cbn [fst snd].
      unfold ret. destruct w. reflexivity.
    + unfold getPreferencesRoute, try_catch, bind, read_store. now rewrite Hnone.
  - intros data user Hu stored.
    destruct (updateUserPreferences_found _ _ data Hu) as [Hr Hg]. fold stored in Hr, Hg.
    set (w' := {| store := fst (updateUserPreferences (store w) userId data);
                  requests := requests w |}).
    assert (Hput : putPreferencesRoute userId (Some data) w
                   = (Ok {| status := 200; json := JUser (with_preferences stored user) |},
                      w')).
    { unfold putPreferencesRoute, try_catch, bind. cbv zeta. rewrite Hr. reflexivity. }
    exists w'. split; [exact Hput|]. split; [|split; [|reflexivity]].
    + unfold getPreferencesRoute, try_catch, bind, read_store.
      change (store w') with (fst (updateUserPreferences (store w) userId data)).
      rewrite Hg. reflexivity.
    + assert (Hg' : Storage.getUser (store w') userId = Some (with_preferences stored user))
        by exact Hg.
      destruct (updateUserPreferences_found _ _ data Hg') as [Hr2 Hg2].
      unfold putPreferencesRoute, try_catch, bind. cbv zeta. rewrite Hr2.
      unfold ret. f_equal. unfold w'. f_equal.
      cbn [store]. unfold updateUserPreferences. cbn [fst users set_users].
      unfold set_users. cbn [users watchedMovies movieRatings movieLikes
                             userMovieRecommendations].
      f_equal. rewrite map_map. apply map_ext. intros row.
      destruct (Schema.id row =? userId) eqn:E; simpl; rewrite E; reflexivity.
Qed.

Lemma preferences_put_then_get_witness :
  Storage.getUser (store sample_world) 1 = Some plain_user /\
  Storage.getUser (store sample_world) 99 = None /\
  (exists w',
     fst (putPreferencesRoute 1 (Some action_fan) sample_world)
       = Ok {| status := 200;
               json := JUser (with_preferences (preferencesWithDefaults action_fan)
                                plain_user) |} /\
     getPreferencesRoute 1 w'
       = (Ok {| status := 200;
                json := JPreferences (Some (preferencesWithDefaults action_fan)) |}, w')) /\
  putPreferencesRoute 99 (Some action_fan) sample_world
    = (Ok {| status := 404; json := JMessage "User not found" |}, sample_world).
Proof.
  assert (Hu : Storage.getUser (store sample_world) 1 = Some plain_user) by reflexivity.
  assert (Hn : Storage.getUser (store sample_world) 99 = None) by reflexivity.
  split; [exact Hu|]. split; [exact Hn|]. split.
  - destruct (preferences_put_then_get 1 sample_world) as (_ & _ & Hsome).
    destruct (Hsome action_fan plain_user Hu) as (w' & Hput & Hget & _).
    exists w'. split; [now rewrite Hput|exact Hget].
  - destruct (preferences_put_then_get 99 sample_world) as (_ & Hnone & _).
    exact (proj1 (Hnone action_fan Hn)).
Defined.

(* ================================================================= *)
(** ** Experience points, likes and ratings *)

Lemma updateUserExperience_missing db userId xpPoints :
  Storage.getUser (tables db) userId = None ->
  updateUserExperience db userId xpPoints = (db, None).
Proof. intros H. unfold updateUserExperience. now rewrite H. Qed.

Lemma updateUserExperience_tables db userId xpPoints :
  let db' := fst (updateUserExperience db userId xpPoints) in
  watchedMovies (tables db') = watchedMovies (tables db) /\
  movieRatings (tables db') = movieRatings (tables db) /\
  movieLikes (tables db') = movieLikes (tables db) /\
  userMovieRecommendations (tables db') = userMovieRecommendations (tables db).
Proof.
  unfold updateUserExperience.
  destruct (Storage.getUser (tables db) userId); simpl; auto.
Qed.

Lemma updateUserExperience_others db userId xpPoints u :
  u <> userId ->
  Storage.getUser (tables (fst (updateUserExperience db userId xpPoints))) u
    = Storage.getUser (tables db) u /\
  experience (fst (updateUserExperience db userId xpPoints)) u = experience db u.
Proof.
  intros Hne. unfold updateUserExperience.
  destruct (Storage.getUser (tables db) userId) as [user|]; [|auto].
  cbv zeta. cbn [fst tables experience]. split.
  - unfold Storage.getUser. cbn [users set_users].
    rewrite (find_map_preserving (fun row => Schema.id row =? u)).
    + destruct (find (fun row => Schema.id row =? u) (users (tables db))) as [row|] eqn:E;
        [|reflexivity].
      simpl. apply find_some in E. destruct E as [_ E]. apply Z.eqb_eq in E. rewrite E.
      destruct (Z.eqb_spec u userId); [contradiction|reflexivity].
    + intros x. destruct (Schema.id x =? userId); reflexivity.
  - destruct (Z.eqb_spec u userId); [contradiction|reflexivity].
Qed.

Lemma updateUserExperience_found db userId xpPoints user :
  Storage.getUser (tables db) userId = Some user ->
  exists level,
    level = (let newXp := experience_of db userId + xpPoints in
             if 301 <=? newXp then "Connoisseur"
             else if 151 <=? newXp then "Cinephile"
             else if 51 <=? newXp then "Explorer"
             else "Beginner") /\
    snd (updateUserExperience db userId xpPoints)
      = Some (with_level level user, experience_of db userId + xpPoints) /\
    Storage.getUser (tables (fst (updateUserExperience db userId xpPoints))) userId
      = Some (with_level level user) /\
    experience (fst (updateUserExperience db userId xpPoints)) userId
      = Some (experience_of db userId + xpPoints).
Proof.
  intros Hu. eexists. split; [reflexivity|].
  unfold updateUserExperience. rewrite Hu. cbv zeta. cbn [fst snd tables experience].
  fold (experience_of db userId). split; [reflexivity|]. split.
  - unfold Storage.getUser. cbn [users set_users].
    rewrite (find_map_preserving (fun row => Schema.id row =? userId)).
    + unfold Storage.getUser in Hu. rewrite Hu. simpl.
      apply find_some in Hu. destruct Hu as [_ E]. simpl in E. now rewrite E.
    + intros x. destruct (Schema.id x =? userId) eqn:E; simpl; exact E.
  - now rewrite Z.eqb_refl.
Qed.

(** X25. [updateUserExperience], when the stored experience and the new
    total fit the integer column (the updates the database accepts), adds
    the points to the stored experience (null counting as 0) and sets the
    level from the new total alone, whatever the level was: Connoisseur from
    301, Cinephile from 151, Explorer from 51, Beginner below.  The level it
    stores is therefore always one of the four names the level generator has
    a profile for, never a name that would get the generator's default
    profile.  The user's preferences, the other users and the other tables
    are untouched; for an id without a row nothing changes and nothing is
    returned. *)
Theorem experience_update_sets_the_level :
  forall (db : Db) (userId xpPoints : Z),
    (Storage.getUser (tables db) userId = None ->
     updateUserExperience db userId xpPoints = (db, None)) /\
    (forall user,
       Storage.getUser (tables db) userId = Some user ->
       integer_column (experience_of db userId) ->
       integer_column (experience_of db userId + xpPoints) ->
       let newXp := experience_of db userId + xpPoints in
       let db' := fst (updateUserExperience db userId xpPoints) in
       exists level,
         snd (updateUserExperience db userId xpPoints)
           = Some (with_level level user, newXp) /\
         integer_column (experience_of db' userId) /\
         (301 <= newXp -> level = "Connoisseur") /\
         (151 <= newXp < 301 -> level = "Cinephile") /\
         (51 <= newXp < 151 -> level = "Explorer") /\
         (newXp < 51 -> level = "Beginner") /\
         named_level level /\
         (forall apiKey,
            In (levelProfile apiKey level)
               [beginnerParams apiKey; explorerParams apiKey;
                cinephileParams apiKey; connoisseurParams apiKey]) /\
         Storage.getUser (tables db') userId = Some (with_level level user) /\
         Storage.getUserLevel (tables db') userId = level /\
         experience_of db' userId = newXp /\
         Schema.preferences (with_level level user) = Schema.preferences user /\
         (forall u, u <> userId ->
            Storage.getUser (tables db') u = Storage.getUser (tables db) u /\
            experience db' u = experience db u) /\
         watchedMovies (tables db') = watchedMovies (tables db) /\
         movieRatings (tables db') = movieRatings (tables db) /\
         movieLikes (tables db') = movieLikes (tables db) /\
         userMovieRecommendations (tables db') = userMovieRecommendations (tables db)).
Proof.
  intros db userId xpPoints. split; [apply updateUserExperience_missing|].
  intros user Hu Hold Hfit newXp db'.
  destruct (@updateUserExperience_found db userId xpPoints user Hu)
    as (level & El & Hr & Hg & Hx).
  fold newXp in El, Hr, Hx, Hfit. fold db' in Hg, Hx. cbv zeta in El.
  exists level. split; [exact Hr|].
  split; [unfold experience_of; rewrite Hx; exact Hfit|].
  assert (Hcases : (301 <= newXp /\ level = "Connoisseur") \/
                   (151 <= newXp < 301 /\ level = "Cinephile") \/
                   (51 <= newXp < 151 /\ level = "Explorer") \/
                   (newXp < 51 /\ level = "Beginner")).
  { rewrite El.
    destruct (Z.leb_spec 301 newXp); [left; auto|].
    destruct (Z.leb_spec 151 newXp); [right; left; split; [lia|reflexivity]|].
    destruct (Z.leb_spec 51 newXp); [right; right; left; split; [lia|reflexivity]|].
    right; right; right. auto. }
  split; [intros H; destruct Hcases as [[_ E]|[[H' _]|[[H' _]|[H' _]]]]; (exact E || lia)|].
  split; [intros H; destruct Hcases as [[H' _]|[[_ E]|[[H' _]|[H' _]]]]; (exact E || lia)|].
  split; [intros H; destruct Hcases as [[H' _]|[[H' _]|[[_ E]|[H' _]]]]; (exact E || lia)|].
  split; [intros H; destruct Hcases as [[H' _]|[[H' _]|[[H' _]|[_ E]]]]; (exact E || lia)|].
  assert (Hnamed : named_level level).
  { unfold named_level. destruct Hcases as [[_ E]|[[_ E]|[[_ E]|[_ E]]]]; auto. }
  split; [exact Hnamed|].
  split.
  { intros apiKey. destruct Hnamed as [->|[->|[->| ->]]]; simpl; auto. }
  split; [exact Hg|].
  split.
  { unfold Storage.getUserLevel. rewrite Hg. simpl.
    destruct Hnamed as [->|[->|[->| ->]]]; reflexivity. }
  split; [unfold experience_of; now rewrite Hx|].
  split; [reflexivity|].
  split; [intros u Hne; now apply updateUserExperience_others|].
  apply updateUserExperience_tables.
Qed.

Lemma experience_update_sets_the_level_witness :
  Storage.getUser (tables fan_db) 3 = Some polyglot /\
  integer_column (experience_of fan_db 3) /\
  integer_column (experience_of fan_db 3 + 3) /\
  integer_column (experience_of fan_db 3 + 2) /\
  experience_of fan_db 3 = 48 /\
  Storage.getUserLevel (tables fan_db) 3 = "Beginner" /\
  Storage.getUserLevel (tables (fst (updateUserExperience fan_db 3 3))) 3 = "Explorer" /\
  experience_of (fst (updateUserExperience fan_db 3 3)) 3 = 51 /\
  Storage.getUserLevel (tables (fst (updateUserExperience fan_db 3 2))) 3 = "Beginner".
Proof.
  assert (Hu : Storage.getUser (tables fan_db) 3 = Some polyglot) by reflexivity.
  assert (H48 : integer_column (experience_of fan_db 3))
    by (vm_compute; split; congruence).
  assert (H3 : integer_column (experience_of fan_db 3 + 3))
    by (vm_compute; split; congruence).
  assert (H2 : integer_column (experience_of fan_db 3 + 2))
    by (vm_compute; split; congruence).
  split; [exact Hu|]. split; [exact H48|]. split; [exact H3|]. split; [exact H2|].
  split; [reflexivity|]. split; [reflexivity|].
  destruct (proj2 (experience_update_sets_the_level fan_db 3 3) polyglot Hu H48 H3)
    as (level & _ & _ & _ & _ & H51 & _ & _ & _ & _ & Hl & Hx & _).
  destruct (proj2 (experience_update_sets_the_level fan_db 3 2) polyglot Hu H48 H2)
    as (level' & _ & _ & _ & _ & _ & H50 & _ & _ & _ & Hl' & _).
  split; [rewrite Hl; apply H51; vm_compute; split; congruence|].
  split; [exact Hx|]. rewrite Hl'. apply H50. reflexivity.
Defined.

(** *** Likes *)









(** *** Ratings *)

Lemma same_rating_pair u k row :
  same_rating u k row = true <->
  (Schema.rating_userId row, Schema.rating_movieId row) = (u, k).
Proof.
  unfold same_rating. rewrite andb_true_iff, !Z.eqb_eq. split.
  - intros [-> ->]. reflexivity.
  - intros E. injection E as -> ->. auto.
Qed.







Lemma update_rating_In u k rating rows row :
  In row (update_rating u k rating rows) ->
  In row rows \/
  row = {| Schema.rating_userId := u; Schema.rating_movieId := k; Schema.rating := rating |}.
Proof.
  induction rows as [|r rows IH]; simpl; [tauto|].
  destruct (same_rating u k r) eqn:E; simpl.
  - intros [<-|H]; [|auto]. right.
    apply same_rating_pair in E. injection E as -> ->. reflexivity.
  - intros [<-|H]; [auto|]. destruct (IH H); auto.
Qed.








(* ================================================================= *)
(** ** The progress bar *)

Lemma rounded_not_nan s x : rounded s x -> is_nan x = false.
Proof. destruct x; simpl; tauto. Qed.

Lemma sub_not_nan x y :
  is_nan x = false -> zero_or_finite y -> is_nan (sub x y) = false.
Proof.
  destruct x as [sx|sx| |sx mx ex], y as [sy|sy| |sy my ey]; simpl; try tauto;
    try discriminate; intros _ _.
  - destruct sx, sy; reflexivity.
  - unfold sub, SFsub. cbv zeta. unfold binary_normalize.
    match goal with |- context [match ?z with Z0 => _ | Zpos _ => _ | Zneg _ => _ end] =>
      destruct z end; [reflexivity| |];
      eapply rounded_not_nan, FloatFacts.binary_round_rounded.
Qed.

Lemma div_finite_not_nan x s m e :
  is_nan x = false -> is_nan (div x (S754_finite s m e)) = false.
Proof.
  destruct x as [sx|sx| |sx mx ex]; simpl; try discriminate; try reflexivity. intros _.
  unfold div, SFdiv, SFdiv_core_binary. cbv zeta.
  match goal with |- context [Z.div_eucl ?a ?b] =>
    assert (Ha : 0 <= a);
    [|pose proof (Z.div_pos a b Ha ltac:(lia)) as Hq; unfold Z.div in Hq;
      destruct (Z.div_eucl a b) as [q r]] end.
  - match goal with |- 0 <= match ?z with _ => _ end => destruct z end;
      try lia. apply Z.shiftl_nonneg. lia.
  - eapply rounded_not_nan, FloatFacts.binary_round_aux_rounded. exact Hq.
Qed.

Lemma mul_finite_not_nan x s m e :
  is_nan x = false -> is_nan (mul x (S754_finite s m e)) = false.
Proof.
  destruct x as [sx|sx| |sx mx ex]; simpl; try discriminate; try reflexivity. intros _.
  unfold mul, SFmul. eapply rounded_not_nan, FloatFacts.binary_round_aux_rounded. lia.
Qed.

Lemma Math_min_spec a b :
  is_nan a = false -> is_nan b = false ->
  (Math_min a b = b /\ leb b a = true) \/ (Math_min a b = a /\ leb a b = true).
Proof.
  intros Ha Hb. unfold Math_min. rewrite Ha, Hb. simpl.
  destruct (NumFacts.value_not_nan a Ha) as [u Hu], (NumFacts.value_not_nan b Hb) as [v Hv].
  assert (Hcases : (ltb b a = true /\ leb b a = true) \/ (ltb b a = false /\ leb a b = true)).
  { unfold ltb, leb, compare. rewrite Hu, Hv, (NumFacts.ereal_compare_antisym v u).
    destruct (ereal_compare v u); simpl; auto. }
  destruct a as [[|]| | |]; destruct b as [[|]| | |];
    try discriminate;
    try (destruct Hcases as [[-> H]|[-> H]]; [left|right]; split; auto; fail);
    left; split; auto.
Qed.

(** Clamping to [0, 100]. *)
Lemma clamp_bounds x :
  is_nan x = false ->
  let p := Math_min (ofZ 100) (max (ofZ 0) x) in
  is_nan p = false /\ leb (ofZ 0) p = true /\ leb p (ofZ 100) = true.
Proof.
  intros Hx p.
  assert (H0 : is_nan (ofZ 0) = false) by reflexivity.
  assert (H100 : is_nan (ofZ 100) = false) by reflexivity.
  assert (Hm : is_nan (max (ofZ 0) x) = false /\ leb (ofZ 0) (max (ofZ 0) x) = true).
  { destruct (NumFacts.max_spec (ofZ 0) x H0 Hx) as [[-> H]|[-> H]]; auto. }
  destruct Hm as [Hm Hle].
  unfold p. destruct (Math_min_spec (ofZ 100) (max (ofZ 0) x) H100 Hm) as [[-> H]|[-> H]].
  - auto.
  - split; [reflexivity|]. split; reflexivity.
Qed.

Lemma percent_not_nan xp c r :
  is_nan xp = false -> zero_or_finite c ->
  (exists s m e, r = S754_finite s m e) ->
  is_nan (mul (div (sub xp c) r) (ofZ 100)) = false.
Proof.
  intros Hx Hc (s & m & e & ->).
  change (ofZ 100) with (S754_finite false 7036874417766400 (-46)).
  apply mul_finite_not_nan, div_finite_not_nan, sub_not_nan; assumption.
Qed.

(** X28. The value of the progress bar is a percentage: for every level
    name, known or not, and every experience value that is a number (however
    large, negative or inconsistent with the level), it is a number between
    0 and 100; it is 100 for the last level, which has no next one. *)
Theorem progress_is_a_percentage :
  forall (experiencePoints : number) (currentLevelName : string),
    is_nan experiencePoints = false ->
    let p := progressPercent experiencePoints currentLevelName in
    is_nan p = false /\ leb (ofZ 0) p = true /\ leb p (ofZ 100) = true /\
    (currentLevelName = "Connoisseur" -> p = ofZ 100).
Proof.
  intros xp level Hx p.
  assert (Hfull : is_nan (ofZ 100) = false /\ leb (ofZ 0) (ofZ 100) = true /\
                  leb (ofZ 100) (ofZ 100) = true) by (repeat split; reflexivity).
  unfold p, progressPercent, currentLevel, levels. cbn [find name].
  assert (Hclamp : forall c r,
            zero_or_finite c -> (exists s m e, r = S754_finite s m e) ->
            let q := Math_min (ofZ 100)
                       (max (ofZ 0) (mul (div (sub xp c) r) (ofZ 100))) in
            is_nan q = false /\ leb (ofZ 0) q = true /\ leb q (ofZ 100) = true).
  { intros c r Hc Hr. apply clamp_bounds, percent_not_nan; assumption. }
  destruct (String.eqb_spec "Beginner" level) as [E1|N1].
  { destruct (Hclamp (ofZ 0) (sub (ofZ 50) (ofZ 0)) I) as (H1 & H2 & H3);
      [do 3 eexists; reflexivity|].
    repeat split; try assumption. intros ->. discriminate E1. }
  destruct (String.eqb_spec "Explorer" level) as [E2|N2].
  { destruct (Hclamp (ofZ 51) (sub (ofZ 150) (ofZ 51)) I) as (H1 & H2 & H3);
      [do 3 eexists; reflexivity|].
    repeat split; try assumption. intros ->. discriminate E2. }
  destruct (String.eqb_spec "Cinephile" level) as [E3|N3].
  { destruct (Hclamp (ofZ 151) (sub (ofZ 300) (ofZ 151)) I) as (H1 & H2 & H3);
      [do 3 eexists; reflexivity|].
    repeat split; try assumption. intros ->. discriminate E3. }
  destruct (String.eqb_spec "Connoisseur" level) as [E4|N4].
  { repeat split; reflexivity. }
  destruct (Hclamp (ofZ 0) (sub (ofZ 50) (ofZ 0)) I) as (H1 & H2 & H3);
    [do 3 eexists; reflexivity|].
  repeat split; try assumption. intros ->. now contradiction N4.
Qed.

Lemma progress_is_a_percentage_witness :
  is_nan (ofZ 75) = false /\
  progressPercent (ofZ 75) "Explorer"
    = mul (div (ofZ 24) (ofZ 99)) (ofZ 100) /\
  leb (ofZ 24) (progressPercent (ofZ 75) "Explorer") = true /\
  leb (progressPercent (ofZ 75) "Explorer") (ofZ 25) = true /\
  leb (progressPercent (ofZ 75) "Explorer") (ofZ 100) = true /\
  progressPercent (ofZ 1000) "Beginner" = ofZ 100 /\
  progressPercent (ofZ (-5)) "Beginner" = ofZ 0.
Proof.
  assert (Hx : is_nan (ofZ 75) = false) by reflexivity.
  split; [exact Hx|].
  destruct (progress_is_a_percentage (ofZ 75) "Explorer" Hx) as (_ & _ & H100 & _).
  split; [reflexivity|]. split; [reflexivity|]. split; [reflexivity|].
  split; [exact H100|]. split; reflexivity.
Defined.

(** X29. The level table of the progress bar agrees with the thresholds of
    [updateUserExperience]: whenever the server stores a new total of
    experience points that is not negative, the level name it stores is in
    the table, the total lies in the range the table gives that level and in
    no other, and the points the bar shows as missing for the next level are
    positive; the ranges follow each other without gap, and only
    Connoisseur has no next level. *)
Theorem level_table_matches_the_server :
  forall (db : Db) (userId xpPoints : Z) (user : Schema.User),
    Storage.getUser (tables db) userId = Some user ->
    0 <= experience_of db userId + xpPoints ->
    let newXp := experience_of db userId + xpPoints in
    exists level,
      snd (updateUserExperience db userId xpPoints) = Some (with_level level user, newXp) /\
      let shown := currentLevel level in
      name shown = level /\
      In shown levels /\
      in_range newXp shown /\
      (forall l, In l levels -> in_range newXp l -> l = shown) /\
      match nextLevel shown with
      | Some next => 0 < minXP next - newXp /\ maxXP shown = Some (minXP next - 1)
      | None => level = "Connoisseur"
      end.
Proof.
  intros db userId xpPoints user Hu Hpos newXp.
  destruct (@updateUserExperience_found db userId xpPoints user Hu)
    as (level & El & Hr & _ & _).
  fold newXp in El, Hr. cbv zeta in El. change (0 <= newXp) in Hpos.
  exists level. split; [exact Hr|]. cbv zeta. clear Hr. clearbody newXp.
  assert (Hunique : forall shown,
            In shown levels -> in_range newXp shown ->
            forall l, In l levels -> in_range newXp l -> l = shown).
  { unfold levels, in_range. simpl.
    intros shown Hs Hrs l Hl Hrl.
    destruct Hs as [<-|[<-|[<-|[<-|[]]]]]; destruct Hl as [<-|[<-|[<-|[<-|[]]]]];
      simpl in *; try reflexivity; exfalso; lia. }
  assert (Hshape : forall shown,
            In shown levels -> in_range newXp shown -> name shown = level ->
            currentLevel level = shown ->
            match nextLevel shown with
            | Some next => 0 < minXP next - newXp /\ maxXP shown = Some (minXP next - 1)
            | None => level = "Connoisseur"
            end ->
            name (currentLevel level) = level /\
            In (currentLevel level) levels /\
            in_range newXp (currentLevel level) /\
            (forall l, In l levels -> in_range newXp l -> l = currentLevel level) /\
            match nextLevel (currentLevel level) with
            | Some next =>
                0 < minXP next - newXp /\ maxXP (currentLevel level) = Some (minXP next - 1)
            | None => level = "Connoisseur"
            end).
  { intros shown Hin Hrange Hname -> Hnext. repeat split; try assumption.
    - apply Hrange.
    - apply Hrange.
    - now apply Hunique. }
  destruct (Z.leb_spec 301 newXp) as [H3|H3].
  { subst level.
    apply (Hshape {| name := "Connoisseur"; minXP := 301; maxXP := None |});
      [simpl; tauto|unfold in_range; simpl; lia|reflexivity|reflexivity|reflexivity]. }
  destruct (Z.leb_spec 151 newXp) as [H2|H2].
  { subst level.
    apply (Hshape {| name := "Cinephile"; minXP := 151; maxXP := Some 300 |});
      [simpl; tauto|unfold in_range; simpl; lia|reflexivity|reflexivity|].
    change (0 < 301 - newXp /\ Some 300 = Some (301 - 1)). split; [lia|reflexivity]. }
  destruct (Z.leb_spec 51 newXp) as [H1|H1].
  { subst level.
    apply (Hshape {| name := "Explorer"; minXP := 51; maxXP := Some 150 |});
      [simpl; tauto|unfold in_range; simpl; lia|reflexivity|reflexivity|].
    change (0 < 151 - newXp /\ Some 150 = Some (151 - 1)). split; [lia|reflexivity]. }
  subst level.
  apply (Hshape {| name := "Beginner"; minXP := 0; maxXP := Some 50 |});
    [simpl; tauto|unfold in_range; simpl; lia|reflexivity|reflexivity|].
  change (0 < 51 - newXp /\ Some 50 = Some (51 - 1)). split; [lia|reflexivity].
Qed.

Lemma level_table_matches_the_server_witness :
  Storage.getUser (tables fan_db) 3 = Some polyglot /\
  0 <= experience_of fan_db 3 + 7 /\
  snd (updateUserExperience fan_db 3 7) = Some (with_level "Explorer" polyglot, 55) /\
  in_range 55 (currentLevel "Explorer") /\
  nextLevel (currentLevel "Explorer")
    = Some {| name := "Cinephile"; minXP := 151; maxXP := Some 300 |}.
Proof.
  assert (Hu : Storage.getUser (tables fan_db) 3 = Some polyglot) by reflexivity.
  assert (Hpos : 0 <= experience_of fan_db 3 + 7) by (vm_compute; discriminate).
  split; [exact Hu|]. split; [exact Hpos|].
  destruct (level_table_matches_the_server fan_db 3 7 Hu Hpos)
    as (level & Hr & _ & _ & Hrange & _).
  assert (El : level = "Explorer").
  { assert (E := Hr). vm_compute in E. injection E as E. symmetry. exact E. }
  rewrite El in Hr, Hrange.
  split; [exact Hr|]. split; [exact Hrange|reflexivity].
Defined.
